(** * Snake game engine: a shallow embedding of [snake_game.py]

    The simulation core of the arcade game (positions, the snake, the
    chasing enemies, food placement and the per-tick update) is embedded
    as pure functions over [Z] and lists.  Rendering, fonts and the menu
    screen are left out; what the engine reads from the outside world
    (key events, the random module, the millisecond clock, the high-score
    file) is passed in explicitly. *)

From Stdlib Require Import ZArith List Bool Lia.
Import ListNotations.
Open Scope Z_scope.

(** ** Outcomes

    Python code can return, raise, or keep looping.  [Looping] is the
    outcome of a [while True] retry loop that has used up every draw it
    was given without finding an acceptable one. *)

Inductive Exn : Type :=
| IndexError
| SystemExit.

Inductive Res (A : Type) : Type :=
| Ok (a : A)
| Raise (e : Exn)
| Looping.

Arguments Ok {A} a.
Arguments Raise {A} e.
Arguments Looping {A}.

Definition bind {A B : Type} (c : Res A) (k : A -> Res B) : Res B :=
  match c with
  | Ok a => k a
  | Raise e => Raise e
  | Looping => Looping
  end.

Notation "x <- c ;; k" := (bind c (fun x => k))
  (at level 61, c at next level, right associativity).

(** Python's [any(pred(v) for v in l)]. *)
Definition any {A : Type} (pred : A -> bool) (l : list A) : bool :=
  existsb pred l.

(** Python's [min(l, key=key)] on a non-empty list [first :: rest]: the
    running best is replaced only by a strictly smaller key, so the
    earliest minimal element is returned. *)
Definition py_min {A : Type} (key : A -> Z) (first : A) (rest : list A) : A :=
  fold_left (fun best v => if key v <? key best then v else best) rest first.

(** Python's [range(lo, hi)] and [range(lo, hi, step)] for [step > 0]. *)
Definition range (lo hi : Z) : list Z :=
  map (fun i => lo + Z.of_nat i) (seq 0 (Z.to_nat (hi - lo))).

Definition range_step (lo hi step : Z) : list Z :=
  map (fun i => lo + step * Z.of_nat i)
      (seq 0 (Z.to_nat ((hi - lo + step - 1) / step))).

(** ** Enumerations *)

Inductive FoodType : Type := REGULAR | BONUS | SUPER.

Inductive Color : Type := GREEN | ORANGE | PURPLE.

Inductive Direction : Type := UP | DOWN | LEFT | RIGHT.

Inductive Difficulty : Type := EASY | MEDIUM | HARD.

Inductive MapStyle : Type := BASIC | MAZE.

Inductive Key : Type := K_UP | K_DOWN | K_LEFT | K_RIGHT | K_OTHER.

Inductive Event : Type :=
| QUIT
| KEYDOWN (key : Key)
| OTHER_EVENT.

Definition FoodType_eqb (a b : FoodType) : bool :=
  match a, b with
  | REGULAR, REGULAR | BONUS, BONUS | SUPER, SUPER => true
  | _, _ => false
  end.

Definition Direction_eqb (a b : Direction) : bool :=
  match a, b with
  | UP, UP | DOWN, DOWN | LEFT, LEFT | RIGHT, RIGHT => true
  | _, _ => false
  end.

(** ** Position *)

Module Position.

Record t : Type := mk { x : Z; y : Z }.

(** [Position.__eq__] *)
Definition eqb (a b : t) : bool :=
  (x a =? x b) && (y a =? y b).

Definition distance_to (a b : t) : Z :=
  Z.abs (x a - x b) + Z.abs (y a - y b).

End Position.

(** A wall is a plain pair [(column, row)]. *)
Definition Wall : Type := (Z * Z)%type.

(** ** Enemy *)

Module Enemy.

Record t : Type := mk {
  position : Position.t;
  grid_width : Z;
  grid_height : Z;
  walls : list Wall;
  move_cooldown : Z;
  move_delay : Z
}.

(** [Enemy.__init__] *)
Definition init (pos : Position.t) (gw gh : Z) (ws : list Wall) : t :=
  mk pos gw gh ws 0 2.

Definition set_position (p : Position.t) (e : t) : t :=
  mk p (grid_width e) (grid_height e) (walls e) (move_cooldown e) (move_delay e).

Definition set_move_cooldown (c : Z) (e : t) : t :=
  mk (position e) (grid_width e) (grid_height e) (walls e) c (move_delay e).

(** The four candidates, in the order Up, Down, Left, Right. *)
Definition possible_moves (e : t) : list Position.t :=
  let p := position e in
  [ Position.mk (Position.x p) (Position.y p - 1);
    Position.mk (Position.x p) (Position.y p + 1);
    Position.mk (Position.x p - 1) (Position.y p);
    Position.mk (Position.x p + 1) (Position.y p) ].

(** The body of the filtering loop of [get_valid_moves]: [false] where
    the loop hits one of its three [continue]s, [true] where it reaches
    [valid_moves.append(move)]. *)
Definition keeps (e : t) (snake_body : list Position.t) (move : Position.t) : bool :=
  if (Position.x move <? 0) || (Position.x move >=? grid_width e)
     || (Position.y move <? 0) || (Position.y move >=? grid_height e)
  then false
  else if any (fun w => (fst w =? Position.x move) && (snd w =? Position.y move))
              (walls e)
  then false
  else if any (fun b => (Position.x b =? Position.x move)
                        && (Position.y b =? Position.y move))
              (tl snake_body)
  then false
  else true.

Definition get_valid_moves (e : t) (snake_body : list Position.t) : list Position.t :=
  filter (keeps e snake_body) (possible_moves e).

(** The local function [move_score] of [move_towards_snake]; it reads
    [self.position] before the enemy is moved. *)
Definition move_score (e : t) (snake_head : Position.t) (move : Position.t) : Z :=
  let dx := Position.x snake_head - Position.x (position e) in
  let dy := Position.y snake_head - Position.y (position e) in
  let horizontal_priority := Z.abs dx >? Z.abs dy in
  let move_dx := Position.x move - Position.x (position e) in
  let move_dy := Position.y move - Position.y (position e) in
  let helps_horizontal :=
    ((dx >? 0) && (move_dx >? 0)) || ((dx <? 0) && (move_dx <? 0)) in
  let helps_vertical :=
    ((dy >? 0) && (move_dy >? 0)) || ((dy <? 0) && (move_dy <? 0)) in
  if horizontal_priority
  then (if helps_horizontal then -2 else 2) + (if helps_vertical then -1 else 1)
  else (if helps_vertical then -2 else 2) + (if helps_horizontal then -1 else 1).

Definition move_towards_snake (e : t) (snake_head : Position.t)
           (snake_body : list Position.t) : t :=
  if move_cooldown e >? 0
  then set_move_cooldown (move_cooldown e - 1) e
  else
    match get_valid_moves e snake_body with
    | [] => set_move_cooldown (move_delay e) e
    | m :: ms =>
        let best_move := py_min (move_score e snake_head) m ms in
        set_move_cooldown (move_delay e) (set_position best_move e)
    end.

End Enemy.

(** ** Snake *)

Module Snake.

Record t : Type := mk {
  body : list Position.t;
  direction : Direction;
  growth_pending : bool
}.

(** [Snake.__init__] *)
Definition init (start_pos : Position.t) : t :=
  mk [ start_pos;
       Position.mk (Position.x start_pos - 1) (Position.y start_pos) ]
     RIGHT false.

(** The [if]/[elif] chain of [move] applied to a copy of the head. *)
Definition offset (d : Direction) (head : Position.t) : Position.t :=
  match d with
  | UP => Position.mk (Position.x head) (Position.y head - 1)
  | DOWN => Position.mk (Position.x head) (Position.y head + 1)
  | LEFT => Position.mk (Position.x head - 1) (Position.y head)
  | RIGHT => Position.mk (Position.x head + 1) (Position.y head)
  end.

(** [self.body[0]] raises on an empty list; [insert(0, _)] prepends and
    [pop()] drops the last element. *)
Definition move (s : t) : Res t :=
  match body s with
  | [] => Raise IndexError
  | head :: _ =>
      let new_head := offset (direction s) head in
      let body' := new_head :: body s in
      if negb (growth_pending s)
      then Ok (mk (removelast body') (direction s) (growth_pending s))
      else Ok (mk body' (direction s) false)
  end.

Definition grow (s : t) : t :=
  mk (body s) (direction s) true.

Definition set_direction (d : Direction) (s : t) : t :=
  mk (body s) d (growth_pending s).

End Snake.

(** ** Food *)

Module Food.

Record t : Type := mk {
  position : Position.t;
  type : FoodType;
  color : Color;
  value : Z;
  spawn_time : Z;
  flash_state : bool
}.

Definition set_flash_state (b : bool) (f : t) : t :=
  mk (position f) (type f) (color f) (value f) (spawn_time f) b.

End Food.

(** ** What one tick reads from the outside world

    [draws] are the successive pairs returned by the two
    [random.randint] calls of the food loop, [food_type_roll] is the
    numerator [k] of the float [k / 2^53] returned by [random.random()],
    [spawn_ticks] and [current_time] are the two readings of
    [pygame.time.get_ticks()], and [events] is the content of the event
    queue. *)

Record Env : Type := mkEnv {
  events : list Event;
  draws : list Position.t;
  food_type_roll : Z;
  spawn_ticks : Z;
  current_time : Z
}.

Definition Key_eqb (a b : Key) : bool :=
  match a, b with
  | K_UP, K_UP | K_DOWN, K_DOWN | K_LEFT, K_LEFT | K_RIGHT, K_RIGHT
  | K_OTHER, K_OTHER => true
  | _, _ => false
  end.

(** The events the game-over screen and the menu look at. *)

Inductive OverEvent : Type := O_QUIT | O_SPACE | O_ESCAPE | O_OTHER.

Inductive MenuKey : Type := MK_UP | MK_DOWN | MK_RETURN | MK_OTHER.

Inductive MenuEvent : Type :=
| M_QUIT
| M_KEYDOWN (key : MenuKey)
| M_MOUSEBUTTONDOWN (pos : Z * Z)
| M_OTHER_EVENT.

Definition Difficulty_eqb (a b : Difficulty) : bool :=
  match a, b with
  | EASY, EASY | MEDIUM, MEDIUM | HARD, HARD => true
  | _, _ => false
  end.

Definition MapStyle_eqb (a b : MapStyle) : bool :=
  match a, b with
  | BASIC, BASIC | MAZE, MAZE => true
  | _, _ => false
  end.

(** ** Game *)

Module Game.

Definition DIFFICULTY_SPEEDS (d : Difficulty) : Z :=
  match d with
  | EASY => 7
  | MEDIUM => 15
  | HARD => 20
  end.

Definition MAP_LAYOUTS (m : MapStyle) : list Wall :=
  match m with
  | BASIC => []
  | MAZE =>
      (* border walls *)
      map (fun i => (i, 5)) (range 5 35)
      ++ map (fun i => (i, 25)) (range 5 35)
      ++ map (fun i => (5, i)) (range 5 26)
      ++ map (fun i => (35, i)) (range 5 26)
      (* maze guts *)
      ++ map (fun i => (10, i)) (range 5 20)
      ++ map (fun i => (15, i)) (range 10 26)
      ++ map (fun i => (20, i)) (range 5 20)
      ++ map (fun i => (25, i)) (range 10 26)
      ++ map (fun i => (30, i)) (range 5 20)
      (* horizontal connectors *)
      ++ map (fun i => (i, 10)) (range_step 5 35 5)
      ++ map (fun i => (i, 15)) (range_step 5 35 5)
      ++ map (fun i => (i, 20)) (range_step 5 35 5)
  end.

(** The attributes of a [Game] object that the engine reads or writes
    (the screen, clock and font objects are left out), together with
    [highscore_file], the number held by [snake_highscore.txt]
    ([None] when the file is missing or does not parse). *)
Record t : Type := mk {
  grid_width : Z;
  grid_height : Z;
  score : Z;
  high_score : Z;
  difficulty : Difficulty;
  map_style : MapStyle;
  walls : list Wall;
  enemies : list Enemy.t;
  enemy_count : Z;
  spawn_enemies : bool;
  snake : Snake.t;
  food : Food.t;
  game_over : bool;
  last_update_time : Z;
  food_flash_interval : Z;
  highscore_file : option Z
}.

Definition set_score (v : Z) (g : t) : t :=
  mk (grid_width g) (grid_height g) v (high_score g) (difficulty g)
     (map_style g) (walls g) (enemies g) (enemy_count g) (spawn_enemies g)
     (snake g) (food g) (game_over g) (last_update_time g)
     (food_flash_interval g) (highscore_file g).

Definition set_high_score (v : Z) (g : t) : t :=
  mk (grid_width g) (grid_height g) (score g) v (difficulty g)
     (map_style g) (walls g) (enemies g) (enemy_count g) (spawn_enemies g)
     (snake g) (food g) (game_over g) (last_update_time g)
     (food_flash_interval g) (highscore_file g).

Definition set_difficulty (v : Difficulty) (g : t) : t :=
  mk (grid_width g) (grid_height g) (score g) (high_score g) v
     (map_style g) (walls g) (enemies g) (enemy_count g) (spawn_enemies g)
     (snake g) (food g) (game_over g) (last_update_time g)
     (food_flash_interval g) (highscore_file g).

Definition set_map_style (v : MapStyle) (g : t) : t :=
  mk (grid_width g) (grid_height g) (score g) (high_score g) (difficulty g)
     v (walls g) (enemies g) (enemy_count g) (spawn_enemies g)
     (snake g) (food g) (game_over g) (last_update_time g)
     (food_flash_interval g) (highscore_file g).

Definition set_walls (v : list Wall) (g : t) : t :=
  mk (grid_width g) (grid_height g) (score g) (high_score g) (difficulty g)
     (map_style g) v (enemies g) (enemy_count g) (spawn_enemies g)
     (snake g) (food g) (game_over g) (last_update_time g)
     (food_flash_interval g) (highscore_file g).

Definition set_enemies (v : list Enemy.t) (g : t) : t :=
  mk (grid_width g) (grid_height g) (score g) (high_score g) (difficulty g)
     (map_style g) (walls g) v (enemy_count g) (spawn_enemies g)
     (snake g) (food g) (game_over g) (last_update_time g)
     (food_flash_interval g) (highscore_file g).

Definition set_enemy_count (v : Z) (g : t) : t :=
  mk (grid_width g) (grid_height g) (score g) (high_score g) (difficulty g)
     (map_style g) (walls g) (enemies g) v (spawn_enemies g)
     (snake g) (food g) (game_over g) (last_update_time g)
     (food_flash_interval g) (highscore_file g).

Definition set_spawn_enemies (v : bool) (g : t) : t :=
  mk (grid_width g) (grid_height g) (score g) (high_score g) (difficulty g)
     (map_style g) (walls g) (enemies g) (enemy_count g) v
     (snake g) (food g) (game_over g) (last_update_time g)
     (food_flash_interval g) (highscore_file g).

Definition set_snake (v : Snake.t) (g : t) : t :=
  mk (grid_width g) (grid_height g) (score g) (high_score g) (difficulty g)
     (map_style g) (walls g) (enemies g) (enemy_count g) (spawn_enemies g)
     v (food g) (game_over g) (last_update_time g)
     (food_flash_interval g) (highscore_file g).

Definition set_food (v : Food.t) (g : t) : t :=
  mk (grid_width g) (grid_height g) (score g) (high_score g) (difficulty g)
     (map_style g) (walls g) (enemies g) (enemy_count g) (spawn_enemies g)
     (snake g) v (game_over g) (last_update_time g)
     (food_flash_interval g) (highscore_file g).

Definition set_game_over (v : bool) (g : t) : t :=
  mk (grid_width g) (grid_height g) (score g) (high_score g) (difficulty g)
     (map_style g) (walls g) (enemies g) (enemy_count g) (spawn_enemies g)
     (snake g) (food g) v (last_update_time g)
     (food_flash_interval g) (highscore_file g).

Definition set_last_update_time (v : Z) (g : t) : t :=
  mk (grid_width g) (grid_height g) (score g) (high_score g) (difficulty g)
     (map_style g) (walls g) (enemies g) (enemy_count g) (spawn_enemies g)
     (snake g) (food g) (game_over g) v
     (food_flash_interval g) (highscore_file g).

Definition set_highscore_file (v : option Z) (g : t) : t :=
  mk (grid_width g) (grid_height g) (score g) (high_score g) (difficulty g)
     (map_style g) (walls g) (enemies g) (enemy_count g) (spawn_enemies g)
     (snake g) (food g) (game_over g) (last_update_time g)
     (food_flash_interval g) v.

(** [load_high_score]: any failure to open or parse gives 0. *)
Definition load_high_score (file : option Z) : Z :=
  match file with
  | Some n => n
  | None => 0
  end.

(** [save_high_score] when the write succeeds.  A write that fails
    raises in the source; that outcome is not part of this model, which
    covers the game with a writable high-score file. *)
Definition save_high_score (g : t) : t :=
  set_highscore_file (Some (high_score g)) g.

(** The acceptance test of the food loop: the drawn cell is on no
    snake segment, no wall and no enemy. *)
Definition food_cell_ok (g : t) (food_pos : Position.t) : bool :=
  negb (any (fun b => (Position.x b =? Position.x food_pos)
                      && (Position.y b =? Position.y food_pos))
            (Snake.body (snake g)))
  && negb (any (fun w => (fst w =? Position.x food_pos)
                         && (snd w =? Position.y food_pos))
               (walls g))
  && negb (any (fun e => (Position.x (Enemy.position e) =? Position.x food_pos)
                         && (Position.y (Enemy.position e) =? Position.y food_pos))
               (enemies g)).

(** The [while True] of [generate_food], run over the supplied draws. *)
Fixpoint generate_food_loop (g : t) (cells : list Position.t) : Res Position.t :=
  match cells with
  | [] => Looping
  | food_pos :: rest =>
      if food_cell_ok g food_pos then Ok food_pos
      else generate_food_loop g rest
  end.

(** The two float comparisons [roll < 0.05] and [roll < 0.20] on
    [roll = k / 2^53]: the doubles nearest 0.05 and 0.20 are
    [3602879701896397 / 2^56] and [3602879701896397 / 2^54]. *)
Definition roll_lt_005 (k : Z) : bool := 8 * k <? 3602879701896397.
Definition roll_lt_020 (k : Z) : bool := 2 * k <? 3602879701896397.

Definition generate_food (env : Env) (g : t) : Res Food.t :=
  food_pos <- generate_food_loop g (draws env) ;;
  let food_type_roll := food_type_roll env in
  if roll_lt_005 food_type_roll
  then Ok (Food.mk food_pos SUPER PURPLE 30 (spawn_ticks env) false)
  else if roll_lt_020 food_type_roll
  then Ok (Food.mk food_pos BONUS ORANGE 20 (spawn_ticks env) false)
  else Ok (Food.mk food_pos REGULAR GREEN 10 (spawn_ticks env) false).

Definition check_collision (g : t) : Res bool :=
  match Snake.body (snake g) with
  | [] => Raise IndexError
  | head :: _ =>
      (* wall collision, on grid dimensions *)
      if (Position.x head <? 0) || (Position.x head >=? grid_width g)
         || (Position.y head <? 0) || (Position.y head >=? grid_height g)
      then Ok true
      (* self collision: only the parts after the head *)
      else if (Z.of_nat (length (Snake.body (snake g))) >? 1)
              && any (fun b => (Position.x b =? Position.x head)
                               && (Position.y b =? Position.y head))
                     (tl (Snake.body (snake g)))
      then Ok true
      (* map obstacles *)
      else if any (fun w => (fst w =? Position.x head)
                            && (snd w =? Position.y head))
                  (walls g)
      then Ok true
      else Ok false
  end.

(** One [KEYDOWN] event of [handle_events]. *)
Definition on_keydown (key : Key) (d : Direction) : Direction :=
  if Key_eqb key K_UP && negb (Direction_eqb d DOWN) then UP
  else if Key_eqb key K_DOWN && negb (Direction_eqb d UP) then DOWN
  else if Key_eqb key K_LEFT && negb (Direction_eqb d RIGHT) then LEFT
  else if Key_eqb key K_RIGHT && negb (Direction_eqb d LEFT) then RIGHT
  else d.

(** [handle_events] over the queued events; [QUIT] ends the process. *)
Fixpoint handle_events (evs : list Event) (g : t) : Res t :=
  match evs with
  | [] => Ok g
  | QUIT :: _ => Raise SystemExit
  | KEYDOWN key :: rest =>
      handle_events rest
        (set_snake
           (Snake.set_direction (on_keydown key (Snake.direction (snake g)))
                                (snake g))
           g)
  | OTHER_EVENT :: rest => handle_events rest g
  end.

(** The block that [update] runs on either terminal collision. *)
Definition end_game (g : t) : t :=
  let g := set_game_over true g in
  if score g >? high_score g
  then save_high_score (set_high_score (score g) g)
  else g.

Definition enemy_on (head : Position.t) (e : Enemy.t) : bool :=
  (Position.x head =? Position.x (Enemy.position e))
  && (Position.y head =? Position.y (Enemy.position e)).

Definition update (env : Env) (g : t) : Res t :=
  s <- Snake.move (snake g) ;;
  let g := set_snake s g in
  collided <- check_collision g ;;
  if collided then Ok (end_game g)
  else
    match Snake.body (snake g) with
    | [] => Raise IndexError
    | head :: _ =>
        (* food collision *)
        let food_pos := Food.position (food g) in
        g <- (if (Position.x head =? Position.x food_pos)
                 && (Position.y head =? Position.y food_pos)
              then
                let g := set_score (score g + Food.value (food g)) g in
                let g := set_snake (Snake.grow (snake g)) g in
                f <- generate_food env g ;;
                Ok (set_food f g)
              else Ok g) ;;
        (* flashing of special foods *)
        let g :=
          if current_time env - last_update_time g >? food_flash_interval g
          then
            let g :=
              if negb (FoodType_eqb (Food.type (food g)) REGULAR)
              then set_food (Food.set_flash_state
                               (negb (Food.flash_state (food g))) (food g)) g
              else g in
            set_last_update_time (current_time env) g
          else g in
        (* enemies *)
        if spawn_enemies g
        then
          let g :=
            set_enemies
              (map (fun enemy =>
                      Enemy.move_towards_snake enemy head (Snake.body (snake g)))
                   (enemies g))
              g in
          if any (enemy_on head) (enemies g)
          then Ok (end_game g)
          else Ok g
        else Ok g
    end.

(** [__init__] for a window of [width] by [height] pixels.  The food
    is drawn from the object as built so far; [generate_food] does not
    read the [food] attribute, so the record is first filled with an
    arbitrary food that the draw then replaces. *)
Definition init (file : option Z) (env : Env) (width height : Z) : Res t :=
  let cell_size := 20 in
  let gw := width / cell_size in
  let gh := height / cell_size in
  let g :=
    mk gw gh 0 (load_high_score file) EASY BASIC (MAP_LAYOUTS BASIC)
       [] 0 false
       (Snake.init (Position.mk (gw / 2) (gh / 2)))
       (Food.mk (Position.mk 0 0) REGULAR GREEN 10 0 false)
       false (current_time env) 500 file in
  f <- generate_food env g ;;
  Ok (set_food f g).

(** What [Menu.show] does to a fresh game on "Start Game", before it
    calls [run]. *)
Definition configure (d : Difficulty) (m : MapStyle) (spawn : bool)
           (count : Z) (g : t) : t :=
  let g := set_difficulty d g in
  let g := set_map_style m g in
  let g := set_walls (MAP_LAYOUTS m) g in
  let g := set_spawn_enemies spawn g in
  set_enemy_count count g.

(** The acceptance test of the enemy placement loop of [run]. *)
Definition enemy_cell_ok (g : t) (pos : Position.t) : bool :=
  negb (any (fun b => (Position.x b =? Position.x pos)
                      && (Position.y b =? Position.y pos))
            (Snake.body (snake g)))
  && negb (any (fun w => (fst w =? Position.x pos) && (snd w =? Position.y pos))
               (walls g))
  && negb (any (fun e => (Position.x (Enemy.position e) =? Position.x pos)
                         && (Position.y (Enemy.position e) =? Position.y pos))
               (enemies g))
  && negb ((Position.x (Food.position (food g)) =? Position.x pos)
           && (Position.y (Food.position (food g)) =? Position.y pos)).

(** The inner [while True] of [run]: returns the game with one more
    enemy and the draws not yet used. *)
Fixpoint place_enemy (g : t) (cells : list Position.t)
  : Res (t * list Position.t) :=
  match cells with
  | [] => Looping
  | pos :: rest =>
      if enemy_cell_ok g pos
      then Ok (set_enemies
                 (enemies g
                  ++ [Enemy.init pos (grid_width g) (grid_height g) (walls g)])
                 g,
               rest)
      else place_enemy g rest
  end.

Fixpoint place_enemies (n : nat) (g : t) (cells : list Position.t) : Res t :=
  match n with
  | O => Ok g
  | S n' =>
      r <- place_enemy g cells ;;
      place_enemies n' (fst r) (snd r)
  end.

(** The main [while not self.game_over] loop of [run], one [Env] per
    iteration; [Looping] when the supplied iterations are used up and
    the game is still on. *)
Fixpoint run_loop (ticks : list Env) (g : t) : Res t :=
  if game_over g then Ok g
  else
    match ticks with
    | [] => Looping
    | env :: rest =>
        g <- handle_events (events env) g ;;
        g <- update env g ;;
        run_loop rest g
    end.

(** The [for] loop of [show_game_over] over one batch of events:
    SPACE clears [waiting] (the rest of the batch is still looked at),
    ESC and QUIT end the process. *)
Fixpoint show_game_over_batch (evs : list OverEvent) (waiting : bool) : Res bool :=
  match evs with
  | [] => Ok waiting
  | O_QUIT :: _ => Raise SystemExit
  | O_SPACE :: rest => show_game_over_batch rest false
  | O_ESCAPE :: _ => Raise SystemExit
  | O_OTHER :: rest => show_game_over_batch rest waiting
  end.

(** The [while waiting] loop of [show_game_over], one batch of events
    per iteration. *)
Fixpoint show_game_over (batches : list (list OverEvent)) : Res unit :=
  match batches with
  | [] => Looping
  | evs :: rest =>
      waiting <- show_game_over_batch evs true ;;
      if waiting then show_game_over rest else Ok tt
  end.

(** The enemy set-up block that opens [run]. *)
Definition setup_enemies (setup : list Position.t) (g : t) : Res t :=
  if spawn_enemies g && (enemy_count g >? 0)
  then place_enemies (Z.to_nat (enemy_count g)) (set_enemies [] g) setup
  else Ok g.

(** [run]: enemy set-up, the main loop, the game-over screen, and the
    returned score. *)
Definition run (setup : list Position.t) (ticks : list Env)
           (over : list (list OverEvent)) (g : t) : Res Z :=
  g <- setup_enemies setup g ;;
  g <- run_loop ticks g ;;
  _ <- show_game_over over ;;
  Ok (score g).

(** [run] again, returning the game object as [run] leaves it beside
    the score that [run] returns. *)
Definition play (setup : list Position.t) (ticks : list Env)
           (over : list (list OverEvent)) (g : t) : Res (t * Z) :=
  g <- setup_enemies setup g ;;
  g <- run_loop ticks g ;;
  _ <- show_game_over over ;;
  Ok (g, score g).

End Game.

(** ** Menu *)

(** What one game started from the menu reads from the outside world. *)
Record Session : Type := mkSession {
  init_env : Env;
  setup_draws : list Position.t;
  tick_envs : list Env;
  over_batches : list (list OverEvent)
}.

Module Menu.

Record t : Type := mk {
  width : Z;
  height : Z;
  difficulty : Difficulty;
  map_style : MapStyle;
  spawn_enemies : bool;
  enemy_count : Z
}.

(** [Menu.__init__] *)
Definition init (width height : Z) : t :=
  mk width height EASY BASIC false 0.

Definition set_difficulty (v : Difficulty) (m : t) : t :=
  mk (width m) (height m) v (map_style m) (spawn_enemies m) (enemy_count m).

Definition set_map_style (v : MapStyle) (m : t) : t :=
  mk (width m) (height m) (difficulty m) v (spawn_enemies m) (enemy_count m).

Definition set_spawn_enemies (v : bool) (m : t) : t :=
  mk (width m) (height m) (difficulty m) (map_style m) v (enemy_count m).

Definition set_enemy_count (v : Z) (m : t) : t :=
  mk (width m) (height m) (difficulty m) (map_style m) (spawn_enemies m) v.

(** [len(options)] *)
Definition options_len : Z := 6.

(** [list(Game.DIFFICULTY_SPEEDS.keys())] and [list(Game.MAP_LAYOUTS.keys())],
    in insertion order. *)
Definition difficulties : list Difficulty := [EASY; MEDIUM; HARD].

Definition maps : list MapStyle := [BASIC; MAZE].

(** [l.index(v)] for a value that occurs in [l]. *)
Fixpoint index {A : Type} (eqb : A -> A -> bool) (v : A) (l : list A) : nat :=
  match l with
  | [] => O
  | w :: rest => if eqb w v then O else S (index eqb v rest)
  end.

(** [l[(l.index(v) + 1) % len(l)]] *)
Definition cycle {A : Type} (eqb : A -> A -> bool) (l : list A) (v : A) : A :=
  let current_index := Z.of_nat (index eqb v l) in
  nth (Z.to_nat ((current_index + 1) mod Z.of_nat (length l))) l v.

(** The rectangle of button [i]:
    [Rect((width - 300) // 2, 150 + i * 80, 300, 60)], as
    (left, top, width, height). *)
Definition button_rect (m : t) (i : Z) : Z * Z * Z * Z :=
  let button_height := 60 in
  let button_width := 300 in
  let button_margin := 20 in
  let start_y := 150 in
  ((width m - button_width) / 2,
   start_y + i * (button_height + button_margin),
   button_width, button_height).

(** [rect.collidepoint(pos)]: the right and bottom edges are outside. *)
Definition collidepoint (rect : Z * Z * Z * Z) (pos : Z * Z) : bool :=
  let '(rx, ry, rw, rh) := rect in
  (rx <=? fst pos) && (fst pos <? rx + rw)
  && (ry <=? snd pos) && (snd pos <? ry + rh).

(** The local state of [show], the events it has posted back to the
    queue, and the content of the high-score file. *)
Record Show : Type := mkShow {
  menu : t;
  selected_option : Z;
  running : bool;
  posted : list MenuEvent;
  file : option Z
}.

Definition set_menu (v : t) (st : Show) : Show :=
  mkShow v (selected_option st) (running st) (posted st) (file st).

Definition set_selected_option (v : Z) (st : Show) : Show :=
  mkShow (menu st) v (running st) (posted st) (file st).

Definition set_running (v : bool) (st : Show) : Show :=
  mkShow (menu st) (selected_option st) v (posted st) (file st).

Definition post (ev : MenuEvent) (st : Show) : Show :=
  mkShow (menu st) (selected_option st) (running st) (posted st ++ [ev]) (file st).

Definition set_file (v : option Z) (st : Show) : Show :=
  mkShow (menu st) (selected_option st) (running st) (posted st) v.

(** "Start Game": build a game for the menu's window, copy the menu's
    settings into it and run it. *)
Definition start_game (sess : Session) (hs : option Z) (m : t) : Res (Game.t * Z) :=
  game <- Game.init hs (init_env sess) (width m) (height m) ;;
  let game :=
    Game.configure (difficulty m) (map_style m) (spawn_enemies m)
                   (enemy_count m) game in
  Game.play (setup_draws sess) (tick_envs sess) (over_batches sess) game.

(** The [K_RETURN] branch of [show]. *)
Definition on_return (sess : Session) (st : Show) : Res Show :=
  let m := menu st in
  if selected_option st =? 0 then
    r <- start_game sess (file st) m ;;
    Ok (set_file (Game.highscore_file (fst r)) st)
  else if selected_option st =? 1 then
    Ok (set_menu (set_difficulty (cycle Difficulty_eqb difficulties (difficulty m)) m) st)
  else if selected_option st =? 2 then
    Ok (set_menu (set_map_style (cycle MapStyle_eqb maps (map_style m)) m) st)
  else if selected_option st =? 3 then
    Ok (set_menu (set_spawn_enemies (negb (spawn_enemies m)) m) st)
  else if selected_option st =? 4 then
    if spawn_enemies m
    then Ok (set_menu (set_enemy_count (enemy_count m mod 5 + 1) m) st)
    else Ok st
  else if selected_option st =? 5 then
    Ok (set_running false st)
  else Ok st.

(** The [for i, rect in enumerate(buttons)] loop of a mouse click. *)
Fixpoint on_click (pos : Z * Z) (indices : list Z) (st : Show) : Show :=
  match indices with
  | [] => st
  | i :: rest =>
      if collidepoint (button_rect (menu st) i) pos
      then on_click pos rest
                    (post (M_KEYDOWN MK_RETURN) (set_selected_option i st))
      else on_click pos rest st
  end.

(** One event of the event loop of [show]. *)
Definition on_event (sess : Session) (ev : MenuEvent) (st : Show) : Res Show :=
  match ev with
  | M_QUIT => Raise SystemExit
  | M_KEYDOWN MK_UP =>
      Ok (set_selected_option ((selected_option st - 1) mod options_len) st)
  | M_KEYDOWN MK_DOWN =>
      Ok (set_selected_option ((selected_option st + 1) mod options_len) st)
  | M_KEYDOWN MK_RETURN => on_return sess st
  | M_KEYDOWN MK_OTHER => Ok st
  | M_MOUSEBUTTONDOWN pos => Ok (on_click pos (range 0 options_len) st)
  | M_OTHER_EVENT => Ok st
  end.

(** The [for event in pygame.event.get()] loop over what one call of
    [get()] returned; each event comes with the inputs of the game it
    would start. *)
Fixpoint frame (evs : list (MenuEvent * Session)) (st : Show) : Res Show :=
  match evs with
  | [] => Ok st
  | (ev, sess) :: rest =>
      st <- on_event sess ev st ;;
      frame rest st
  end.

(** The [while running] loop of [show], one list per call of [get()]. *)
Fixpoint show_loop (frames : list (list (MenuEvent * Session))) (st : Show)
  : Res Show :=
  if running st then
    match frames with
    | [] => Looping
    | evs :: rest =>
        st <- frame evs st ;;
        show_loop rest st
    end
  else Ok st.

Definition show (frames : list (list (MenuEvent * Session))) (hs : option Z)
           (m : t) : Res Show :=
  show_loop frames (mkShow m 0 true [] hs).

End Menu.

(** [main]: the menu for the default window. *)
Definition main (frames : list (list (MenuEvent * Session))) (hs : option Z)
  : Res Menu.Show :=
  Menu.show frames hs (Menu.init 800 600).

(** ** Definitions used to state the properties *)

(** The reverse of a heading, and the arrow key that asks for a heading. *)
Definition opposite (d : Direction) : Direction :=
  match d with
  | UP => DOWN
  | DOWN => UP
  | LEFT => RIGHT
  | RIGHT => LEFT
  end.

Definition key_of (d : Direction) : Key :=
  match d with
  | UP => K_UP
  | DOWN => K_DOWN
  | LEFT => K_LEFT
  | RIGHT => K_RIGHT
  end.

(** The pursuit score as the specification words it: a candidate helps
    on an axis when its offset on that axis is non-zero and has the sign
    of the enemy-to-head offset; the prioritized axis is the horizontal
    one exactly when [|dx| > |dy|]. *)
Definition spec_helps (d md : Z) : bool :=
  (Z.sgn md =? Z.sgn d) && negb (md =? 0).

Definition spec_score (e : Enemy.t) (head move : Position.t) : Z :=
  let dx := Position.x head - Position.x (Enemy.position e) in
  let dy := Position.y head - Position.y (Enemy.position e) in
  let mdx := Position.x move - Position.x (Enemy.position e) in
  let mdy := Position.y move - Position.y (Enemy.position e) in
  let prioritized := if Z.abs dy <? Z.abs dx then spec_helps dx mdx else spec_helps dy mdy in
  let other := if Z.abs dy <? Z.abs dx then spec_helps dy mdy else spec_helps dx mdx in
  (if prioritized then -2 else 2) + (if other then -1 else 1).

(** A cell of the grid of a game or of an enemy. *)
Definition in_grid (gw gh : Z) (p : Position.t) : Prop :=
  0 <= Position.x p < gw /\ 0 <= Position.y p < gh.

Definition wall_in_grid (gw gh : Z) (w : Wall) : Prop :=
  0 <= fst w < gw /\ 0 <= snd w < gh.

Definition cell (p : Position.t) : Wall := (Position.x p, Position.y p).

(** No snake segment, no wall and no enemy on [p]. *)
Definition free_cell (g : Game.t) (p : Position.t) : Prop :=
  ~ In p (Snake.body (Game.snake g))
  /\ ~ In (cell p) (Game.walls g)
  /\ (forall e, In e (Game.enemies g) -> Enemy.position e <> p).

(** ** The three phases of [update] after the collision check

    [update] is one function in the source; these name its food,
    flashing and enemy blocks so that they can be reasoned about one at
    a time ([update_phases] below shows that [update] is their
    composition). *)

Definition food_phase (env : Env) (head : Position.t) (g : Game.t) : Res Game.t :=
  if (Position.x head =? Position.x (Food.position (Game.food g)))
     && (Position.y head =? Position.y (Food.position (Game.food g)))
  then
    let g := Game.set_score (Game.score g + Food.value (Game.food g)) g in
    let g := Game.set_snake (Snake.grow (Game.snake g)) g in
    f <- Game.generate_food env g ;;
    Ok (Game.set_food f g)
  else Ok g.

Definition flash_phase (env : Env) (g : Game.t) : Game.t :=
  if current_time env - Game.last_update_time g >? Game.food_flash_interval g
  then
    let g :=
      if negb (FoodType_eqb (Food.type (Game.food g)) REGULAR)
      then Game.set_food (Food.set_flash_state
                            (negb (Food.flash_state (Game.food g)))
                            (Game.food g)) g
      else g in
    Game.set_last_update_time (current_time env) g
  else g.

Definition moved_enemies (head : Position.t) (g : Game.t) : list Enemy.t :=
  map (fun enemy =>
         Enemy.move_towards_snake enemy head (Snake.body (Game.snake g)))
      (Game.enemies g).

Definition enemy_phase (head : Position.t) (g : Game.t) : Game.t :=
  if Game.spawn_enemies g
  then
    let g := Game.set_enemies (moved_enemies head g) g in
    if any (Game.enemy_on head) (Game.enemies g)
    then Game.end_game g
    else g
  else g.

(** ** Sample states

    The 40 by 30 grid of the default 800 by 600 window, the snake as
    [Snake.__init__] builds it at the centre, a regular food one cell
    ahead of the head, and an enemy five cells to the right of it. *)

Definition sample_head : Position.t := Position.mk 20 15.

Definition sample_snake : Snake.t := Snake.init sample_head.

Definition sample_enemy : Enemy.t :=
  Enemy.init (Position.mk 25 15) 40 30 (Game.MAP_LAYOUTS BASIC).

Definition sample_food : Food.t :=
  Food.mk (Position.mk 21 15) REGULAR GREEN 10 0 false.

Definition sample_game : Game.t :=
  Game.mk 40 30 0 0 EASY BASIC (Game.MAP_LAYOUTS BASIC) [] 0 false
          sample_snake sample_food false 0 500 None.

Definition sample_env : Env :=
  mkEnv [] [Position.mk 21 15; Position.mk 7 3] 4503599627370496 100 100.

(** A game on the maze layout with the snake one step left of the first
    inner vertical wall, and the sample game with its terminal flag set. *)

Definition maze_game : Game.t :=
  Game.mk 40 30 30 50 EASY MAZE (Game.MAP_LAYOUTS MAZE) [] 0 false
          (Snake.mk [Position.mk 9 12; Position.mk 8 12] RIGHT false)
          sample_food false 0 500 (Some 50).

Definition terminated_game : Game.t := Game.set_game_over true sample_game.

(** The sample game with enemies switched on and one enemy, ready to
    move, on the cell just ahead of the snake's head; and the draws of a
    20 by 15 grid. *)

Definition chase_game : Game.t :=
  Game.mk 40 30 0 0 EASY BASIC (Game.MAP_LAYOUTS BASIC)
          [Enemy.init (Position.mk 21 15) 40 30 (Game.MAP_LAYOUTS BASIC)]
          1 true sample_snake
          (Food.mk (Position.mk 5 5) REGULAR GREEN 10 0 false)
          false 0 500 None.

Definition small_env : Env :=
  mkEnv [] [Position.mk 3 3] 4503599627370496 0 0.

(** One tick in which the sample snake eats the food ahead of it, then
    ticks that run it into the right edge of the grid; and the sample
    game with a snake of three cells in a row. *)

Definition record_ticks : list Env :=
  sample_env :: repeat small_env 19.

Definition long_game : Game.t :=
  Game.set_snake
    (Snake.mk [Position.mk 20 15; Position.mk 19 15; Position.mk 18 15]
              RIGHT false)
    sample_game.

(** The sample game with the snake coiled in a two by two square, its
    head heading down onto the cell of its last segment. *)

Definition square_game : Game.t :=
  Game.set_snake
    (Snake.mk [Position.mk 20 15; Position.mk 21 15; Position.mk 21 16;
               Position.mk 20 16]
              DOWN false)
    sample_game.

(** The menu as [main] opens it, and the inputs of a game in which the
    snake eats once and then runs into the right edge of the grid, the
    player pressing SPACE on the game-over screen. *)

Definition sample_show : Menu.Show :=
  Menu.mkShow (Menu.init 800 600) 0 true [] None.

Definition sample_session : Session :=
  mkSession sample_env [] record_ticks [[O_OTHER]; [O_SPACE]].

(** A session of the menu: a game is played, Exit is clicked, and the
    posted Return is delivered. *)

Definition sample_frames : list (list (MenuEvent * Session)) :=
  [[(M_KEYDOWN MK_RETURN, sample_session)];
   [(M_MOUSEBUTTONDOWN (300, 560), sample_session)];
   [(M_KEYDOWN MK_RETURN, sample_session)]].

(** ** Basic facts about the list helpers *)

(** Case analysis on every conditional of the goal. *)
Ltac case_ifs :=
  repeat match goal with
         | |- context [if ?c then _ else _] => destruct c; simpl
         end.

Lemma position_eta (a b : Position.t) :
  Position.x a = Position.x b -> Position.y a = Position.y b -> a = b.
Proof.
  destruct a, b; simpl; intros; subst; reflexivity.
Qed.

Lemma any_segment_In (p : Position.t) (l : list Position.t) :
  any (fun b => (Position.x b =? Position.x p) && (Position.y b =? Position.y p)) l = true
  <-> In p l.
Proof.
  unfold any. rewrite existsb_exists. split.
  - intros [b [Hin Hb]]. apply andb_true_iff in Hb as [Hx Hy].
    apply Z.eqb_eq in Hx, Hy.
    now rewrite <- (position_eta b p Hx Hy).
  - intros Hin. exists p. split; [assumption|].
    now rewrite !Z.eqb_refl.
Qed.

Lemma any_wall_In (p : Position.t) (l : list Wall) :
  any (fun w => (fst w =? Position.x p) && (snd w =? Position.y p)) l = true
  <-> In (cell p) l.
Proof.
  unfold any, cell. rewrite existsb_exists. split.
  - intros [[a b] [Hin Hw]]. simpl in Hw.
    apply andb_true_iff in Hw as [Hx Hy].
    apply Z.eqb_eq in Hx, Hy. now subst.
  - intros Hin. exists (Position.x p, Position.y p). split; [assumption|].
    simpl. now rewrite !Z.eqb_refl.
Qed.

Lemma any_enemy_In (p : Position.t) (l : list Enemy.t) :
  any (fun e => (Position.x (Enemy.position e) =? Position.x p)
                && (Position.y (Enemy.position e) =? Position.y p)) l = true
  <-> exists e, In e l /\ Enemy.position e = p.
Proof.
  unfold any. rewrite existsb_exists. split.
  - intros [e [Hin He]]. apply andb_true_iff in He as [Hx Hy].
    apply Z.eqb_eq in Hx, Hy. exists e. split; [assumption|].
    now apply position_eta.
  - intros [e [Hin He]]. exists e. split; [assumption|].
    subst p. now rewrite !Z.eqb_refl.
Qed.

Lemma any_false_iff {A : Type} (pred : A -> bool) (l : list A) (P : Prop) :
  (any pred l = true <-> P) -> (any pred l = false <-> ~ P).
Proof.
  intros H. destruct (any pred l).
  - split; [discriminate|]. intros HP. exfalso. apply HP, H. reflexivity.
  - split; [|reflexivity]. intros _ HP. apply H in HP. discriminate.
Qed.

Lemma removelast_cons_length {A : Type} (a : A) (l : list A) :
  length (removelast (a :: l)) = length l.
Proof.
  revert a. induction l as [|b l IH]; intros a; [reflexivity|].
  change (length (removelast (a :: b :: l)))
    with (S (length (removelast (b :: l)))).
  now rewrite IH.
Qed.

Lemma removelast_cons_head {A : Type} (a b : A) (l : list A) :
  removelast (a :: b :: l) = a :: removelast (b :: l).
Proof. reflexivity. Qed.

(** [py_min] returns the first element whose key is minimal. *)
Lemma py_min_split {A : Type} (key : A -> Z) (rest : list A) :
  forall first,
    (py_min key first rest = first
     /\ Forall (fun v => key first <= key v) rest)
    \/ (exists before after,
           rest = before ++ py_min key first rest :: after
           /\ key (py_min key first rest) < key first
           /\ Forall (fun v => key (py_min key first rest) < key v) before
           /\ Forall (fun v => key (py_min key first rest) <= key v) after).
Proof.
  unfold py_min. induction rest as [|v rest IH]; intros first; simpl.
  - left. split; [reflexivity | constructor].
  - destruct (Z.ltb_spec (key v) (key first)) as [Hlt | Hge].
    + destruct (IH v) as [[Heq Hall] | (before & after & Hsplit & Hk & Hb & Ha)].
      * right. exists [], rest. rewrite Heq. simpl.
        repeat split; [assumption | constructor | assumption].
      * right. exists (v :: before), after. simpl.
        repeat split.
        -- now rewrite <- Hsplit.
        -- lia.
        -- constructor; assumption.
        -- assumption.
    + destruct (IH first) as [[Heq Hall] | (before & after & Hsplit & Hk & Hb & Ha)].
      * left. split; [assumption|]. constructor; assumption.
      * right. exists (v :: before), after. simpl.
        repeat split.
        -- now rewrite <- Hsplit.
        -- assumption.
        -- constructor; [lia | assumption].
        -- assumption.
Qed.

Lemma py_min_first_minimum {A : Type} (key : A -> Z) (first : A) (rest : list A) :
  exists before after,
    first :: rest = before ++ py_min key first rest :: after
    /\ Forall (fun v => key (py_min key first rest) < key v) before
    /\ Forall (fun v => key (py_min key first rest) <= key v) after.
Proof.
  destruct (py_min_split key rest first)
    as [[Heq Hall] | (before & after & Hsplit & Hk & Hb & Ha)].
  - exists [], rest. rewrite Heq. simpl.
    repeat split; [constructor | assumption].
  - exists (first :: before), after. simpl.
    repeat split.
    + now rewrite <- Hsplit.
    + constructor; assumption.
    + assumption.
Qed.

Lemma py_min_In {A : Type} (key : A -> Z) (first : A) (rest : list A) :
  In (py_min key first rest) (first :: rest).
Proof.
  destruct (py_min_first_minimum key first rest) as (before & after & Hsplit & _).
  rewrite Hsplit. apply in_or_app. right. now left.
Qed.

(** ** The snake *)

(** C3: after [move] the body is as long as before when no growth was
    pending, and one cell longer, with the growth flag cleared, if and
    only if growth was pending; the new head sits at index 0 and is the
    old head moved by exactly one cell in the current heading. *)
Theorem C3_move_length_and_head (s : Snake.t) (head : Position.t)
        (rest : list Position.t) :
  Snake.body s = head :: rest ->
  exists s' new_head,
    Snake.move s = Ok s'
    /\ (Snake.growth_pending s = false ->
        length (Snake.body s') = length (Snake.body s))
    /\ (length (Snake.body s') = S (length (Snake.body s))
        <-> Snake.growth_pending s = true)
    /\ Snake.growth_pending s' = false
    /\ nth_error (Snake.body s') 0 = Some new_head
    /\ match Snake.direction s with
       | UP => Position.x new_head = Position.x head
               /\ Position.y new_head = Position.y head - 1
       | DOWN => Position.x new_head = Position.x head
                 /\ Position.y new_head = Position.y head + 1
       | LEFT => Position.x new_head = Position.x head - 1
                 /\ Position.y new_head = Position.y head
       | RIGHT => Position.x new_head = Position.x head + 1
                  /\ Position.y new_head = Position.y head
       end
    /\ Position.distance_to new_head head = 1
    /\ Snake.direction s' = Snake.direction s.
Proof.
  intros Hbody. unfold Snake.move. rewrite Hbody.
  destruct (Snake.growth_pending s) eqn:Hg; simpl negb; cbv iota.
  - eexists. exists (Snake.offset (Snake.direction s) head).
    split; [reflexivity|]. simpl.
    repeat split; try congruence.
    + destruct (Snake.direction s); simpl; split; reflexivity.
    + unfold Position.distance_to.
      destruct (Snake.direction s); simpl; lia.
  - eexists. exists (Snake.offset (Snake.direction s) head).
    split; [reflexivity|].
    cbn [Snake.body Snake.growth_pending Snake.direction].
    rewrite !removelast_cons_length, removelast_cons_head.
    repeat split; try congruence.
    + intros H. simpl in H. lia.
    + destruct (Snake.direction s); simpl; split; reflexivity.
    + unfold Position.distance_to.
      destruct (Snake.direction s); simpl; lia.
Qed.

Lemma C3_move_length_and_head_witness :
  exists s' new_head,
    Snake.move (Snake.init (Position.mk 20 15)) = Ok s'
    /\ length (Snake.body s') = 2%nat
    /\ nth_error (Snake.body s') 0 = Some new_head
    /\ new_head = Position.mk 21 15.
Proof.
  destruct (C3_move_length_and_head (Snake.init (Position.mk 20 15))
              (Position.mk 20 15) [Position.mk 19 15] eq_refl)
    as (s' & new_head & Hmove & Hlen & _ & _ & Hnth & Hdir & _).
  exists s', new_head.
  split; [exact Hmove|].
  split; [exact (Hlen eq_refl)|].
  split; [exact Hnth|].
  simpl in Hdir. destruct Hdir as [Hx Hy].
  apply position_eta; simpl; assumption.
Defined.

(** C8: a key that asks for the exact reverse of the heading leaves the
    heading as it is; a key that asks for any other direction, the
    current one included, sets it. *)
Theorem C8_reversal_guard (h d : Direction) (g : Game.t) :
  Game.on_keydown (key_of d) h = (if Direction_eqb d (opposite h) then h else d)
  /\ Game.on_keydown (key_of (opposite h)) h = h
  /\ Game.on_keydown (key_of h) h = h
  /\ exists g',
      Game.handle_events [KEYDOWN (key_of d)] g = Ok g'
      /\ Snake.direction (Game.snake g')
         = (if Direction_eqb d (opposite (Snake.direction (Game.snake g)))
            then Snake.direction (Game.snake g) else d)
      /\ Snake.body (Game.snake g') = Snake.body (Game.snake g).
Proof.
  split; [destruct h, d; reflexivity|].
  split; [destruct h; reflexivity|].
  split; [destruct h; reflexivity|].
  eexists. split; [reflexivity|]. simpl.
  split; [|reflexivity].
  destruct (Snake.direction (Game.snake g)), d; reflexivity.
Qed.

(** ** The enemies *)

Lemma helps_spec (d md : Z) :
  ((d >? 0) && (md >? 0)) || ((d <? 0) && (md <? 0)) = spec_helps d md.
Proof.
  unfold spec_helps. rewrite !Z.gtb_ltb.
  destruct (Z.lt_trichotomy d 0) as [Hd | [Hd | Hd]];
    destruct (Z.lt_trichotomy md 0) as [Hm | [Hm | Hm]];
    try (rewrite (Z.sgn_neg d) by assumption);
    try (rewrite (Z.sgn_pos d) by assumption);
    try (rewrite (Z.sgn_neg md) by assumption);
    try (rewrite (Z.sgn_pos md) by assumption);
    try subst d; try subst md; simpl Z.sgn;
    repeat match goal with
           | |- context [?a <? ?b] => destruct (Z.ltb_spec a b); try lia
           | |- context [?a =? ?b] => destruct (Z.eqb_spec a b); try lia
           end; reflexivity.
Qed.

(** The score computed by the code is the score of the specification. *)
Lemma move_score_spec (e : Enemy.t) (head move : Position.t) :
  Enemy.move_score e head move = spec_score e head move.
Proof.
  unfold Enemy.move_score, spec_score.
  rewrite !helps_spec, Z.gtb_ltb.
  destruct (Z.abs _ <? Z.abs _); reflexivity.
Qed.

Lemma keeps_spec (e : Enemy.t) (snake_body : list Position.t) (m : Position.t) :
  Enemy.keeps e snake_body m = true
  <-> in_grid (Enemy.grid_width e) (Enemy.grid_height e) m
      /\ ~ In (cell m) (Enemy.walls e)
      /\ ~ In m (tl snake_body).
Proof.
  unfold Enemy.keeps, in_grid.
  pose proof (any_wall_In m (Enemy.walls e)) as Hw.
  pose proof (any_segment_In m (tl snake_body)) as Hb.
  destruct ((Position.x m <? 0) || (Position.x m >=? Enemy.grid_width e)
            || (Position.y m <? 0) || (Position.y m >=? Enemy.grid_height e))
    eqn:Hout.
  - split; [discriminate|]. intros (Hin & _). exfalso.
    rewrite !orb_true_iff, !Z.ltb_lt, !Z.geb_le in Hout. lia.
  - rewrite !orb_false_iff, !Z.ltb_ge, Z.geb_leb, Z.geb_leb, !Z.leb_gt in Hout.
    destruct (any (fun w : Z * Z => _) (Enemy.walls e)).
    + split; [discriminate|]. intros (_ & Hn & _). exfalso.
      apply Hn, Hw. reflexivity.
    + destruct (any (fun b : Position.t => _) (tl snake_body)).
      * split; [discriminate|]. intros (_ & _ & Hn). exfalso.
        apply Hn, Hb. reflexivity.
      * split; [|reflexivity]. intros _.
        split; [lia|]. split.
        -- intros Hin. apply Hw in Hin. discriminate.
        -- intros Hin. apply Hb in Hin. discriminate.
Qed.

Lemma In_get_valid_moves (e : Enemy.t) (snake_body : list Position.t)
      (m : Position.t) :
  In m (Enemy.get_valid_moves e snake_body)
  <-> In m (Enemy.possible_moves e) /\ Enemy.keeps e snake_body m = true.
Proof.
  unfold Enemy.get_valid_moves. apply filter_In.
Qed.

(** C4: an enemy whose cooldown is 0 ends the step with its cooldown
    at the move-delay; when no candidate survives it stays where it is;
    otherwise it moves to the surviving candidate of least score, the
    earliest one in the order Up, Down, Left, Right among those of least
    score, where the score is the one of the specification. *)
Theorem C4_pursuit_choice (e : Enemy.t) (head : Position.t)
        (snake_body : list Position.t) :
  Enemy.move_cooldown e = 0 ->
  let e' := Enemy.move_towards_snake e head snake_body in
  let up := Position.mk (Position.x (Enemy.position e)) (Position.y (Enemy.position e) - 1) in
  let down := Position.mk (Position.x (Enemy.position e)) (Position.y (Enemy.position e) + 1) in
  let left := Position.mk (Position.x (Enemy.position e) - 1) (Position.y (Enemy.position e)) in
  let right := Position.mk (Position.x (Enemy.position e) + 1) (Position.y (Enemy.position e)) in
  let candidates := filter (Enemy.keeps e snake_body) [up; down; left; right] in
  Enemy.get_valid_moves e snake_body = candidates
  /\ Enemy.move_cooldown e' = Enemy.move_delay e
  /\ (candidates = [] -> Enemy.position e' = Enemy.position e)
  /\ (candidates <> [] ->
      exists before after,
        candidates = before ++ Enemy.position e' :: after
        /\ Forall (fun m => spec_score e head (Enemy.position e')
                            < spec_score e head m) before
        /\ Forall (fun m => spec_score e head (Enemy.position e')
                            <= spec_score e head m) after).
Proof.
  intros Hcool e' up down left right candidates.
  assert (Hcand : Enemy.get_valid_moves e snake_body = candidates) by reflexivity.
  split; [exact Hcand|].
  subst e'. unfold Enemy.move_towards_snake.
  rewrite Hcool. change (0 >? 0) with false. cbv iota.
  rewrite Hcand.
  destruct candidates as [|m ms] eqn:Hc.
  - simpl. repeat split. intros H. now elim H.
  - cbv zeta. simpl Enemy.move_cooldown. simpl Enemy.position.
    split; [reflexivity|]. split; [discriminate|]. intros _.
    destruct (py_min_first_minimum (Enemy.move_score e head) m ms)
      as (before & after & Hsplit & Hb & Ha).
    exists before, after. split; [exact Hsplit|].
    split.
    + eapply Forall_impl; [|exact Hb]. intros a Hlt.
      now rewrite <- !move_score_spec.
    + eapply Forall_impl; [|exact Ha]. intros a Hle.
      now rewrite <- !move_score_spec.
Qed.

Lemma C4_pursuit_choice_witness :
  Enemy.move_cooldown
    (Enemy.move_towards_snake sample_enemy sample_head (Snake.body sample_snake))
  = 2
  /\ Enemy.position
       (Enemy.move_towards_snake sample_enemy sample_head (Snake.body sample_snake))
     = Position.mk 24 15.
Proof.
  split.
  - exact (proj1 (proj2 (C4_pursuit_choice sample_enemy sample_head
                           (Snake.body sample_snake) eq_refl))).
  - reflexivity.
Defined.

(** C5: when an enemy moves and at least one candidate survives the
    filter, the cell it moves to is one of its four neighbours, lies
    inside the grid, is no wall and is no snake segment behind the head;
    and a neighbour that meets these three conditions is always a
    candidate, the cell of the snake's head included. *)
Theorem C5_enemy_moves_to_legal_cell (e : Enemy.t) (head : Position.t)
        (snake_body : list Position.t) :
  Enemy.move_cooldown e <= 0 ->
  Enemy.get_valid_moves e snake_body <> [] ->
  let p := Enemy.position (Enemy.move_towards_snake e head snake_body) in
  In p (Enemy.possible_moves e)
  /\ in_grid (Enemy.grid_width e) (Enemy.grid_height e) p
  /\ ~ In (cell p) (Enemy.walls e)
  /\ ~ In p (tl snake_body)
  /\ (forall m,
        In m (Enemy.possible_moves e) ->
        in_grid (Enemy.grid_width e) (Enemy.grid_height e) m ->
        ~ In (cell m) (Enemy.walls e) ->
        ~ In m (tl snake_body) ->
        In m (Enemy.get_valid_moves e snake_body)).
Proof.
  intros Hcool Hne p.
  assert (Hp : In p (Enemy.get_valid_moves e snake_body)).
  { subst p. unfold Enemy.move_towards_snake.
    destruct (Z.gtb_spec (Enemy.move_cooldown e) 0) as [Hpos | _]; [lia|].
    destruct (Enemy.get_valid_moves e snake_body) as [|m ms]; [now elim Hne|].
    simpl Enemy.position. apply py_min_In. }
  apply In_get_valid_moves in Hp as [Hposs Hkeep].
  apply keeps_spec in Hkeep as (Hgrid & Hwall & Hbody).
  repeat split; try assumption; try apply Hgrid.
  intros m Hm Hg Hw Hb. apply In_get_valid_moves.
  split; [assumption|]. apply keeps_spec. repeat split; try assumption; apply Hg.
Qed.

Lemma C5_enemy_moves_to_legal_cell_witness :
  in_grid 40 30
    (Enemy.position
       (Enemy.move_towards_snake sample_enemy sample_head
                                 (Snake.body sample_snake))).
Proof.
  refine (proj1 (proj2 (C5_enemy_moves_to_legal_cell sample_enemy sample_head
                          (Snake.body sample_snake) _ _))).
  - simpl. lia.
  - vm_compute. discriminate.
Defined.

(** ** The per-tick update *)

Lemma update_phases (env : Env) (g : Game.t) :
  Game.update env g =
  (s <- Snake.move (Game.snake g) ;;
   collided <- Game.check_collision (Game.set_snake s g) ;;
   if collided then Ok (Game.end_game (Game.set_snake s g))
   else
     match Snake.body s with
     | [] => Raise IndexError
     | head :: _ =>
         g1 <- food_phase env head (Game.set_snake s g) ;;
         Ok (enemy_phase head (flash_phase env g1))
     end).
Proof.
  unfold Game.update.
  destruct (Snake.move (Game.snake g)) as [s| |]; simpl; try reflexivity.
  destruct (Game.check_collision (Game.set_snake s g)) as [[|]| |];
    simpl; try reflexivity.
  destruct (Snake.body s) as [|head rest]; [reflexivity|].
  unfold food_phase. simpl.
  destruct (food_phase env head (Game.set_snake s g)) as [g1| |] eqn:Hfood;
    unfold food_phase in Hfood; simpl in Hfood; rewrite Hfood; simpl;
    try reflexivity.
  unfold enemy_phase, flash_phase, moved_enemies.
  destruct (Game.spawn_enemies _); [|reflexivity].
  cbv zeta. destruct (any _ _); reflexivity.
Qed.

Lemma end_game_fields (g : Game.t) :
  Game.game_over (Game.end_game g) = true
  /\ Game.score (Game.end_game g) = Game.score g
  /\ Game.food (Game.end_game g) = Game.food g
  /\ Game.enemies (Game.end_game g) = Game.enemies g
  /\ Game.snake (Game.end_game g) = Game.snake g
  /\ Game.walls (Game.end_game g) = Game.walls g.
Proof.
  unfold Game.end_game. simpl.
  destruct (Game.score g >? Game.high_score g); simpl; repeat split; reflexivity.
Qed.

(** What [check_collision] decides, for a snake with a head. *)
Lemma check_collision_spec (g : Game.t) (head : Position.t)
      (rest : list Position.t) :
  Snake.body (Game.snake g) = head :: rest ->
  exists b,
    Game.check_collision g = Ok b
    /\ (b = true <->
        ~ in_grid (Game.grid_width g) (Game.grid_height g) head
        \/ In (cell head) (Game.walls g)
        \/ In head rest).
Proof.
  intros Hbody. unfold Game.check_collision, in_grid. rewrite Hbody.
  pose proof (any_wall_In head (Game.walls g)) as Hw.
  pose proof (any_segment_In head rest) as Hb.
  simpl tl.
  destruct ((Position.x head <? 0) || (Position.x head >=? Game.grid_width g)
            || (Position.y head <? 0) || (Position.y head >=? Game.grid_height g))
    eqn:Hout.
  - exists true. split; [reflexivity|]. split; [|reflexivity]. intros _. left.
    rewrite !orb_true_iff, !Z.ltb_lt, !Z.geb_le in Hout. lia.
  - rewrite !orb_false_iff, !Z.ltb_ge, Z.geb_leb, Z.geb_leb, !Z.leb_gt in Hout.
    destruct (any (fun b : Position.t => _) rest) eqn:Hself.
    + assert (Hlen : (Z.of_nat (length (head :: rest)) >? 1) = true).
      { destruct rest; [discriminate|]. simpl length. apply Z.gtb_lt. lia. }
      rewrite Hlen. simpl andb. cbv iota.
      exists true. split; [reflexivity|]. split; [|reflexivity]. intros _.
      right. right. apply Hb. reflexivity.
    + rewrite andb_false_r.
      destruct (any (fun w : Z * Z => _) (Game.walls g)) eqn:Hwall.
      * exists true. split; [reflexivity|]. split; [|reflexivity]. intros _.
        right. left. apply Hw. reflexivity.
      * exists false. split; [reflexivity|]. split; [discriminate|].
        intros [Hn | [Hn | Hn]].
        -- exfalso. apply Hn. lia.
        -- apply Hw in Hn. discriminate.
        -- apply Hb in Hn. discriminate.
Qed.

Lemma no_collision (g : Game.t) (head : Position.t) (rest : list Position.t) :
  Snake.body (Game.snake g) = head :: rest ->
  in_grid (Game.grid_width g) (Game.grid_height g) head ->
  ~ In (cell head) (Game.walls g) ->
  ~ In head rest ->
  Game.check_collision g = Ok false.
Proof.
  intros Hbody Hgrid Hwall Hself.
  destruct (check_collision_spec g head rest Hbody) as (b & Hcheck & Hb).
  destruct b; [|exact Hcheck]. exfalso.
  destruct (proj1 Hb eq_refl) as [H | [H | H]]; tauto.
Qed.

(** C1: when the advanced head is outside the grid, on a wall or on a
    snake segment behind the head, the tick ends with the terminal flag
    set, the score, the food and the enemies exactly as before the tick,
    and the snake as [move] left it. *)
Theorem C1_terminal_collision (env : Env) (g : Game.t) (s' : Snake.t)
        (head : Position.t) (rest : list Position.t) :
  Snake.move (Game.snake g) = Ok s' ->
  Snake.body s' = head :: rest ->
  ~ in_grid (Game.grid_width g) (Game.grid_height g) head
  \/ In (cell head) (Game.walls g)
  \/ In head rest ->
  exists g',
    Game.update env g = Ok g'
    /\ Game.game_over g' = true
    /\ Game.score g' = Game.score g
    /\ Game.food g' = Game.food g
    /\ Game.enemies g' = Game.enemies g
    /\ Game.snake g' = s'.
Proof.
  intros Hmove Hbody Hhit.
  destruct (check_collision_spec (Game.set_snake s' g) head rest Hbody)
    as (b & Hcheck & Hb).
  apply Hb in Hhit. subst b.
  exists (Game.end_game (Game.set_snake s' g)).
  split.
  - rewrite update_phases, Hmove. simpl. rewrite Hcheck. reflexivity.
  - destruct (end_game_fields (Game.set_snake s' g))
      as (Hover & Hscore & Hfood & Henemies & Hsnake & _).
    repeat split; assumption.
Qed.

Lemma C1_terminal_collision_witness :
  exists g',
    Game.update sample_env maze_game = Ok g'
    /\ Game.game_over g' = true
    /\ Game.score g' = 30.
Proof.
  destruct (C1_terminal_collision sample_env maze_game
              (Snake.mk [Position.mk 10 12; Position.mk 9 12] RIGHT false)
              (Position.mk 10 12) [Position.mk 9 12] eq_refl eq_refl)
    as (g' & Hup & Hover & Hscore & _).
  - right. left. apply (any_wall_In (Position.mk 10 12)). vm_compute. reflexivity.
  - exists g'. repeat split; assumption.
Defined.

(** ** The main loop *)

Lemma update_keeps_terminal_flag (env : Env) (g g' : Game.t) :
  Game.game_over g = true -> Game.update env g = Ok g' ->
  Game.game_over g' = true.
Proof.
  intros Hover. rewrite update_phases.
  destruct (Snake.move (Game.snake g)) as [s| |]; simpl; try discriminate.
  destruct (Game.check_collision (Game.set_snake s g)) as [[|]| |];
    simpl; try discriminate.
  - intros H. injection H as <-. apply end_game_fields.
  - destruct (Snake.body s) as [|head rest]; [discriminate|].
    unfold food_phase. simpl.
    destruct (_ && _).
    + destruct (Game.generate_food env _) as [f| |]; simpl; try discriminate.
      intros H. injection H as <-.
      unfold enemy_phase, flash_phase. simpl.
      case_ifs; try assumption; apply end_game_fields.
    + simpl. intros H. injection H as <-.
      unfold enemy_phase, flash_phase. simpl.
      case_ifs; try assumption; apply end_game_fields.
Qed.

(** ** Food placement *)

Lemma food_cell_ok_spec (g : Game.t) (p : Position.t) :
  Game.food_cell_ok g p = true <-> free_cell g p.
Proof.
  unfold Game.food_cell_ok, free_cell.
  rewrite !andb_true_iff, !negb_true_iff.
  rewrite (any_false_iff _ _ _ (any_segment_In p (Snake.body (Game.snake g)))).
  rewrite (any_false_iff _ _ _ (any_wall_In p (Game.walls g))).
  rewrite (any_false_iff _ _ _ (any_enemy_In p (Game.enemies g))).
  split.
  - intros [[Hb Hw] He]. repeat split; try assumption.
    intros e Hin Heq. apply He. exists e. split; assumption.
  - intros (Hb & Hw & He). repeat split; try assumption.
    intros (e & Hin & Heq). exact (He e Hin Heq).
Qed.

Lemma generate_food_loop_sound (g : Game.t) (cells : list Position.t)
      (p : Position.t) :
  Game.generate_food_loop g cells = Ok p ->
  In p cells /\ Game.food_cell_ok g p = true.
Proof.
  induction cells as [|c cells IH]; simpl; [discriminate|].
  destruct (Game.food_cell_ok g c) eqn:Hc.
  - intros H. injection H as <-. split; [now left | assumption].
  - intros H. destruct (IH H) as [Hin Hok]. split; [now right | assumption].
Qed.

Lemma generate_food_loop_finds (g : Game.t) (cells : list Position.t)
      (p : Position.t) :
  In p cells -> Game.food_cell_ok g p = true ->
  exists q, Game.generate_food_loop g cells = Ok q.
Proof.
  induction cells as [|c cells IH]; simpl; [contradiction|].
  intros [-> | Hin] Hok.
  - rewrite Hok. now exists p.
  - destruct (Game.food_cell_ok g c); [now exists c|]. now apply IH.
Qed.

Lemma generate_food_position (env : Env) (g : Game.t) (f : Food.t) :
  Game.generate_food env g = Ok f ->
  Game.generate_food_loop g (draws env) = Ok (Food.position f).
Proof.
  unfold Game.generate_food.
  destruct (Game.generate_food_loop g (draws env)) as [p| |];
    simpl; try discriminate.
  destruct (Game.roll_lt_005 _); [|destruct (Game.roll_lt_020 _)];
    intros H; injection H as <-; reflexivity.
Qed.

Lemma generate_food_returns (env : Env) (g : Game.t) (p : Position.t) :
  In p (draws env) -> free_cell g p ->
  exists f, Game.generate_food env g = Ok f.
Proof.
  intros Hin Hfree. apply food_cell_ok_spec in Hfree.
  destruct (generate_food_loop_finds g (draws env) p Hin Hfree) as [q Hq].
  unfold Game.generate_food. rewrite Hq. simpl.
  destruct (Game.roll_lt_005 _); [|destruct (Game.roll_lt_020 _)];
    eexists; reflexivity.
Qed.

(** A returned food was drawn by the random source and lies on a free
    cell; a drawn free cell makes [generate_food] return. *)
Lemma food_source (env : Env) (g : Game.t) (p : Position.t) :
  In p (draws env) -> free_cell g p ->
  exists f, Game.generate_food env g = Ok f
            /\ In (Food.position f) (draws env)
            /\ free_cell g (Food.position f).
Proof.
  intros Hin Hfree.
  destruct (generate_food_returns env g p Hin Hfree) as [f Hf].
  exists f. split; [assumption|].
  apply generate_food_position in Hf.
  apply generate_food_loop_sound in Hf as [Hin' Hok].
  split; [assumption|]. now apply food_cell_ok_spec.
Qed.

(** C6: every food that [generate_food] returns lies on a cell that
    holds no snake segment, no wall and no enemy, and it is one of the
    cells the random source drew; and [generate_food] does return as
    soon as the random source draws such a cell. *)
Theorem C6_food_on_free_cell (env : Env) (g : Game.t) :
  (forall f,
      Game.generate_food env g = Ok f ->
      In (Food.position f) (draws env)
      /\ ~ In (Food.position f) (Snake.body (Game.snake g))
      /\ ~ In (cell (Food.position f)) (Game.walls g)
      /\ (forall e, In e (Game.enemies g) ->
                    Enemy.position e <> Food.position f))
  /\ ((exists p, In p (draws env) /\ free_cell g p) ->
      exists f, Game.generate_food env g = Ok f
                /\ free_cell g (Food.position f)).
Proof.
  assert (Hsound : forall f, Game.generate_food env g = Ok f ->
                             In (Food.position f) (draws env)
                             /\ free_cell g (Food.position f)).
  { intros f Hf. apply generate_food_position in Hf.
    apply generate_food_loop_sound in Hf as [Hin Hok].
    split; [assumption|]. now apply food_cell_ok_spec. }
  split.
  - intros f Hf. destruct (Hsound f Hf) as (Hin & Hb & Hw & He).
    repeat split; assumption.
  - intros (p & Hin & Hfree).
    destruct (generate_food_returns env g p Hin Hfree) as [f Hf].
    exists f. split; [assumption|]. apply (Hsound f Hf).
Qed.

Lemma C6_food_on_free_cell_witness :
  exists f,
    Game.generate_food sample_env sample_game = Ok f
    /\ free_cell sample_game (Food.position f).
Proof.
  apply (proj2 (C6_food_on_free_cell sample_env sample_game)).
  exists (Position.mk 21 15). split.
  - simpl. left. reflexivity.
  - apply food_cell_ok_spec. vm_compute. reflexivity.
Defined.

(** ** Surviving ticks *)

Lemma move_result (s s' : Snake.t) (head : Position.t) (rest : list Position.t) :
  Snake.body s = head :: rest ->
  Snake.move s = Ok s' ->
  Snake.growth_pending s' = false
  /\ Snake.direction s' = Snake.direction s
  /\ length (Snake.body s')
     = (length (Snake.body s) + (if Snake.growth_pending s then 1 else 0))%nat
  /\ exists rest', Snake.body s' = Snake.offset (Snake.direction s) head :: rest'.
Proof.
  intros Hbody. unfold Snake.move. rewrite Hbody.
  destruct (Snake.growth_pending s) eqn:Hg; simpl negb; cbv iota;
    intros H; injection H as <-;
    cbn [Snake.body Snake.growth_pending Snake.direction].
  - repeat split; try reflexivity.
    + simpl. lia.
    + eexists. reflexivity.
  - change (match rest with [] => [] | _ :: _ => head :: removelast rest end)
      with (removelast (head :: rest)).
    repeat split; try reflexivity.
    + cbn [length]. rewrite removelast_cons_length. lia.
    + eexists. reflexivity.
Qed.

Lemma update_survives (env : Env) (g : Game.t) (s' : Snake.t)
      (head : Position.t) (rest : list Position.t) (g1 : Game.t) :
  Snake.move (Game.snake g) = Ok s' ->
  Snake.body s' = head :: rest ->
  Game.check_collision (Game.set_snake s' g) = Ok false ->
  food_phase env head (Game.set_snake s' g) = Ok g1 ->
  Game.update env g = Ok (enemy_phase head (flash_phase env g1)).
Proof.
  intros Hmove Hbody Hcheck Hfood.
  rewrite update_phases, Hmove. simpl. rewrite Hcheck. simpl.
  rewrite Hbody, Hfood. reflexivity.
Qed.

Lemma flash_phase_fields (env : Env) (g : Game.t) :
  Game.snake (flash_phase env g) = Game.snake g
  /\ Game.score (flash_phase env g) = Game.score g
  /\ Game.enemies (flash_phase env g) = Game.enemies g
  /\ Game.walls (flash_phase env g) = Game.walls g
  /\ Game.spawn_enemies (flash_phase env g) = Game.spawn_enemies g
  /\ Game.game_over (flash_phase env g) = Game.game_over g
  /\ Food.position (Game.food (flash_phase env g)) = Food.position (Game.food g)
  /\ Food.value (Game.food (flash_phase env g)) = Food.value (Game.food g).
Proof.
  unfold flash_phase.
  destruct (_ >? _); [destruct (negb _)|]; simpl; repeat split; reflexivity.
Qed.

Lemma enemy_phase_fields (head : Position.t) (g : Game.t) :
  Game.snake (enemy_phase head g) = Game.snake g
  /\ Game.score (enemy_phase head g) = Game.score g
  /\ Game.food (enemy_phase head g) = Game.food g
  /\ Game.walls (enemy_phase head g) = Game.walls g
  /\ Game.enemies (enemy_phase head g)
     = (if Game.spawn_enemies g then moved_enemies head g else Game.enemies g)
  /\ Game.game_over (enemy_phase head g)
     = Game.game_over g
       || (Game.spawn_enemies g
           && any (Game.enemy_on head) (moved_enemies head g)).
Proof.
  unfold enemy_phase.
  destruct (Game.spawn_enemies g); simpl.
  - destruct (any (Game.enemy_on head) (moved_enemies head g));
      [|simpl; rewrite orb_false_r; repeat split; reflexivity].
    destruct (end_game_fields (Game.set_enemies (moved_enemies head g) g))
      as (Hover & Hscore & Hfood & Henemies & Hsnake & Hwalls).
    rewrite Hover, Hscore, Hfood, Henemies, Hsnake, Hwalls, orb_true_r.
    repeat split; reflexivity.
  - rewrite orb_false_r. repeat split; reflexivity.
Qed.

(** C7 as stated fails on the length: in the tick in which the head
    reaches a regular food worth 10 at score 0 without a collision, the
    score becomes 10 but the snake is exactly as long as before. *)
Lemma C7_counterexample :
  exists s' g',
    Snake.move (Game.snake sample_game) = Ok s'
    /\ nth_error (Snake.body s') 0 = Some (Food.position (Game.food sample_game))
    /\ Food.type (Game.food sample_game) = REGULAR
    /\ Food.value (Game.food sample_game) = 10
    /\ Game.score sample_game = 0
    /\ Game.check_collision (Game.set_snake s' sample_game) = Ok false
    /\ Game.update sample_env sample_game = Ok g'
    /\ Game.game_over g' = false
    /\ Game.score g' = 10
    /\ length (Snake.body (Game.snake sample_game)) = 2%nat
    /\ length (Snake.body (Game.snake g')) = 2%nat
    /\ length (Snake.body (Game.snake g'))
       <> S (length (Snake.body (Game.snake sample_game))).
Proof.
  eexists. eexists.
  split; [vm_compute; reflexivity|].
  split; [reflexivity|]. split; [reflexivity|]. split; [reflexivity|].
  split; [reflexivity|]. split; [reflexivity|].
  split; [vm_compute; reflexivity|].
  repeat split; try reflexivity. simpl. discriminate.
Qed.

(** C7 as amended: in a tick in which the head reaches a food worth 10
    at score 0 without hitting the grid edge, a wall or the snake, and
    in which the random source draws a free cell, the score becomes 10,
    growth is left pending, so that the snake has the length [move]
    gave it in this tick and is one cell longer after the next [move];
    the new food lies on no segment of the snake, on no wall and on no
    enemy as they stood when it was drawn, and on no segment behind the
    head of the longer snake. *)
Theorem C7_food_pickup (env : Env) (g : Game.t) (s' : Snake.t)
        (head : Position.t) (rest : list Position.t) :
  Snake.move (Game.snake g) = Ok s' ->
  Snake.body s' = head :: rest ->
  in_grid (Game.grid_width g) (Game.grid_height g) head ->
  ~ In (cell head) (Game.walls g) ->
  ~ In head rest ->
  head = Food.position (Game.food g) ->
  Food.value (Game.food g) = 10 ->
  Game.score g = 0 ->
  (exists p, In p (draws env) /\ free_cell (Game.set_snake s' g) p) ->
  exists g',
    Game.update env g = Ok g'
    /\ Game.score g' = 10
    /\ Snake.body (Game.snake g') = Snake.body s'
    /\ length (Snake.body (Game.snake g'))
       = (length (Snake.body (Game.snake g))
          + (if Snake.growth_pending (Game.snake g) then 1 else 0))%nat
    /\ Snake.growth_pending (Game.snake g') = true
    /\ In (Food.position (Game.food g')) (draws env)
    /\ ~ In (Food.position (Game.food g')) (Snake.body (Game.snake g'))
    /\ ~ In (cell (Food.position (Game.food g'))) (Game.walls g')
    /\ (forall e, In e (Game.enemies g) ->
                  Enemy.position e <> Food.position (Game.food g'))
    /\ exists s'',
        Snake.move (Game.snake g') = Ok s''
        /\ length (Snake.body s'') = S (length (Snake.body (Game.snake g')))
        /\ ~ In (Food.position (Game.food g')) (tl (Snake.body s'')).
Proof.
  intros Hmove Hbody Hgrid Hwall Hself Hfood Hval Hscore (p & Hin & Hfree).
  pose proof (no_collision (Game.set_snake s' g) head rest Hbody Hgrid Hwall Hself)
    as Hcheck.
  set (g0 := Game.set_snake (Snake.grow s')
               (Game.set_score (Game.score g + Food.value (Game.food g))
                               (Game.set_snake s' g))).
  assert (Hfree0 : free_cell g0 p) by exact Hfree.
  destruct (food_source env g0 p Hin Hfree0) as (f & Hf & Hfin & Hffree).
  assert (Hphase : food_phase env head (Game.set_snake s' g)
                   = Ok (Game.set_food f g0)).
  { unfold food_phase. simpl Game.food. rewrite <- Hfood, !Z.eqb_refl. simpl.
    fold g0. rewrite Hf. reflexivity. }
  exists (enemy_phase head (flash_phase env (Game.set_food f g0))).
  split; [exact (update_survives env g s' head rest _ Hmove Hbody Hcheck Hphase)|].
  destruct (enemy_phase_fields head (flash_phase env (Game.set_food f g0)))
    as (Es & Esc & Ef & Ew & _ & _).
  destruct (flash_phase_fields env (Game.set_food f g0))
    as (Fs & Fsc & _ & Fw & _ & _ & Fp & _).
  rewrite Es, Esc, Ef, Ew, Fs, Fsc, Fw, Fp. simpl.
  destruct (Snake.body (Game.snake g)) as [|h0 r0] eqn:Hb0.
  { unfold Snake.move in Hmove. rewrite Hb0 in Hmove. discriminate. }
  destruct (move_result _ _ _ _ Hb0 Hmove) as (_ & _ & Hlen & _).
  rewrite Hb0 in Hlen.
  destruct Hffree as (Hfb & Hfw & Hfe).
  split; [lia|]. split; [reflexivity|]. split; [exact Hlen|].
  split; [reflexivity|]. split; [exact Hfin|].
  split; [exact Hfb|]. split; [exact Hfw|]. split; [exact Hfe|].
  eexists. split.
  - unfold Snake.move. simpl. rewrite Hbody. reflexivity.
  - simpl. rewrite Hbody. split; [reflexivity|]. simpl in Hfb.
    rewrite Hbody in Hfb. exact Hfb.
Qed.

Lemma C7_food_pickup_witness :
  exists g',
    Game.update sample_env sample_game = Ok g'
    /\ Game.score g' = 10
    /\ Snake.growth_pending (Game.snake g') = true.
Proof.
  destruct (C7_food_pickup sample_env sample_game
              (Snake.mk [Position.mk 21 15; Position.mk 20 15] RIGHT false)
              (Position.mk 21 15) [Position.mk 20 15] eq_refl eq_refl)
    as (g' & Hup & Hscore & _ & _ & Hgrow & _).
  - unfold in_grid. simpl. lia.
  - simpl. tauto.
  - simpl. intros [H | []]. discriminate H.
  - reflexivity.
  - reflexivity.
  - reflexivity.
  - exists (Position.mk 7 3). split.
    + simpl. right. left. reflexivity.
    + apply food_cell_ok_spec. vm_compute. reflexivity.
  - exists g'. repeat split; assumption.
Defined.

Lemma food_phase_fields (env : Env) (head : Position.t) (g g1 : Game.t) :
  food_phase env head g = Ok g1 ->
  Snake.body (Game.snake g1) = Snake.body (Game.snake g)
  /\ Game.enemies g1 = Game.enemies g
  /\ Game.walls g1 = Game.walls g
  /\ Game.spawn_enemies g1 = Game.spawn_enemies g
  /\ Game.game_over g1 = Game.game_over g.
Proof.
  unfold food_phase. destruct (_ && _).
  - cbv zeta. destruct (Game.generate_food env _) as [f| |];
      simpl; try discriminate.
    intros H. injection H as <-. repeat split; reflexivity.
  - intros H. injection H as <-. repeat split; reflexivity.
Qed.

Lemma food_phase_returns (env : Env) (head : Position.t) (g : Game.t) :
  (head = Food.position (Game.food g) ->
   exists p, In p (draws env) /\ free_cell g p) ->
  exists g1, food_phase env head g = Ok g1.
Proof.
  intros Hdraw. unfold food_phase.
  destruct (_ && _) eqn:Heq; [|eexists; reflexivity].
  apply andb_true_iff in Heq as [Hx Hy]. apply Z.eqb_eq in Hx, Hy.
  destruct (Hdraw (position_eta _ _ Hx Hy)) as (p & Hin & Hfree).
  cbv zeta.
  match goal with
  | |- context [Game.generate_food env ?g0] =>
      destruct (generate_food_returns env g0 p Hin Hfree) as [f Hf];
      rewrite Hf
  end.
  eexists. reflexivity.
Qed.

(** C10: in a tick without a collision against the grid edge, a wall or
    the snake itself, the enemies first move and only then is the head
    compared with their positions: the terminal flag after the tick is
    set exactly when enemies are switched on and one of the moved
    enemies is on the head's cell; so the game stays on whenever no
    moved enemy is on that cell, wherever the enemies stood when the
    tick began. *)
Theorem C10_enemy_check_after_move (env : Env) (g : Game.t) (s' : Snake.t)
        (head : Position.t) (rest : list Position.t) :
  Game.game_over g = false ->
  Snake.move (Game.snake g) = Ok s' ->
  Snake.body s' = head :: rest ->
  in_grid (Game.grid_width g) (Game.grid_height g) head ->
  ~ In (cell head) (Game.walls g) ->
  ~ In head rest ->
  (head = Food.position (Game.food g) ->
   exists p, In p (draws env) /\ free_cell (Game.set_snake s' g) p) ->
  let enemies' :=
    map (fun e => Enemy.move_towards_snake e head (Snake.body s'))
        (Game.enemies g) in
  exists g',
    Game.update env g = Ok g'
    /\ Game.enemies g'
       = (if Game.spawn_enemies g then enemies' else Game.enemies g)
    /\ Game.game_over g'
       = Game.spawn_enemies g && any (Game.enemy_on head) enemies'
    /\ ((forall e, In e enemies' -> Enemy.position e <> head) ->
        Game.game_over g' = false).
Proof.
  intros Hrun Hmove Hbody Hgrid Hwall Hself Hdraw enemies'.
  pose proof (no_collision (Game.set_snake s' g) head rest Hbody Hgrid Hwall Hself)
    as Hcheck.
  destruct (food_phase_returns env head (Game.set_snake s' g) Hdraw)
    as [g1 Hphase].
  exists (enemy_phase head (flash_phase env g1)).
  split; [exact (update_survives env g s' head rest g1 Hmove Hbody Hcheck Hphase)|].
  destruct (food_phase_fields env head _ g1 Hphase)
    as (Pb & Pe & _ & Psp & Pover).
  destruct (flash_phase_fields env g1) as (Fs & _ & Fe & _ & Fsp & Fover & _).
  destruct (enemy_phase_fields head (flash_phase env g1))
    as (_ & _ & _ & _ & Ee & Eover).
  assert (Hmoved : moved_enemies head (flash_phase env g1) = enemies').
  { unfold moved_enemies. rewrite Fs, Fe, Pb, Pe. reflexivity. }
  rewrite Hmoved in Ee, Eover.
  rewrite Fsp, Psp in Ee, Eover. rewrite Fover, Pover in Eover.
  rewrite Fe, Pe in Ee.
  simpl in Ee, Eover. rewrite Hrun in Eover. simpl in Eover.
  split; [exact Ee|]. split; [exact Eover|].
  intros Hnone. rewrite Eover.
  destruct (Game.spawn_enemies g); [simpl|reflexivity].
  destruct (any (Game.enemy_on head) enemies') eqn:Hany; [|reflexivity].
  exfalso. unfold any in Hany. apply existsb_exists in Hany as (e & Hin & Hon).
  apply (Hnone e Hin). unfold Game.enemy_on in Hon.
  apply andb_true_iff in Hon as [Hx Hy]. apply Z.eqb_eq in Hx, Hy.
  apply position_eta; congruence.
Qed.

Lemma C10_enemy_check_after_move_witness :
  Enemy.position (hd sample_enemy (Game.enemies chase_game)) = Position.mk 21 15
  /\ exists g',
      Game.update sample_env chase_game = Ok g'
      /\ Snake.body (Game.snake g') = [Position.mk 21 15; Position.mk 20 15]
      /\ map Enemy.position (Game.enemies g') = [Position.mk 21 14]
      /\ Game.game_over g' = false.
Proof.
  split; [reflexivity|].
  destruct (C10_enemy_check_after_move sample_env chase_game
              (Snake.mk [Position.mk 21 15; Position.mk 20 15] RIGHT false)
              (Position.mk 21 15) [Position.mk 20 15] eq_refl eq_refl eq_refl)
    as (g' & Hup & Henemies & _ & Hover).
  - unfold in_grid. simpl. lia.
  - simpl. tauto.
  - simpl. intros [H | []]. discriminate H.
  - intros H. discriminate H.
  - exists g'. split; [exact Hup|].
    split; [|split].
    + assert (H : Game.update sample_env chase_game
                  = Ok (Game.mk 40 30 0 0 EASY BASIC [] 
                          [Enemy.mk (Position.mk 21 14) 40 30 [] 2 2]
                          1 true
                          (Snake.mk [Position.mk 21 15; Position.mk 20 15]
                                    RIGHT false)
                          (Food.mk (Position.mk 5 5) REGULAR GREEN 10 0 false)
                          false 0 500 None))
        by (vm_compute; reflexivity).
      rewrite H in Hup. injection Hup as <-. reflexivity.
    + rewrite Henemies. reflexivity.
    + apply Hover. simpl. intros e [<- | []]. vm_compute. discriminate.
Defined.

(** ** The obstacle set *)

Lemma maze_walls_bounds :
  Forall (fun w : Wall => 5 <= fst w <= 35 /\ 5 <= snd w <= 25)
         (Game.MAP_LAYOUTS MAZE).
Proof.
  apply Forall_forall. intros w Hin.
  assert (Hall : forallb (fun w : Wall =>
                            (5 <=? fst w) && (fst w <=? 35)
                            && (5 <=? snd w) && (snd w <=? 25))
                         (Game.MAP_LAYOUTS MAZE) = true)
    by (vm_compute; reflexivity).
  rewrite forallb_forall in Hall. specialize (Hall w Hin).
  rewrite !andb_true_iff, !Z.leb_le in Hall. lia.
Qed.

Lemma move_towards_snake_grid (e : Enemy.t) (head : Position.t)
      (snake_body : list Position.t) :
  Enemy.walls (Enemy.move_towards_snake e head snake_body) = Enemy.walls e
  /\ Enemy.grid_width (Enemy.move_towards_snake e head snake_body)
     = Enemy.grid_width e
  /\ Enemy.grid_height (Enemy.move_towards_snake e head snake_body)
     = Enemy.grid_height e.
Proof.
  unfold Enemy.move_towards_snake.
  destruct (_ >? _); [repeat split; reflexivity|].
  destruct (Enemy.get_valid_moves e snake_body); repeat split; reflexivity.
Qed.

Lemma handle_events_walls (evs : list Event) :
  forall g g1, Game.handle_events evs g = Ok g1 -> Game.walls g1 = Game.walls g.
Proof.
  induction evs as [|ev evs IH]; intros g g1; simpl.
  - intros H. injection H as <-. reflexivity.
  - destruct ev as [|key|]; [discriminate| |].
    + intros H. apply IH in H. exact H.
    + apply IH.
Qed.

Lemma update_walls (env : Env) (g g1 : Game.t) :
  Game.update env g = Ok g1 -> Game.walls g1 = Game.walls g.
Proof.
  rewrite update_phases.
  destruct (Snake.move (Game.snake g)) as [s| |]; simpl; try discriminate.
  destruct (Game.check_collision (Game.set_snake s g)) as [[|]| |];
    simpl; try discriminate.
  - intros H. injection H as <-.
    destruct (end_game_fields (Game.set_snake s g)) as (_ & _ & _ & _ & _ & Hw).
    exact Hw.
  - destruct (Snake.body s) as [|head rest]; [discriminate|].
    destruct (food_phase env head (Game.set_snake s g)) as [g2| |] eqn:Hphase;
      simpl; try discriminate.
    intros H. injection H as <-.
    destruct (food_phase_fields env head _ g2 Hphase) as (_ & _ & Pw & _).
    destruct (flash_phase_fields env g2) as (_ & _ & _ & Fw & _).
    destruct (enemy_phase_fields head (flash_phase env g2)) as (_ & _ & _ & Ew & _).
    rewrite Ew, Fw, Pw. reflexivity.
Qed.

Lemma run_loop_walls (ticks : list Env) :
  forall g g1, Game.run_loop ticks g = Ok g1 -> Game.walls g1 = Game.walls g.
Proof.
  induction ticks as [|env ticks IH]; intros g g1; simpl.
  - destruct (Game.game_over g); [|discriminate].
    intros H. injection H as <-. reflexivity.
  - destruct (Game.game_over g).
    + intros H. injection H as <-. reflexivity.
    + destruct (Game.handle_events (events env) g) as [g2| |] eqn:Hev;
        simpl; try discriminate.
      destruct (Game.update env g2) as [g3| |] eqn:Hup; simpl; try discriminate.
      intros H. apply IH in H. apply update_walls in Hup.
      apply handle_events_walls in Hev. congruence.
Qed.

Lemma init_grid (file : option Z) (env : Env) (width height : Z) (g : Game.t) :
  Game.init file env width height = Ok g ->
  Game.grid_width g = width / 20 /\ Game.grid_height g = height / 20.
Proof.
  unfold Game.init. cbv zeta.
  destruct (Game.generate_food env _) as [f| |]; simpl; try discriminate.
  intros H. injection H as <-. split; reflexivity.
Qed.

(** C9 as amended: a game built for a window of [width] by [height]
    pixels and configured with a layout has that layout as its obstacle
    set on a grid of [width / 20] by [height / 20] cells; every obstacle
    lies inside the grid when the layout is the basic one or the grid is
    at least 36 cells wide and 26 cells high; and neither
    [handle_events], nor [update], nor the whole main loop, nor a move of
    an enemy changes the obstacle set. *)
Theorem C9_obstacles_in_grid (file : option Z) (env : Env) (width height : Z)
        (d : Difficulty) (m : MapStyle) (spawn : bool) (count : Z)
        (g0 : Game.t) :
  Game.init file env width height = Ok g0 ->
  let g := Game.configure d m spawn count g0 in
  Game.grid_width g = width / 20
  /\ Game.grid_height g = height / 20
  /\ Game.walls g = Game.MAP_LAYOUTS m
  /\ (m = BASIC \/ (36 <= width / 20 /\ 26 <= height / 20) ->
      Forall (wall_in_grid (Game.grid_width g) (Game.grid_height g))
             (Game.walls g))
  /\ (forall evs g1,
        Game.handle_events evs g = Ok g1 -> Game.walls g1 = Game.walls g)
  /\ (forall env1 g1,
        Game.update env1 g = Ok g1 -> Game.walls g1 = Game.walls g)
  /\ (forall ticks g1,
        Game.run_loop ticks g = Ok g1 -> Game.walls g1 = Game.walls g)
  /\ (forall e head snake_body,
        Enemy.walls (Enemy.move_towards_snake e head snake_body)
        = Enemy.walls e).
Proof.
  intros Hinit g.
  destruct (init_grid file env width height g0 Hinit) as [Hw Hh].
  assert (Hgw : Game.grid_width g = width / 20) by exact Hw.
  assert (Hgh : Game.grid_height g = height / 20) by exact Hh.
  assert (Hwalls : Game.walls g = Game.MAP_LAYOUTS m) by reflexivity.
  split; [exact Hgw|]. split; [exact Hgh|]. split; [exact Hwalls|].
  split; [|split; [|split; [|split]]].
  - rewrite Hgw, Hgh, Hwalls. intros [-> | [Hwide Hhigh]].
    + constructor.
    + destruct m; [constructor|].
      eapply Forall_impl; [|exact maze_walls_bounds].
      intros w Hb. unfold wall_in_grid. cbv beta in Hb. lia.
  - intros evs g1. apply handle_events_walls.
  - intros env1 g1. apply update_walls.
  - intros ticks g1. apply run_loop_walls.
  - intros e head snake_body. apply move_towards_snake_grid.
Qed.

Lemma C9_obstacles_in_grid_witness :
  exists g0,
    Game.init None sample_env 800 600 = Ok g0
    /\ Forall (wall_in_grid 40 30)
              (Game.walls (Game.configure EASY MAZE false 0 g0)).
Proof.
  eexists. split; [vm_compute; reflexivity|].
  refine (proj1 (proj2 (proj2 (proj2
            (C9_obstacles_in_grid None sample_env 800 600 EASY MAZE false 0 _
               eq_refl)))) _).
  right. vm_compute. split; discriminate.
Defined.

(** C9 as stated fails for small grids: a game built for a window of
    400 by 300 pixels has a grid of 20 by 15 cells, and the maze layout
    then has the obstacle (35, 5) outside it. *)
Lemma C9_counterexample :
  exists g0,
    Game.init None small_env 400 300 = Ok g0
    /\ Game.grid_width (Game.configure EASY MAZE false 0 g0) = 20
    /\ Game.grid_height (Game.configure EASY MAZE false 0 g0) = 15
    /\ In (35, 5) (Game.walls (Game.configure EASY MAZE false 0 g0))
    /\ ~ wall_in_grid 20 15 (35, 5)
    /\ ~ Forall (wall_in_grid
                   (Game.grid_width (Game.configure EASY MAZE false 0 g0))
                   (Game.grid_height (Game.configure EASY MAZE false 0 g0)))
                (Game.walls (Game.configure EASY MAZE false 0 g0)).
Proof.
  eexists. split; [vm_compute; reflexivity|].
  assert (Hin : In (35, 5) (Game.MAP_LAYOUTS MAZE)).
  { apply (any_wall_In (Position.mk 35 5)). vm_compute. reflexivity. }
  assert (Hout : ~ wall_in_grid 20 15 (35, 5)).
  { unfold wall_in_grid. simpl. lia. }
  split; [reflexivity|]. split; [reflexivity|].
  split; [exact Hin|]. split; [exact Hout|].
  intros Hall. rewrite Forall_forall in Hall. exact (Hout (Hall _ Hin)).
Qed.

(** The head is a legal target: an enemy next to the head steps onto it. *)
Example enemy_may_step_on_head :
  Enemy.position
    (Enemy.move_towards_snake
       (Enemy.init (Position.mk 21 15) 40 30 (Game.MAP_LAYOUTS BASIC))
       sample_head (Snake.body sample_snake))
  = sample_head.
Proof. reflexivity. Qed.

(** The three-tick scenario of the specification: from (20,15) heading
    right on the basic layout, three ticks without food on the way leave
    the head at (23,15), the length at 2 and the game on. *)
Example three_ticks_right :
  exists g,
    Game.run_loop [small_env; small_env; small_env]
                  (Game.set_food (Food.mk (Position.mk 5 5) REGULAR GREEN 10 0 false)
                                 sample_game)
    = Looping
    /\ (g1 <- Game.update small_env
                (Game.set_food (Food.mk (Position.mk 5 5) REGULAR GREEN 10 0 false)
                               sample_game) ;;
        g2 <- Game.update small_env g1 ;;
        Game.update small_env g2) = Ok g
    /\ Snake.body (Game.snake g) = [Position.mk 23 15; Position.mk 22 15]
    /\ Game.game_over g = false.
Proof.
  eexists. split; [vm_compute; reflexivity|].
  split; [vm_compute; reflexivity|]. split; reflexivity.
Qed.

(** ** Further properties of the engine *)

(** X1: [Position.__eq__] holds exactly for equal coordinates, and
    [distance_to] is the Manhattan metric: zero exactly between equal
    positions, symmetric, and subject to the triangle inequality. *)
Theorem X1_position_metric (a b c : Position.t) :
  (Position.eqb a b = true <-> a = b)
  /\ (Position.distance_to a b = 0 <-> a = b)
  /\ Position.distance_to a b = Position.distance_to b a
  /\ Position.distance_to a c
     <= Position.distance_to a b + Position.distance_to b c.
Proof.
  unfold Position.eqb, Position.distance_to.
  split; [|split; [|split]].
  - rewrite andb_true_iff, !Z.eqb_eq. split.
    + intros [Hx Hy]. now apply position_eta.
    + intros ->. split; reflexivity.
  - split.
    + intros H. apply position_eta; lia.
    + intros ->. lia.
  - lia.
  - lia.
Qed.

Lemma handle_events_snake (evs : list Event) :
  forall g g1,
    Game.handle_events evs g = Ok g1 ->
    exists d, g1 = Game.set_snake (Snake.set_direction d (Game.snake g)) g.
Proof.
  induction evs as [|ev evs IH]; intros g g1; simpl.
  - intros H. injection H as <-. exists (Snake.direction (Game.snake g)).
    destruct g as [? ? ? ? ? ? ? ? ? ? [? ? ?] ? ? ? ? ?]. reflexivity.
  - destruct ev as [|key|]; [discriminate| |].
    + intros H. apply IH in H as [d ->]. exists d. reflexivity.
    + apply IH.
Qed.

Lemma update_body_length (env : Env) (g g' : Game.t) :
  Game.update env g = Ok g' ->
  length (Snake.body (Game.snake g'))
  = (length (Snake.body (Game.snake g))
     + (if Snake.growth_pending (Game.snake g) then 1 else 0))%nat.
Proof.
  rewrite update_phases.
  destruct (Snake.body (Game.snake g)) as [|h0 r0] eqn:Hb0.
  { unfold Snake.move. rewrite Hb0. discriminate. }
  destruct (Snake.move (Game.snake g)) as [s| |] eqn:Hmove;
    simpl; try discriminate.
  destruct (move_result _ _ _ _ Hb0 Hmove) as (_ & _ & Hlen & _).
  rewrite Hb0 in Hlen.
  destruct (Game.check_collision (Game.set_snake s g)) as [[|]| |];
    simpl; try discriminate.
  - intros H. injection H as <-.
    destruct (end_game_fields (Game.set_snake s g)) as (_ & _ & _ & _ & Hs & _).
    rewrite Hs. exact Hlen.
  - destruct (Snake.body s) as [|head rest] eqn:Hbs; [discriminate|].
    destruct (food_phase env head (Game.set_snake s g)) as [g2| |] eqn:Hphase;
      simpl; try discriminate.
    intros H. injection H as <-.
    destruct (food_phase_fields env head _ g2 Hphase) as (Pb & _).
    destruct (flash_phase_fields env g2) as (Fs & _).
    destruct (enemy_phase_fields head (flash_phase env g2)) as (Es & _).
    rewrite Es, Fs, Pb. simpl. rewrite Hbs. exact Hlen.
Qed.

(** X2: over a whole run of the main loop the snake never gets shorter
    and gains at most one cell per tick. *)
Theorem X2_snake_never_shrinks (ticks : list Env) :
  forall g g',
    Game.run_loop ticks g = Ok g' ->
    (length (Snake.body (Game.snake g))
     <= length (Snake.body (Game.snake g')))%nat
    /\ (length (Snake.body (Game.snake g'))
        <= length (Snake.body (Game.snake g)) + length ticks)%nat.
Proof.
  induction ticks as [|env ticks IH]; intros g g'; simpl.
  - destruct (Game.game_over g); [|discriminate].
    intros H. injection H as <-. lia.
  - destruct (Game.game_over g).
    + intros H. injection H as <-. lia.
    + destruct (Game.handle_events (events env) g) as [g1| |] eqn:Hev;
        simpl; try discriminate.
      destruct (Game.update env g1) as [g2| |] eqn:Hup; simpl; try discriminate.
      intros H. apply IH in H.
      apply update_body_length in Hup.
      apply handle_events_snake in Hev as [d ->].
      simpl in Hup.
      destruct (Snake.growth_pending (Game.snake g)); lia.
Qed.

Lemma X2_snake_never_shrinks_witness :
  exists g',
    Game.run_loop [sample_env] maze_game = Ok g'
    /\ (2 <= length (Snake.body (Game.snake g')) <= 3)%nat.
Proof.
  eexists. split; [vm_compute; reflexivity|].
  apply (X2_snake_never_shrinks [sample_env] maze_game).
  vm_compute. reflexivity.
Defined.

(** ** Food kinds, score and high score *)

(** X3: the kind of a generated food is decided by the roll [k / 2^53]
    alone: Super (30 points, purple) for the 450359962737050 smallest
    rolls, Bonus (20, orange) for the next 1351079888211149, Regular
    (10, green) for all others; it is stamped with the clock reading
    and starts unflashed. *)
Theorem X3_food_kind_by_roll (env : Env) (g : Game.t) (f : Food.t) :
  Game.generate_food env g = Ok f ->
  Food.flash_state f = false
  /\ Food.spawn_time f = spawn_ticks env
  /\ ((food_type_roll env < 450359962737050
       /\ Food.type f = SUPER /\ Food.value f = 30 /\ Food.color f = PURPLE)
      \/ (450359962737050 <= food_type_roll env < 1801439850948199
          /\ Food.type f = BONUS /\ Food.value f = 20 /\ Food.color f = ORANGE)
      \/ (1801439850948199 <= food_type_roll env
          /\ Food.type f = REGULAR /\ Food.value f = 10 /\ Food.color f = GREEN)).
Proof.
  unfold Game.generate_food, Game.roll_lt_005, Game.roll_lt_020.
  destruct (Game.generate_food_loop g (draws env)) as [p| |];
    cbn [bind]; try discriminate.
  destruct (Z.ltb_spec (8 * food_type_roll env) 3602879701896397);
    [|destruct (Z.ltb_spec (2 * food_type_roll env) 3602879701896397)];
    intros Hf; injection Hf as <-; simpl;
    (split; [reflexivity|]; split; [reflexivity|]).
  - left. repeat split; try reflexivity. lia.
  - right. left. repeat split; try reflexivity; lia.
  - right. right. repeat split; try reflexivity. lia.
Qed.

Lemma X3_food_kind_by_roll_witness :
  exists f,
    Game.generate_food sample_env sample_game = Ok f
    /\ Food.flash_state f = false.
Proof.
  eexists. split; [vm_compute; reflexivity|].
  apply (X3_food_kind_by_roll sample_env sample_game).
  vm_compute. reflexivity.
Defined.

Lemma generate_food_value (env : Env) (g : Game.t) (f : Food.t) :
  Game.generate_food env g = Ok f -> 10 <= Food.value f <= 30.
Proof.
  unfold Game.generate_food.
  destruct (Game.generate_food_loop g (draws env)) as [p| |];
    simpl; try discriminate.
  destruct (Game.roll_lt_005 _); [|destruct (Game.roll_lt_020 _)];
    intros Hf; injection Hf as <-; simpl; lia.
Qed.

Lemma end_game_record (g : Game.t) :
  Game.high_score (Game.end_game g) = Z.max (Game.score g) (Game.high_score g)
  /\ Game.highscore_file (Game.end_game g)
     = (if Game.score g >? Game.high_score g
        then Some (Game.score g) else Game.highscore_file g).
Proof.
  unfold Game.end_game. simpl.
  destruct (Z.gtb_spec (Game.score g) (Game.high_score g)); simpl;
    split; try reflexivity; lia.
Qed.

(** What a tick does to the score, the food value, the terminal flag
    and the record, read off the three phases of [update]. *)
Lemma update_accounts (env : Env) (g g' : Game.t) :
  Game.update env g = Ok g' ->
  (Game.score g' = Game.score g
   \/ (Game.score g' = Game.score g + Food.value (Game.food g)
       /\ 10 <= Food.value (Game.food g') <= 30))
  /\ (Game.score g' = Game.score g ->
      Food.value (Game.food g') = Food.value (Game.food g)
      \/ 10 <= Food.value (Game.food g') <= 30)
  /\ ((Game.game_over g' = Game.game_over g
       /\ Game.high_score g' = Game.high_score g
       /\ Game.highscore_file g' = Game.highscore_file g)
      \/ (Game.game_over g' = true
          /\ Game.high_score g' = Z.max (Game.score g') (Game.high_score g)
          /\ Game.highscore_file g'
             = (if Game.score g' >? Game.high_score g
                then Some (Game.score g') else Game.highscore_file g))).
Proof.
  rewrite update_phases.
  destruct (Snake.move (Game.snake g)) as [s| |]; simpl; try discriminate.
  destruct (Game.check_collision (Game.set_snake s g)) as [[|]| |];
    simpl; try discriminate.
  - intros H. injection H as <-.
    destruct (end_game_fields (Game.set_snake s g)) as (Ho & Hs & Hf & _).
    destruct (end_game_record (Game.set_snake s g)) as (Hh & Hfile).
    rewrite Hs, Hf. split; [now left|]. split; [now left|].
    right. rewrite Ho, Hh, Hfile. repeat split.
  - destruct (Snake.body s) as [|head rest]; [discriminate|].
    destruct (food_phase env head (Game.set_snake s g)) as [g2| |] eqn:Hphase;
      simpl; try discriminate.
    intros H. injection H as <-.
    assert (Hfood :
              (Game.score g2 = Game.score g
               /\ Food.value (Game.food g2) = Food.value (Game.food g)
               \/ Game.score g2 = Game.score g + Food.value (Game.food g)
                  /\ 10 <= Food.value (Game.food g2) <= 30)
              /\ Game.game_over g2 = Game.game_over g
              /\ Game.high_score g2 = Game.high_score g
              /\ Game.highscore_file g2 = Game.highscore_file g).
    { unfold food_phase in Hphase. destruct (_ && _).
      - cbv zeta in Hphase.
        destruct (Game.generate_food env _) as [f| |] eqn:Hf;
          simpl in Hphase; try discriminate.
        injection Hphase as <-. simpl. split; [|repeat split].
        right. split; [reflexivity|]. exact (generate_food_value _ _ _ Hf).
      - injection Hphase as <-. simpl. split; [|repeat split].
        left. split; reflexivity. }
    destruct Hfood as (Hsc & Hover & Hhigh & Hfile).
    assert (Hflash :
              Game.score (flash_phase env g2) = Game.score g2
              /\ Food.value (Game.food (flash_phase env g2))
                 = Food.value (Game.food g2)
              /\ Game.game_over (flash_phase env g2) = Game.game_over g2
              /\ Game.high_score (flash_phase env g2) = Game.high_score g2
              /\ Game.highscore_file (flash_phase env g2)
                 = Game.highscore_file g2).
    { unfold flash_phase.
      destruct (_ >? _); [destruct (negb _)|]; simpl; repeat split. }
    destruct Hflash as (Fsc & Fval & Fover & Fhigh & Ffile).
    set (g3 := flash_phase env g2) in *.
    destruct (enemy_phase_fields head g3) as (_ & Esc & Ef & _).
    rewrite Esc, Ef, Fsc, Fval.
    split; [|split].
    + destruct Hsc as [[H1 H2] | [H1 H2]]; [left | right]; auto.
    + intros _. destruct Hsc as [[H1 H2] | [H1 H2]]; [left | right]; auto.
    + unfold enemy_phase.
      destruct (Game.spawn_enemies g3); [|left; repeat split; congruence].
      cbv zeta.
      destruct (any (Game.enemy_on head) _).
      * right.
        destruct (end_game_fields (Game.set_enemies (moved_enemies head g3) g3))
          as (Ho & _).
        destruct (end_game_record (Game.set_enemies (moved_enemies head g3) g3))
          as (Hh & Hfl).
        rewrite Ho, Hh, Hfl. simpl.
        rewrite Fsc, Fhigh, Ffile, Hhigh, Hfile. repeat split.
      * left. simpl. repeat split; congruence.
Qed.

(** X4: over a whole run of the main loop the score never goes down,
    provided the food on the board is worth a non-negative amount (every
    generated food is worth 10, 20 or 30). *)
Theorem X4_score_never_decreases (ticks : list Env) :
  forall g g',
    0 <= Food.value (Game.food g) ->
    Game.run_loop ticks g = Ok g' ->
    Game.score g <= Game.score g'.
Proof.
  induction ticks as [|env ticks IH]; intros g g' Hval; simpl.
  - destruct (Game.game_over g); [|discriminate].
    intros H. injection H as <-. lia.
  - destruct (Game.game_over g).
    + intros H. injection H as <-. lia.
    + destruct (Game.handle_events (events env) g) as [g1| |] eqn:Hev;
        simpl; try discriminate.
      destruct (Game.update env g1) as [g2| |] eqn:Hup; simpl; try discriminate.
      intros H.
      apply handle_events_snake in Hev as [d ->].
      destruct (update_accounts env _ g2 Hup) as (Hsc & Hv & _).
      simpl in Hsc, Hv.
      assert (Hval2 : 0 <= Food.value (Game.food g2)).
      { destruct Hsc as [Hsame | [_ Hnew]]; [|lia].
        destruct (Hv Hsame) as [-> | Hnew]; lia. }
      specialize (IH g2 g' Hval2 H). destruct Hsc as [? | [? _]]; lia.
Qed.

Lemma X4_score_never_decreases_witness :
  exists g',
    Game.run_loop [sample_env] maze_game = Ok g' /\ 30 <= Game.score g'.
Proof.
  eexists. split; [vm_compute; reflexivity|].
  apply (X4_score_never_decreases [sample_env] maze_game).
  - simpl. lia.
  - vm_compute. reflexivity.
Defined.

Lemma init_fields (file : option Z) (env : Env) (width height : Z) (g : Game.t) :
  Game.init file env width height = Ok g ->
  Game.game_over g = false
  /\ Game.score g = 0
  /\ Game.high_score g = Game.load_high_score file
  /\ Game.highscore_file g = file
  /\ Game.walls g = []
  /\ Game.enemies g = []
  /\ Game.snake g
     = Snake.init (Position.mk (width / 20 / 2) (height / 20 / 2))
  /\ In (Food.position (Game.food g)) (draws env)
  /\ ~ In (Food.position (Game.food g)) (Snake.body (Game.snake g)).
Proof.
  unfold Game.init. cbv zeta.
  destruct (Game.generate_food env _) as [f| |] eqn:Hf; simpl; try discriminate.
  intros H. injection H as <-. simpl.
  repeat split.
  - apply generate_food_position in Hf.
    apply generate_food_loop_sound in Hf. apply Hf.
  - apply generate_food_position in Hf.
    apply generate_food_loop_sound in Hf as [_ Hok].
    apply food_cell_ok_spec in Hok. apply Hok.
Qed.

Lemma run_loop_record (ticks : list Env) :
  forall g g',
    Game.game_over g = false ->
    Game.run_loop ticks g = Ok g' ->
    Game.game_over g' = true
    /\ Game.high_score g' = Z.max (Game.score g') (Game.high_score g)
    /\ Game.highscore_file g'
       = (if Game.score g' >? Game.high_score g
          then Some (Game.score g') else Game.highscore_file g).
Proof.
  induction ticks as [|env ticks IH]; intros g g' Hrun; simpl; rewrite Hrun;
    [discriminate|].
  destruct (Game.handle_events (events env) g) as [g1| |] eqn:Hev;
    simpl; try discriminate.
  destruct (Game.update env g1) as [g2| |] eqn:Hup; simpl; try discriminate.
  apply handle_events_snake in Hev as [d ->].
  destruct (update_accounts env _ g2 Hup) as (_ & _ & Hrec). simpl in Hrec.
  destruct Hrec as [(Hover & Hhigh & Hfile) | (Hover & Hhigh & Hfile)].
  - intros H. rewrite Hrun in Hover.
    destruct (IH g2 g' Hover H) as (Ho & Hh & Hf).
    rewrite Hhigh, Hfile in *. repeat split; assumption.
  - intros H.
    assert (Hstop : Game.run_loop ticks g2 = Ok g2).
    { destruct ticks; simpl; rewrite Hover; reflexivity. }
    rewrite Hstop in H. injection H as <-. repeat split; assumption.
Qed.

(** X5: when the main loop of a freshly built and configured game
    returns, the game is over and its high score is the larger of the
    final score and the number read from the file at start-up.  The file
    is rewritten, with the final score, exactly when that score is
    greater than the number read at start-up, and is otherwise left as
    it was (a missing file stays missing); either way the number read
    back from it is the game's high score. *)
Theorem X5_high_score_persisted (file : option Z) (env : Env)
        (width height : Z) (d : Difficulty) (m : MapStyle) (spawn : bool)
        (count : Z) (ticks : list Env) (g0 g' : Game.t) :
  Game.init file env width height = Ok g0 ->
  Game.run_loop ticks (Game.configure d m spawn count g0) = Ok g' ->
  Game.game_over g' = true
  /\ Game.high_score g' = Z.max (Game.score g') (Game.load_high_score file)
  /\ Game.highscore_file g'
     = (if Game.score g' >? Game.load_high_score file
        then Some (Game.score g') else file)
  /\ Game.load_high_score (Game.highscore_file g') = Game.high_score g'.
Proof.
  intros Hinit Hrun.
  destruct (init_fields _ _ _ _ _ Hinit) as (Hover & _ & Hhigh & Hfile & _).
  destruct (run_loop_record ticks (Game.configure d m spawn count g0) g'
              Hover Hrun) as (Ho & Hh & Hf).
  simpl in Hh, Hf. rewrite Hhigh in Hh, Hf. rewrite Hfile in Hf.
  split; [exact Ho|]. split; [exact Hh|]. split; [exact Hf|].
  rewrite Hf, Hh.
  destruct (Z.gtb_spec (Game.score g') (Game.load_high_score file)); simpl; lia.
Qed.

Lemma X5_high_score_persisted_witness :
  exists g0 g',
    Game.init (Some 5) sample_env 800 600 = Ok g0
    /\ Game.run_loop record_ticks (Game.configure EASY BASIC false 0 g0) = Ok g'
    /\ Game.highscore_file g'
       = (if Game.score g' >? 5 then Some (Game.score g') else Some 5).
Proof.
  assert (Hinit : exists g0, Game.init (Some 5) sample_env 800 600 = Ok g0)
    by (eexists; vm_compute; reflexivity).
  destruct Hinit as [g0 Hinit].
  assert (Hrun : exists g',
             (g0 <- Game.init (Some 5) sample_env 800 600 ;;
              Game.run_loop record_ticks (Game.configure EASY BASIC false 0 g0))
             = Ok g')
    by (eexists; vm_compute; reflexivity).
  destruct Hrun as [g' Hrun]. rewrite Hinit in Hrun. cbn [bind] in Hrun.
  exists g0, g'. split; [exact Hinit|]. split; [exact Hrun|].
  exact (proj1 (proj2 (proj2
           (X5_high_score_persisted (Some 5) sample_env 800 600 EASY
              BASIC false 0 record_ticks g0 g' Hinit Hrun)))).
Defined.

(** ** Key events *)

(** X6: [handle_events] ends the process exactly when a QUIT event is
    queued; otherwise it returns the game with nothing changed except,
    possibly, the heading of the snake. *)
Theorem X6_handle_events_only_turns (evs : list Event) (g : Game.t) :
  (In QUIT evs -> Game.handle_events evs g = Raise SystemExit)
  /\ (~ In QUIT evs ->
      exists d,
        Game.handle_events evs g
        = Ok (Game.set_snake (Snake.set_direction d (Game.snake g)) g)).
Proof.
  revert g. induction evs as [|ev evs IH]; intros g; simpl.
  - split; [contradiction|]. intros _.
    exists (Snake.direction (Game.snake g)).
    destruct g as [? ? ? ? ? ? ? ? ? ? [? ? ?] ? ? ? ? ?]. reflexivity.
  - destruct ev as [|key|].
    + split; [reflexivity|]. intros H. exfalso. apply H. now left.
    + split.
      * intros [H | H]; [discriminate|]. now apply IH.
      * intros H.
        destruct (proj2 (IH (Game.set_snake
                               (Snake.set_direction
                                  (Game.on_keydown key
                                     (Snake.direction (Game.snake g)))
                                  (Game.snake g)) g))) as [d Hd].
        { intros Hin. apply H. now right. }
        exists d. rewrite Hd. reflexivity.
    + split.
      * intros [H | H]; [discriminate|]. now apply IH.
      * intros H. apply IH. intros Hin. apply H. now right.
Qed.

Lemma X6_handle_events_only_turns_witness :
  Game.handle_events [KEYDOWN K_UP; OTHER_EVENT; QUIT; KEYDOWN K_LEFT] sample_game
  = Raise SystemExit.
Proof.
  apply (proj1 (X6_handle_events_only_turns
                  [KEYDOWN K_UP; OTHER_EVENT; QUIT; KEYDOWN K_LEFT] sample_game)).
  simpl. right. right. left. reflexivity.
Defined.

Lemma update_collides (env : Env) (g : Game.t) (s' : Snake.t)
      (head : Position.t) (rest : list Position.t) :
  Snake.move (Game.snake g) = Ok s' ->
  Snake.body s' = head :: rest ->
  ~ in_grid (Game.grid_width g) (Game.grid_height g) head
  \/ In (cell head) (Game.walls g)
  \/ In head rest ->
  Game.update env g = Ok (Game.end_game (Game.set_snake s' g)).
Proof.
  intros Hmove Hbody Hhit.
  destruct (check_collision_spec (Game.set_snake s' g) head rest Hbody)
    as (b & Hcheck & Hb).
  apply Hb in Hhit. subst b.
  rewrite update_phases, Hmove. simpl. rewrite Hcheck. reflexivity.
Qed.

(** X7: the reversal guard looks at one event at a time.  Two arrow
    keys queued in the same tick, first a perpendicular direction and
    then the reverse of the original heading, turn the snake right
    round; if its neck lies straight behind the head and it has at least
    three cells, the tick that follows runs the head into the neck and
    ends the game. *)
Theorem X7_two_keys_reverse (env : Env) (g : Game.t) (d : Direction)
        (head neck third : Position.t) (rest : list Position.t) :
  d <> Snake.direction (Game.snake g) ->
  d <> opposite (Snake.direction (Game.snake g)) ->
  Snake.body (Game.snake g) = head :: neck :: third :: rest ->
  neck = Snake.offset (opposite (Snake.direction (Game.snake g))) head ->
  exists g1 g2,
    Game.handle_events
      [KEYDOWN (key_of d);
       KEYDOWN (key_of (opposite (Snake.direction (Game.snake g))))] g
    = Ok g1
    /\ Snake.direction (Game.snake g1)
       = opposite (Snake.direction (Game.snake g))
    /\ Snake.body (Game.snake g1) = Snake.body (Game.snake g)
    /\ Game.update env g1 = Ok g2
    /\ Game.game_over g2 = true.
Proof.
  intros Hd Hopp Hbody Hneck.
  set (h := Snake.direction (Game.snake g)) in *.
  set (g1 := Game.set_snake (Snake.set_direction (opposite h) (Game.snake g)) g).
  assert (Hev : Game.handle_events
                  [KEYDOWN (key_of d); KEYDOWN (key_of (opposite h))] g
                = Ok g1).
  { simpl. fold h.
    assert (Hturn : forall h0, d <> h0 -> d <> opposite h0 ->
                               Game.on_keydown (key_of (opposite h0))
                                               (Game.on_keydown (key_of d) h0)
                               = opposite h0)
      by (intros h0; destruct h0, d; simpl; intros; try reflexivity; congruence).
    rewrite (Hturn h Hd Hopp). reflexivity. }
  assert (Hmove : exists s',
             Snake.move (Game.snake g1) = Ok s'
             /\ exists rest', Snake.body s' = neck :: rest' /\ In neck rest').
  { unfold Snake.move. simpl. rewrite Hbody. rewrite <- Hneck.
    destruct (Snake.growth_pending (Game.snake g)); simpl negb; cbv iota.
    - eexists. split; [reflexivity|]. eexists. split; [reflexivity|].
      right. left. reflexivity.
    - eexists. split; [reflexivity|].
      cbn [Snake.body].
      exists (removelast (head :: neck :: third :: rest)).
      split; [reflexivity|].
      rewrite (removelast_cons_head head neck), (removelast_cons_head neck third).
      right. left. reflexivity. }
  destruct Hmove as (s' & Hmove & rest' & Hbs & Hin).
  exists g1, (Game.end_game (Game.set_snake s' g1)).
  split; [exact Hev|]. split; [reflexivity|]. split; [reflexivity|].
  split.
  - apply (update_collides env g1 s' neck rest' Hmove Hbs). right. right. exact Hin.
  - apply end_game_fields.
Qed.

Lemma X7_two_keys_reverse_witness :
  exists g1 g2,
    Game.handle_events [KEYDOWN K_UP; KEYDOWN K_LEFT] long_game = Ok g1
    /\ Game.update sample_env g1 = Ok g2
    /\ Game.game_over g2 = true.
Proof.
  destruct (X7_two_keys_reverse sample_env long_game UP
              (Position.mk 20 15) (Position.mk 19 15) (Position.mk 18 15) [])
    as (g1 & g2 & Hev & _ & _ & Hup & Hover).
  - discriminate.
  - discriminate.
  - reflexivity.
  - reflexivity.
  - exists g1, g2. split; [exact Hev|]. split; assumption.
Defined.

(** ** More on the enemies *)

(** X8: an enemy whose cooldown is at least [n] stays where it is for
    the next [n] calls of [move_towards_snake], whatever the snake does,
    each call taking one off the cooldown; and a cooldown between 0 and
    the move-delay stays in that range after every call. *)
Theorem X8_enemy_waits_out_cooldown
        (targets : list (Position.t * list Position.t)) :
  forall e,
    Z.of_nat (length targets) <= Enemy.move_cooldown e ->
    let e' := fold_left (fun e t => Enemy.move_towards_snake e (fst t) (snd t))
                        targets e in
    Enemy.position e' = Enemy.position e
    /\ Enemy.move_cooldown e' = Enemy.move_cooldown e - Z.of_nat (length targets)
    /\ Enemy.move_delay e' = Enemy.move_delay e
    /\ (forall head snake_body,
          0 <= Enemy.move_cooldown e <= Enemy.move_delay e ->
          0 <= Enemy.move_cooldown (Enemy.move_towards_snake e head snake_body)
            <= Enemy.move_delay e).
Proof.
  induction targets as [|t targets IH]; intros e Hcool.
  - simpl. repeat split; try lia.
    + unfold Enemy.move_towards_snake.
      destruct (Z.gtb_spec (Enemy.move_cooldown e) 0); [simpl; lia|].
      destruct (Enemy.get_valid_moves e snake_body); simpl; lia.
    + unfold Enemy.move_towards_snake.
      destruct (Z.gtb_spec (Enemy.move_cooldown e) 0); [simpl; lia|].
      destruct (Enemy.get_valid_moves e snake_body); simpl; lia.
  - cbn [fold_left]. cbv zeta.
    assert (Hstep : Enemy.move_towards_snake e (fst t) (snd t)
                    = Enemy.set_move_cooldown (Enemy.move_cooldown e - 1) e).
    { unfold Enemy.move_towards_snake.
      destruct (Z.gtb_spec (Enemy.move_cooldown e) 0); [reflexivity|].
      simpl length in Hcool. lia. }
    rewrite Hstep.
    destruct (IH (Enemy.set_move_cooldown (Enemy.move_cooldown e - 1) e))
      as (Hp & Hc & Hd & _).
    { simpl. simpl length in Hcool. lia. }
    cbv zeta in Hp, Hc, Hd. rewrite Hp, Hc, Hd. simpl Enemy.position.
    simpl Enemy.move_cooldown. simpl Enemy.move_delay.
    repeat split; try (simpl length; lia).
    + unfold Enemy.move_towards_snake.
      destruct (Z.gtb_spec (Enemy.move_cooldown e) 0); [simpl; lia|].
      destruct (Enemy.get_valid_moves e snake_body); simpl; lia.
    + unfold Enemy.move_towards_snake.
      destruct (Z.gtb_spec (Enemy.move_cooldown e) 0); [simpl; lia|].
      destruct (Enemy.get_valid_moves e snake_body); simpl; lia.
Qed.

Lemma X8_enemy_waits_out_cooldown_witness :
  Enemy.position
    (fold_left (fun e t => Enemy.move_towards_snake e (fst t) (snd t))
               [(sample_head, Snake.body sample_snake);
                (sample_head, Snake.body sample_snake)]
               (Enemy.set_move_cooldown 2 sample_enemy))
  = Position.mk 25 15.
Proof.
  refine (proj1 (X8_enemy_waits_out_cooldown
                   [(sample_head, Snake.body sample_snake);
                    (sample_head, Snake.body sample_snake)]
                   (Enemy.set_move_cooldown 2 sample_enemy) _)).
  simpl. lia.
Defined.

(** Every candidate is one step from the enemy: it scores at most 1 and
    is one cell nearer to the head, or scores 3 and is one cell farther. *)
Lemma score_and_distance (e : Enemy.t) (head m : Position.t) :
  In m (Enemy.possible_moves e) ->
  (Enemy.move_score e head m <= 1
   /\ Position.distance_to m head
      = Position.distance_to (Enemy.position e) head - 1)
  \/ (Enemy.move_score e head m = 3
      /\ Position.distance_to m head
         = Position.distance_to (Enemy.position e) head + 1).
Proof.
  unfold Enemy.possible_moves, Enemy.move_score, Position.distance_to.
  cbv zeta.
  intros [<- | [<- | [<- | [<- | []]]]]; simpl Position.x; simpl Position.y;
    repeat match goal with
           | |- context [?a >? ?b] => destruct (Z.gtb_spec a b)
           | |- context [?a <? ?b] => destruct (Z.ltb_spec a b)
           end;
    simpl; lia.
Qed.

Lemma chosen_move (e : Enemy.t) (head : Position.t)
      (snake_body : list Position.t) :
  Enemy.move_cooldown e <= 0 ->
  Enemy.get_valid_moves e snake_body <> [] ->
  In (Enemy.position (Enemy.move_towards_snake e head snake_body))
     (Enemy.get_valid_moves e snake_body)
  /\ forall m, In m (Enemy.get_valid_moves e snake_body) ->
               Enemy.move_score e head
                 (Enemy.position (Enemy.move_towards_snake e head snake_body))
               <= Enemy.move_score e head m.
Proof.
  intros Hcool Hne. unfold Enemy.move_towards_snake.
  destruct (Z.gtb_spec (Enemy.move_cooldown e) 0) as [Hpos | _]; [lia|].
  destruct (Enemy.get_valid_moves e snake_body) as [|m ms]; [now elim Hne|].
  simpl Enemy.position.
  destruct (py_min_first_minimum (Enemy.move_score e head) m ms)
    as (before & after & Hsplit & Hb & Ha).
  split; [apply py_min_In|].
  intros v Hv. rewrite Hsplit in Hv.
  apply in_app_or in Hv as [Hv | [<- | Hv]].
  - rewrite Forall_forall in Hb. specialize (Hb v Hv). lia.
  - lia.
  - rewrite Forall_forall in Ha. exact (Ha v Hv).
Qed.

(** X9: the pursuit is greedy in the Manhattan distance.  When an enemy
    moves and some surviving candidate is nearer to the snake's head
    than the enemy is, the enemy ends exactly one cell nearer to the
    head. *)
Theorem X9_enemy_closes_in (e : Enemy.t) (head : Position.t)
        (snake_body : list Position.t) :
  Enemy.move_cooldown e <= 0 ->
  (exists m, In m (Enemy.get_valid_moves e snake_body)
             /\ Position.distance_to m head
                < Position.distance_to (Enemy.position e) head) ->
  Position.distance_to
    (Enemy.position (Enemy.move_towards_snake e head snake_body)) head
  = Position.distance_to (Enemy.position e) head - 1.
Proof.
  intros Hcool (m & Hm & Hnear).
  assert (Hne : Enemy.get_valid_moves e snake_body <> []).
  { intros Hnil. rewrite Hnil in Hm. contradiction. }
  destruct (chosen_move e head snake_body Hcool Hne) as (Hin & Hmin).
  specialize (Hmin m Hm).
  apply In_get_valid_moves in Hm as [Hm _].
  apply In_get_valid_moves in Hin as [Hin _].
  destruct (score_and_distance e head m Hm) as [[Hs _] | [_ Hd]]; [|lia].
  destruct (score_and_distance e head _ Hin) as [[_ Hd] | [Hs' _]]; [exact Hd|lia].
Qed.

Lemma X9_enemy_closes_in_witness :
  Position.distance_to
    (Enemy.position
       (Enemy.move_towards_snake sample_enemy sample_head
                                 (Snake.body sample_snake)))
    sample_head
  = 4.
Proof.
  refine (X9_enemy_closes_in sample_enemy sample_head (Snake.body sample_snake)
                             _ _).
  - simpl. lia.
  - exists (Position.mk 24 15). split.
    + vm_compute. right. right. left. reflexivity.
    + vm_compute. reflexivity.
Defined.

(** X10: an enemy never leaves the grid and never enters a wall: from a
    cell inside its grid and off its walls, any call of
    [move_towards_snake] leaves it on such a cell, at most one cell from
    where it was, with its grid, its walls and its move-delay as they
    were. *)
Theorem X10_enemy_stays_legal (e : Enemy.t) (head : Position.t)
        (snake_body : list Position.t) :
  in_grid (Enemy.grid_width e) (Enemy.grid_height e) (Enemy.position e) ->
  ~ In (cell (Enemy.position e)) (Enemy.walls e) ->
  let e' := Enemy.move_towards_snake e head snake_body in
  in_grid (Enemy.grid_width e') (Enemy.grid_height e') (Enemy.position e')
  /\ ~ In (cell (Enemy.position e')) (Enemy.walls e')
  /\ Position.distance_to (Enemy.position e') (Enemy.position e) <= 1
  /\ Enemy.grid_width e' = Enemy.grid_width e
  /\ Enemy.grid_height e' = Enemy.grid_height e
  /\ Enemy.walls e' = Enemy.walls e
  /\ Enemy.move_delay e' = Enemy.move_delay e.
Proof.
  intros Hgrid Hwall e'.
  destruct (move_towards_snake_grid e head snake_body) as (Hw & Hgw & Hgh).
  fold e' in Hw, Hgw, Hgh. rewrite Hw, Hgw, Hgh.
  assert (Hdelay : Enemy.move_delay e' = Enemy.move_delay e).
  { subst e'. unfold Enemy.move_towards_snake.
    destruct (_ >? _); [reflexivity|].
    destruct (Enemy.get_valid_moves e snake_body); reflexivity. }
  assert (Hcases : Enemy.position e' = Enemy.position e
                   \/ In (Enemy.position e') (Enemy.get_valid_moves e snake_body)).
  { subst e'. unfold Enemy.move_towards_snake.
    destruct (_ >? _); [left; reflexivity|].
    destruct (Enemy.get_valid_moves e snake_body) as [|m ms];
      [left; reflexivity|].
    right. simpl Enemy.position. apply py_min_In. }
  destruct Hcases as [Hsame | Hin].
  - rewrite Hsame. unfold Position.distance_to.
    repeat split; try assumption; try apply Hgrid; lia.
  - apply In_get_valid_moves in Hin as [Hposs Hkeep].
    apply keeps_spec in Hkeep as (Hg & Hw' & _).
    repeat split; try assumption; try apply Hg.
    unfold Enemy.possible_moves in Hposs. unfold Position.distance_to.
    destruct Hposs as [<- | [<- | [<- | [<- | []]]]]; simpl; lia.
Qed.

Lemma X10_enemy_stays_legal_witness :
  in_grid 40 30
    (Enemy.position
       (Enemy.move_towards_snake sample_enemy sample_head
                                 (Snake.body sample_snake))).
Proof.
  refine (proj1 (X10_enemy_stays_legal sample_enemy sample_head
                   (Snake.body sample_snake) _ _)).
  - unfold in_grid. simpl. lia.
  - simpl. tauto.
Defined.

(** ** Enemy placement *)

Lemma enemy_cell_ok_spec (g : Game.t) (p : Position.t) :
  Game.enemy_cell_ok g p = true
  <-> free_cell g p /\ p <> Food.position (Game.food g).
Proof.
  unfold Game.enemy_cell_ok.
  rewrite andb_true_iff, negb_true_iff.
  change (negb (any (fun b => (Position.x b =? Position.x p)
                              && (Position.y b =? Position.y p))
                    (Snake.body (Game.snake g)))
          && negb (any (fun w => (fst w =? Position.x p) && (snd w =? Position.y p))
                       (Game.walls g))
          && negb (any (fun e => (Position.x (Enemy.position e) =? Position.x p)
                                 && (Position.y (Enemy.position e) =? Position.y p))
                       (Game.enemies g)))
    with (Game.food_cell_ok g p).
  rewrite food_cell_ok_spec.
  split; intros [Hfree Hfood]; (split; [exact Hfree|]).
  - intros ->. rewrite !Z.eqb_refl in Hfood. discriminate.
  - destruct (_ && _) eqn:Heq; [|reflexivity]. exfalso. apply Hfood.
    apply andb_true_iff in Heq as [Hx Hy]. apply Z.eqb_eq in Hx, Hy.
    symmetry. now apply position_eta.
Qed.

Lemma place_enemy_result (g : Game.t) (cells : list Position.t) :
  forall g1 rest,
    Game.place_enemy g cells = Ok (g1, rest) ->
    exists pos,
      In pos cells
      /\ Game.enemy_cell_ok g pos = true
      /\ g1 = Game.set_enemies
                (Game.enemies g
                 ++ [Enemy.init pos (Game.grid_width g) (Game.grid_height g)
                                (Game.walls g)]) g
      /\ (forall q, In q rest -> In q cells).
Proof.
  induction cells as [|c cells IH]; intros g1 rest; simpl; [discriminate|].
  destruct (Game.enemy_cell_ok g c) eqn:Hok.
  - intros H. injection H as <- <-. exists c.
    split; [now left|]. split; [assumption|]. split; [reflexivity|].
    intros q Hq. now right.
  - intros H. destruct (IH g1 rest H) as (pos & Hin & Hpos & Hg1 & Hrest).
    exists pos. split; [now right|]. split; [assumption|].
    split; [assumption|]. intros q Hq. right. now apply Hrest.
Qed.

Lemma place_enemies_result (n : nat) :
  forall g cells g',
    Game.place_enemies n g cells = Ok g' ->
    exists added,
      g' = Game.set_enemies (Game.enemies g ++ added) g
      /\ length added = n
      /\ NoDup (map Enemy.position added)
      /\ Forall (fun e =>
                   In (Enemy.position e) cells
                   /\ free_cell g (Enemy.position e)
                   /\ Enemy.position e <> Food.position (Game.food g)
                   /\ e = Enemy.init (Enemy.position e) (Game.grid_width g)
                                     (Game.grid_height g) (Game.walls g))
                added.
Proof.
  induction n as [|n IH]; intros g cells g'; simpl.
  - intros H. injection H as <-. exists []. rewrite app_nil_r.
    split; [destruct g; reflexivity|]. split; [reflexivity|].
    split; constructor.
  - destruct (Game.place_enemy g cells) as [[g1 rest]| |] eqn:Hplace;
      simpl; try discriminate.
    intros H.
    destruct (place_enemy_result g cells g1 rest Hplace)
      as (pos & Hin & Hok & Hg1 & Hrest).
    destruct (IH g1 rest g' H) as (added & Hg' & Hlen & Hnd & Hall).
    apply enemy_cell_ok_spec in Hok as [Hfree Hfood].
    set (e0 := Enemy.init pos (Game.grid_width g) (Game.grid_height g)
                          (Game.walls g)) in *.
    exists (e0 :: added). subst g1. simpl in Hg', Hall.
    split; [|split; [|split]].
    + rewrite Hg'. rewrite <- app_assoc. reflexivity.
    + simpl. now rewrite Hlen.
    + simpl. constructor; [|exact Hnd].
      intros Hdup. apply in_map_iff in Hdup as (e & Hpe & Hine).
      rewrite Forall_forall in Hall.
      destruct (Hall e Hine) as (_ & (_ & _ & Hen) & _).
      apply (Hen e0); [|exact (eq_sym Hpe)].
      apply in_or_app. right. now left.
    + constructor.
      * repeat split; try assumption; apply Hfree.
      * eapply Forall_impl; [|exact Hall].
        intros e (Hc & (Hb & Hw & He) & Hf & Hinit).
        split; [now apply Hrest|].
        split; [|split; assumption].
        split; [exact Hb|]. split; [exact Hw|].
        intros e1 He1. apply He. apply in_or_app. now left.
Qed.

Lemma filter_other_length (pos : Position.t) (l : list Position.t) :
  NoDup l ->
  (length l <= S (length (filter (fun q => negb (Position.eqb q pos)) l)))%nat.
Proof.
  induction l as [|a l IH]; intros Hnd; simpl; [lia|].
  inversion Hnd as [|? ? Hnot Hrest]; subst.
  destruct (Position.eqb a pos) eqn:Heq; simpl.
  - assert (Hsame : filter (fun q => negb (Position.eqb q pos)) l = l).
    { assert (Ha : a = pos).
      { unfold Position.eqb in Heq. apply andb_true_iff in Heq as [Hx Hy].
        apply Z.eqb_eq in Hx, Hy. now apply position_eta. }
      subst a. clear IH Hrest Hnd Heq.
      induction l as [|b l IHl]; simpl; [reflexivity|].
      destruct (Position.eqb b pos) eqn:Hb; simpl.
      - exfalso. apply Hnot. left.
        unfold Position.eqb in Hb. apply andb_true_iff in Hb as [Hx Hy].
        apply Z.eqb_eq in Hx, Hy. now apply position_eta.
      - f_equal. apply IHl. intros Hin. apply Hnot. now right. }
    rewrite Hsame. lia.
  - specialize (IH Hrest). lia.
Qed.

Lemma place_enemy_first (g : Game.t) (cells : list Position.t) :
  (exists p, In p cells /\ Game.enemy_cell_ok g p = true) ->
  exists before pos rest,
    cells = before ++ pos :: rest
    /\ Forall (fun q => Game.enemy_cell_ok g q = false) before
    /\ Game.enemy_cell_ok g pos = true
    /\ Game.place_enemy g cells
       = Ok (Game.set_enemies
               (Game.enemies g
                ++ [Enemy.init pos (Game.grid_width g) (Game.grid_height g)
                               (Game.walls g)]) g,
             rest).
Proof.
  induction cells as [|c cells IH]; intros (p & Hin & Hok); [contradiction|].
  simpl. destruct (Game.enemy_cell_ok g c) eqn:Hc.
  - exists [], c, cells. repeat split; [constructor | assumption].
  - destruct Hin as [-> | Hin]; [congruence|].
    destruct IH as (before & pos & rest & -> & Hb & Hpos & Hplace);
      [now exists p|].
    exists (c :: before), pos, rest.
    repeat split; try assumption. constructor; assumption.
Qed.

(** The placement loops return once the random source has drawn as many
    distinct acceptable cells as there are enemies to place. *)
Lemma place_enemies_returns (n : nat) :
  forall g cells free,
    NoDup free ->
    (n <= length free)%nat ->
    (forall p, In p free -> In p cells /\ Game.enemy_cell_ok g p = true) ->
    exists g', Game.place_enemies n g cells = Ok g'.
Proof.
  induction n as [|n IH]; intros g cells free Hnd Hlen Hfree; simpl.
  - eexists. reflexivity.
  - destruct free as [|f0 free0] eqn:Hf; [simpl in Hlen; lia|].
    rewrite <- Hf in *.
    destruct (place_enemy_first g cells)
      as (before & pos & rest & Hcells & Hb & Hpos & Hplace).
    { exists f0. apply Hfree. rewrite Hf. now left. }
    rewrite Hplace. simpl.
    apply (IH _ rest (filter (fun q => negb (Position.eqb q pos)) free)).
    + now apply NoDup_filter.
    + pose proof (filter_other_length pos free Hnd). lia.
    + intros p Hp. apply filter_In in Hp as [Hp Hne].
      apply negb_true_iff in Hne.
      assert (Hneq : p <> pos).
      { intros ->. unfold Position.eqb in Hne. rewrite !Z.eqb_refl in Hne.
        discriminate. }
      destruct (Hfree p Hp) as [Hin Hok]. split.
      * rewrite Hcells in Hin. apply in_app_or in Hin as [Hin | [Hin | Hin]].
        -- rewrite Forall_forall in Hb. rewrite (Hb p Hin) in Hok. discriminate.
        -- congruence.
        -- exact Hin.
      * apply enemy_cell_ok_spec in Hok as [(Hbody & Hwall & Hen) Hfood].
        apply enemy_cell_ok_spec. split; [|exact Hfood].
        split; [exact Hbody|]. split; [exact Hwall|].
        simpl. intros e He. apply in_app_or in He as [He | [<- | []]].
        -- now apply Hen.
        -- simpl. congruence.
Qed.

(** X11: the enemy placement of [run].  When it returns, the enemies
    placed are as many as asked for, stand on pairwise distinct cells
    that were drawn by the random source and hold no snake segment, no
    wall and not the food, and each is a fresh enemy (cooldown 0,
    move-delay 2) carrying the game's grid size and walls, nothing else
    in the game being changed; and it does return once the random
    source has drawn as many distinct cells off the snake, the walls and
    the food as there are enemies to place. *)
Theorem X11_enemy_placement (n : nat) (g : Game.t) (cells : list Position.t) :
  (forall g',
      Game.place_enemies n (Game.set_enemies [] g) cells = Ok g' ->
      g' = Game.set_enemies (Game.enemies g') g
      /\ length (Game.enemies g') = n
      /\ NoDup (map Enemy.position (Game.enemies g'))
      /\ Forall (fun e =>
                   In (Enemy.position e) cells
                   /\ ~ In (Enemy.position e) (Snake.body (Game.snake g))
                   /\ ~ In (cell (Enemy.position e)) (Game.walls g)
                   /\ Enemy.position e <> Food.position (Game.food g)
                   /\ e = Enemy.mk (Enemy.position e) (Game.grid_width g)
                                   (Game.grid_height g) (Game.walls g) 0 2)
                (Game.enemies g'))
  /\ ((exists free,
         NoDup free
         /\ length free = n
         /\ forall p, In p free ->
                      In p cells
                      /\ ~ In p (Snake.body (Game.snake g))
                      /\ ~ In (cell p) (Game.walls g)
                      /\ p <> Food.position (Game.food g)) ->
      exists g', Game.place_enemies n (Game.set_enemies [] g) cells = Ok g').
Proof.
  split.
  - intros g' H.
    destruct (place_enemies_result n _ cells g' H)
      as (added & Hg' & Hlen & Hnd & Hall).
    simpl in Hg', Hall. subst g'. simpl.
    split; [reflexivity|]. split; [exact Hlen|]. split; [exact Hnd|].
    eapply Forall_impl; [|exact Hall].
    intros e (Hc & (Hb & Hw & _) & Hf & Hinit).
    repeat split; assumption.
  - intros (free & Hnd & Hlen & Hfree).
    apply (place_enemies_returns n _ cells free Hnd); [lia|].
    intros p Hp. destruct (Hfree p Hp) as (Hin & Hb & Hw & Hf).
    split; [exact Hin|]. apply enemy_cell_ok_spec.
    split; [|exact Hf]. repeat split; try assumption. intros e [].
Qed.

Lemma X11_enemy_placement_witness :
  exists g',
    Game.place_enemies 2 (Game.set_enemies [] sample_game)
                       [Position.mk 20 15; Position.mk 30 4; Position.mk 21 15;
                        Position.mk 30 4; Position.mk 2 9] = Ok g'.
Proof.
  apply (proj2 (X11_enemy_placement 2 sample_game
                  [Position.mk 20 15; Position.mk 30 4; Position.mk 21 15;
                   Position.mk 30 4; Position.mk 2 9])).
  exists [Position.mk 2 9; Position.mk 30 4].
  split.
  - repeat constructor; simpl; intros H;
      repeat (destruct H as [H | H]; [discriminate H|]); exact H.
  - split; [reflexivity|].
    intros p [<- | [<- | []]]; simpl;
      (split; [tauto|]); (split; [|split; [tauto | discriminate]]);
      intros H; repeat (destruct H as [H | H]; [discriminate H|]); exact H.
Defined.

(** ** More on the per-tick update *)

(** The shape of a tick that returns: either the collision branch was
    taken, or the three later phases ran on the moved snake. *)
Lemma update_cases (env : Env) (g g' : Game.t) :
  Game.update env g = Ok g' ->
  exists s' head rest,
    Snake.move (Game.snake g) = Ok s'
    /\ Snake.body s' = head :: rest
    /\ ((Game.check_collision (Game.set_snake s' g) = Ok true
         /\ g' = Game.end_game (Game.set_snake s' g))
        \/ (Game.check_collision (Game.set_snake s' g) = Ok false
            /\ exists g2,
                food_phase env head (Game.set_snake s' g) = Ok g2
                /\ g' = enemy_phase head (flash_phase env g2))).
Proof.
  rewrite update_phases.
  destruct (Snake.body (Game.snake g)) as [|h0 r0] eqn:Hb0.
  { unfold Snake.move. rewrite Hb0. discriminate. }
  destruct (Snake.move (Game.snake g)) as [s| |] eqn:Hmove;
    simpl; try discriminate.
  destruct (move_result _ _ _ _ Hb0 Hmove) as (_ & _ & _ & rest' & Hbs).
  intros H. exists s, (Snake.offset (Snake.direction (Game.snake g)) h0), rest'.
  split; [reflexivity|]. split; [exact Hbs|].
  destruct (Game.check_collision (Game.set_snake s g)) as [[|]| |];
    simpl in H; try discriminate.
  - left. injection H as <-. split; reflexivity.
  - right. split; [reflexivity|]. rewrite Hbs in H.
    destruct (food_phase env _ (Game.set_snake s g)) as [g2| |];
      simpl in H; try discriminate.
    injection H as <-. exists g2. split; reflexivity.
Qed.

(** X12: a tick of a running game sets the terminal flag exactly when,
    after the move, the head is outside the grid, on a wall, on a later
    segment of the snake, or, with enemies switched on, on the cell of
    an enemy after the enemies have moved. *)
Theorem X12_game_over_iff_collision (env : Env) (g g' : Game.t) :
  Game.game_over g = false ->
  Game.update env g = Ok g' ->
  exists head rest,
    Snake.body (Game.snake g') = head :: rest
    /\ (Game.game_over g' = true
        <-> (~ in_grid (Game.grid_width g) (Game.grid_height g) head
             \/ In (cell head) (Game.walls g)
             \/ In head rest
             \/ (Game.spawn_enemies g = true
                 /\ exists e, In e (Game.enemies g')
                              /\ Enemy.position e = head))).
Proof.
  intros Hrun Hup.
  destruct (update_cases env g g' Hup)
    as (s' & head & rest & Hmove & Hbs & [[Hcheck ->] | (Hcheck & g2 & Hphase & ->)]);
    exists head, rest;
    destruct (check_collision_spec (Game.set_snake s' g) head rest Hbs)
      as (b & Hcheck' & Hb);
    rewrite Hcheck in Hcheck'; injection Hcheck' as <-; simpl in Hb.
  - destruct (end_game_fields (Game.set_snake s' g)) as (Ho & _ & _ & _ & Hs & _).
    rewrite Hs, Ho. split; [exact Hbs|]. split; [|reflexivity].
    intros _. destruct (proj1 Hb eq_refl) as [H | [H | H]]; tauto.
  - destruct (food_phase_fields env head _ g2 Hphase)
      as (Pb & Pe & _ & Psp & Pover).
    destruct (flash_phase_fields env g2) as (Fs & _ & Fe & _ & Fsp & Fover & _).
    destruct (enemy_phase_fields head (flash_phase env g2))
      as (Es & _ & _ & _ & Ee & Eover).
    rewrite Es, Fs, Pb. split; [exact Hbs|].
    rewrite Eover, Ee, Fover, Pover, Fsp, Psp. simpl. rewrite Hrun. simpl.
    destruct (Game.spawn_enemies g).
    + simpl. unfold any. rewrite existsb_exists. split.
      * intros (e & Hin & Hon). right. right. right. split; [reflexivity|].
        exists e. split; [exact Hin|].
        unfold Game.enemy_on in Hon.
        apply andb_true_iff in Hon as [Hx Hy]. apply Z.eqb_eq in Hx, Hy.
        apply position_eta; congruence.
      * intros [H | [H | [H | (_ & e & Hin & He)]]];
          try (assert (Hf : false = true) by (apply Hb; tauto); discriminate).
        exists e. split; [exact Hin|].
        unfold Game.enemy_on. rewrite He, !Z.eqb_refl. reflexivity.
    + simpl. split; [discriminate|].
      intros [H | [H | [H | (Hsp & _)]]]; try discriminate.
      all: assert (Hf : false = true) by (apply Hb; tauto); discriminate.
Qed.

Lemma X12_game_over_iff_collision_witness :
  exists g' head rest,
    Game.update sample_env maze_game = Ok g'
    /\ Snake.body (Game.snake g') = head :: rest
    /\ (Game.game_over g' = true
        <-> (~ in_grid 40 30 head
             \/ In (cell head) (Game.walls maze_game)
             \/ In head rest
             \/ (Game.spawn_enemies maze_game = true
                 /\ exists e, In e (Game.enemies g')
                              /\ Enemy.position e = head))).
Proof.
  assert (Hup : exists g', Game.update sample_env maze_game = Ok g')
    by (eexists; vm_compute; reflexivity).
  destruct Hup as [g' Hup].
  destruct (X12_game_over_iff_collision sample_env maze_game g' eq_refl Hup)
    as (head & rest & Hbody & Hiff).
  exists g', head, rest. split; [exact Hup|]. split; [exact Hbody|]. exact Hiff.
Defined.

Lemma removelast_In {A : Type} (l : list A) (v : A) :
  In v (removelast l) -> In v l.
Proof.
  induction l as [|a l IH]; [contradiction|].
  destruct l as [|b l]; [contradiction|].
  rewrite removelast_cons_head. intros [<- | H]; [now left|].
  right. now apply IH.
Qed.

Lemma removelast_NoDup {A : Type} (l : list A) :
  NoDup l -> NoDup (removelast l).
Proof.
  induction l as [|a l IH]; intros Hnd; [constructor|].
  destruct l as [|b l]; [constructor|].
  rewrite removelast_cons_head. inversion Hnd as [|? ? Hnot Hrest]; subst.
  constructor; [|now apply IH].
  intros Hin. apply Hnot. now apply removelast_In.
Qed.

Lemma last_not_in_removelast {A : Type} (l : list A) (d : A) :
  l <> [] -> NoDup l -> ~ In (last l d) (removelast l).
Proof.
  intros Hne Hnd Hin.
  rewrite (app_removelast_last d Hne) in Hnd.
  apply NoDup_remove_2 in Hnd. apply Hnd.
  rewrite app_nil_r. exact Hin.
Qed.

Lemma last_In {A : Type} (l : list A) (d : A) :
  l <> [] -> In (last l d) l.
Proof.
  intros Hne. rewrite (app_removelast_last d Hne) at 2.
  apply in_or_app. right. now left.
Qed.

(** The body after [move]: the new head in front of the old body, less
    its last cell unless growth was pending. *)
Lemma move_body (s s' : Snake.t) (head : Position.t) (rest : list Position.t) :
  Snake.body s = head :: rest ->
  Snake.move s = Ok s' ->
  Snake.body s'
  = Snake.offset (Snake.direction s) head
    :: (if Snake.growth_pending s then head :: rest
        else removelast (head :: rest)).
Proof.
  intros Hbody. unfold Snake.move. rewrite Hbody.
  destruct (Snake.growth_pending s); simpl negb; cbv iota;
    intros H; injection H as <-; reflexivity.
Qed.

(** X13: following its own tail is safe for a snake that is not
    growing, and fatal for one that is.  When the cell ahead of the head
    is the cell of the last segment of a duplicate-free snake, inside
    the grid and off the walls, [check_collision] after the move reports
    a collision exactly when growth was pending. *)
Theorem X13_tail_cell_is_free_unless_growing (g : Game.t) (s' : Snake.t)
        (head : Position.t) (rest : list Position.t) :
  Snake.body (Game.snake g) = head :: rest ->
  NoDup (head :: rest) ->
  Snake.offset (Snake.direction (Game.snake g)) head = last (head :: rest) head ->
  in_grid (Game.grid_width g) (Game.grid_height g) (last (head :: rest) head) ->
  ~ In (cell (last (head :: rest) head)) (Game.walls g) ->
  Snake.move (Game.snake g) = Ok s' ->
  Game.check_collision (Game.set_snake s' g)
  = Ok (Snake.growth_pending (Game.snake g)).
Proof.
  intros Hbody Hnd Htail Hgrid Hwall Hmove.
  pose proof (move_body _ _ _ _ Hbody Hmove) as Hbs. rewrite Htail in Hbs.
  destruct (check_collision_spec (Game.set_snake s' g) _ _ Hbs)
    as (b & Hcheck & Hb).
  rewrite Hcheck. f_equal. simpl in Hb.
  destruct (Snake.growth_pending (Game.snake g)).
  - apply Hb. right. right.
    apply (last_In (head :: rest) head). discriminate.
  - destruct b; [|reflexivity]. exfalso.
    destruct (proj1 Hb eq_refl) as [H | [H | H]]; try tauto.
    apply (last_not_in_removelast (head :: rest) head); [discriminate|assumption|].
    exact H.
Qed.

Lemma X13_tail_cell_is_free_unless_growing_witness :
  exists s',
    Snake.move (Game.snake square_game) = Ok s'
    /\ Snake.body s' = [Position.mk 20 16; Position.mk 20 15; Position.mk 21 15;
                        Position.mk 21 16]
    /\ Game.check_collision (Game.set_snake s' square_game) = Ok false.
Proof.
  eexists. split; [reflexivity|]. split; [reflexivity|].
  refine (X13_tail_cell_is_free_unless_growing square_game _
            (Position.mk 20 15)
            [Position.mk 21 15; Position.mk 21 16; Position.mk 20 16]
            eq_refl _ eq_refl _ _ eq_refl).
  - repeat constructor; simpl; intros H;
      repeat (destruct H as [H | H]; [discriminate H|]); exact H.
  - unfold in_grid. simpl. lia.
  - simpl. tauto.
Defined.

Lemma update_board (env : Env) (g g' : Game.t) :
  Game.update env g = Ok g' ->
  Game.grid_width g' = Game.grid_width g
  /\ Game.grid_height g' = Game.grid_height g
  /\ Game.spawn_enemies g' = Game.spawn_enemies g
  /\ Game.enemy_count g' = Game.enemy_count g.
Proof.
  intros Hup.
  destruct (update_cases env g g' Hup)
    as (s' & head & rest & _ & _ & [[_ ->] | (_ & g2 & Hphase & ->)]).
  - unfold Game.end_game. simpl.
    destruct (Game.score g >? Game.high_score g); repeat split.
  - assert (Hfood : Game.grid_width g2 = Game.grid_width g
                    /\ Game.grid_height g2 = Game.grid_height g
                    /\ Game.spawn_enemies g2 = Game.spawn_enemies g
                    /\ Game.enemy_count g2 = Game.enemy_count g).
    { unfold food_phase in Hphase. destruct (_ && _).
      - cbv zeta in Hphase.
        destruct (Game.generate_food env _) as [f| |];
          simpl in Hphase; try discriminate.
        injection Hphase as <-. repeat split.
      - injection Hphase as <-. repeat split. }
    destruct Hfood as (<- & <- & <- & <-).
    unfold enemy_phase, flash_phase, Game.end_game.
    case_ifs; repeat split.
Qed.

(** X14: a tick that leaves the game running keeps the snake well
    formed: if its cells were pairwise distinct, inside the grid and off
    the walls before the tick, they are so after it. *)
Theorem X14_surviving_snake_well_formed (env : Env) (g g' : Game.t) :
  Game.update env g = Ok g' ->
  Game.game_over g' = false ->
  NoDup (Snake.body (Game.snake g)) ->
  Forall (fun p => in_grid (Game.grid_width g) (Game.grid_height g) p
                   /\ ~ In (cell p) (Game.walls g))
         (Snake.body (Game.snake g)) ->
  NoDup (Snake.body (Game.snake g'))
  /\ Forall (fun p => in_grid (Game.grid_width g') (Game.grid_height g') p
                      /\ ~ In (cell p) (Game.walls g'))
            (Snake.body (Game.snake g')).
Proof.
  intros Hup Hrun Hnd Hall.
  destruct (update_board env g g' Hup) as (-> & -> & _).
  rewrite (update_walls env g g' Hup).
  destruct (update_cases env g g' Hup)
    as (s' & head & rest & Hmove & Hbs & [[_ ->] | (Hcheck & g2 & Hphase & ->)]).
  { exfalso. destruct (end_game_fields (Game.set_snake s' g)) as (Ho & _).
    rewrite Ho in Hrun. discriminate. }
  destruct (food_phase_fields env head _ g2 Hphase) as (Pb & _).
  destruct (flash_phase_fields env g2) as (Fs & _).
  destruct (enemy_phase_fields head (flash_phase env g2)) as (Es & _).
  rewrite Es, Fs, Pb. simpl Game.snake.
  destruct (check_collision_spec (Game.set_snake s' g) head rest Hbs)
    as (b & Hcheck' & Hb).
  rewrite Hcheck in Hcheck'. injection Hcheck' as <-. simpl in Hb.
  assert (Hfree : in_grid (Game.grid_width g) (Game.grid_height g) head
                  /\ ~ In (cell head) (Game.walls g) /\ ~ In head rest).
  { repeat split.
    - destruct (Z.le_gt_cases 0 (Position.x head)); [assumption|].
      assert (Hf : false = true) by (apply Hb; left; unfold in_grid; lia).
      discriminate.
    - destruct (Z.lt_ge_cases (Position.x head) (Game.grid_width g));
        [assumption|].
      assert (Hf : false = true) by (apply Hb; left; unfold in_grid; lia).
      discriminate.
    - destruct (Z.le_gt_cases 0 (Position.y head)); [assumption|].
      assert (Hf : false = true) by (apply Hb; left; unfold in_grid; lia).
      discriminate.
    - destruct (Z.lt_ge_cases (Position.y head) (Game.grid_height g));
        [assumption|].
      assert (Hf : false = true) by (apply Hb; left; unfold in_grid; lia).
      discriminate.
    - intros H. assert (Hf : false = true) by (apply Hb; tauto). discriminate.
    - intros H. assert (Hf : false = true) by (apply Hb; tauto). discriminate. }
  destruct Hfree as (Hgrid & Hwall & Hself).
  destruct (Snake.body (Game.snake g)) as [|h0 r0] eqn:Hb0.
  { unfold Snake.move in Hmove. rewrite Hb0 in Hmove. discriminate. }
  pose proof (move_body _ _ _ _ Hb0 Hmove) as Hbody'.
  rewrite Hbs in Hbody'. injection Hbody' as Hhead Hrest.
  rewrite Hbs.
  assert (Hsub : forall p, In p rest -> In p (h0 :: r0)).
  { intros p Hp. rewrite Hrest in Hp.
    destruct (Snake.growth_pending (Game.snake g)); [exact Hp|].
    exact (removelast_In (h0 :: r0) p Hp). }
  assert (Hndr : NoDup rest).
  { rewrite Hrest. destruct (Snake.growth_pending (Game.snake g));
      [exact Hnd | exact (removelast_NoDup (h0 :: r0) Hnd)]. }
  split.
  - constructor; assumption.
  - constructor; [split; assumption|].
    apply Forall_forall. intros p Hp.
    rewrite Forall_forall in Hall. apply Hall. now apply Hsub.
Qed.

Lemma X14_surviving_snake_well_formed_witness :
  exists g',
    Game.update sample_env square_game = Ok g'
    /\ NoDup (Snake.body (Game.snake g')).
Proof.
  assert (Hup : exists g', Game.update sample_env square_game = Ok g'
                           /\ Game.game_over g' = false)
    by (eexists; split; vm_compute; reflexivity).
  destruct Hup as (g' & Hup & Hrun).
  exists g'. split; [exact Hup|].
  refine (proj1 (X14_surviving_snake_well_formed sample_env square_game g'
                   Hup Hrun _ _)).
  - repeat constructor; simpl; intros H;
      repeat (destruct H as [H | H]; [discriminate H|]); exact H.
  - repeat constructor; simpl; try lia; tauto.
Defined.

(** X15: a tick that leaves the game running never leaves the food
    under the snake: if the food was on no segment before the tick, it
    is on no segment after it, whether it was eaten and redrawn or not. *)
Theorem X15_food_never_under_snake (env : Env) (g g' : Game.t) :
  Game.update env g = Ok g' ->
  Game.game_over g' = false ->
  ~ In (Food.position (Game.food g)) (Snake.body (Game.snake g)) ->
  ~ In (Food.position (Game.food g')) (Snake.body (Game.snake g')).
Proof.
  intros Hup Hrun Hfood.
  destruct (update_cases env g g' Hup)
    as (s' & head & rest & Hmove & Hbs & [[_ ->] | (Hcheck & g2 & Hphase & ->)]).
  { exfalso. destruct (end_game_fields (Game.set_snake s' g)) as (Ho & _).
    rewrite Ho in Hrun. discriminate. }
  destruct (food_phase_fields env head _ g2 Hphase) as (Pb & _).
  destruct (flash_phase_fields env g2) as (Fs & _ & _ & _ & _ & _ & Fp & _).
  destruct (enemy_phase_fields head (flash_phase env g2)) as (Es & _ & Ef & _).
  rewrite Es, Ef, Fs, Fp, Pb. simpl Game.snake.
  unfold food_phase in Hphase. simpl Game.food in Hphase.
  destruct (_ && _) eqn:Heq.
  - cbv zeta in Hphase.
    destruct (Game.generate_food env _) as [f| |] eqn:Hf;
      simpl in Hphase; try discriminate.
    injection Hphase as <-. simpl.
    apply generate_food_position in Hf.
    apply generate_food_loop_sound in Hf as [_ Hok].
    apply food_cell_ok_spec in Hok. apply Hok.
  - injection Hphase as <-. simpl. rewrite Hbs.
    destruct (Snake.body (Game.snake g)) as [|h0 r0] eqn:Hb0.
    { unfold Snake.move in Hmove. rewrite Hb0 in Hmove. discriminate. }
    pose proof (move_body _ _ _ _ Hb0 Hmove) as Hbody'.
    rewrite Hbs in Hbody'. injection Hbody' as Hhead Hrest.
    intros [Hin | Hin].
    + rewrite Hin, !Z.eqb_refl in Heq. discriminate.
    + apply Hfood. rewrite Hrest in Hin.
      destruct (Snake.growth_pending (Game.snake g)); [exact Hin|].
      exact (removelast_In (h0 :: r0) _ Hin).
Qed.

Lemma X15_food_never_under_snake_witness :
  exists g',
    Game.update sample_env sample_game = Ok g'
    /\ ~ In (Food.position (Game.food g')) (Snake.body (Game.snake g')).
Proof.
  assert (Hup : exists g', Game.update sample_env sample_game = Ok g'
                           /\ Game.game_over g' = false)
    by (eexists; split; vm_compute; reflexivity).
  destruct Hup as (g' & Hup & Hrun).
  exists g'. split; [exact Hup|].
  refine (X15_food_never_under_snake sample_env sample_game g' Hup Hrun _).
  simpl. intros [H | [H | []]]; discriminate H.
Defined.

Lemma generate_food_outcome (env : Env) (g : Game.t) :
  (exists f, Game.generate_food env g = Ok f)
  \/ (Game.generate_food env g = Looping
      /\ forall p, In p (draws env) -> ~ free_cell g p).
Proof.
  unfold Game.generate_food.
  assert (Hloop : (exists p, Game.generate_food_loop g (draws env) = Ok p)
                  \/ (Game.generate_food_loop g (draws env) = Looping
                      /\ forall p, In p (draws env) -> ~ free_cell g p)).
  { induction (draws env) as [|c cells IH]; simpl.
    - right. split; [reflexivity|]. intros p [].
    - destruct (Game.food_cell_ok g c) eqn:Hc; [left; now exists c|].
      destruct IH as [IH | [IH Hnone]]; [left; exact IH|].
      right. split; [exact IH|]. intros p [<- | Hp].
      + intros Hfree. apply food_cell_ok_spec in Hfree. congruence.
      + now apply Hnone. }
  destruct Hloop as [[p ->] | [-> Hnone]].
  - left. simpl.
    destruct (Game.roll_lt_005 _); [|destruct (Game.roll_lt_020 _)];
      eexists; reflexivity.
  - right. split; [reflexivity | exact Hnone].
Qed.

Lemma update_returns_or_waits (env : Env) (g : Game.t) :
  Snake.body (Game.snake g) <> [] ->
  (exists g', Game.update env g = Ok g')
  \/ (Game.update env g = Looping
      /\ exists s' rest,
          Snake.move (Game.snake g) = Ok s'
          /\ Snake.body s' = Food.position (Game.food g) :: rest
          /\ Game.check_collision (Game.set_snake s' g) = Ok false
          /\ forall p, In p (draws env) ->
                       ~ free_cell (Game.set_snake s' g) p).
Proof.
  intros Hne.
  destruct (Snake.body (Game.snake g)) as [|h0 r0] eqn:Hb0; [now elim Hne|].
  assert (Hmove : exists s', Snake.move (Game.snake g) = Ok s').
  { unfold Snake.move. rewrite Hb0.
    destruct (negb _); eexists; reflexivity. }
  destruct Hmove as [s' Hmove].
  destruct (move_result _ _ _ _ Hb0 Hmove) as (_ & _ & _ & rest & Hbs).
  destruct (check_collision_spec (Game.set_snake s' g) _ rest Hbs)
    as (b & Hcheck & _).
  rewrite update_phases, Hmove. simpl. rewrite Hcheck. simpl.
  destruct b; [left; eexists; reflexivity|].
  rewrite Hbs. unfold food_phase. simpl Game.food.
  destruct (_ && _) eqn:Heq; [|left; eexists; reflexivity].
  cbv zeta.
  match goal with
  | |- context [Game.generate_food env ?g0] =>
      destruct (generate_food_outcome env g0) as [[f Hf] | [Hf Hnone]];
      rewrite Hf
  end.
  - left. eexists. reflexivity.
  - right. split; [reflexivity|]. exists s', rest.
    apply andb_true_iff in Heq as [Hx Hy]. apply Z.eqb_eq in Hx, Hy.
    rewrite <- (position_eta _ _ Hx Hy).
    repeat split; assumption.
Qed.

(** X16: a tick that cannot beat the high score, so that no write of
    the high-score file is attempted (the score, with the value of the
    food on the board added, does not exceed the high score), never
    raises on a snake with at least one cell.  It returns a game, with
    the high-score file untouched, unless the moved head reached the
    food without a collision and none of the cells drawn by the random
    source is free, in which case the food loop is still looking. *)
Theorem X16_update_never_raises (env : Env) (g : Game.t) :
  Snake.body (Game.snake g) <> [] ->
  Game.score g + Z.max 0 (Food.value (Game.food g)) <= Game.high_score g ->
  (exists g', Game.update env g = Ok g'
              /\ Game.highscore_file g' = Game.highscore_file g
              /\ Game.high_score g' = Game.high_score g)
  \/ (Game.update env g = Looping
      /\ exists s' rest,
          Snake.move (Game.snake g) = Ok s'
          /\ Snake.body s' = Food.position (Game.food g) :: rest
          /\ Game.check_collision (Game.set_snake s' g) = Ok false
          /\ forall p, In p (draws env) ->
                       ~ free_cell (Game.set_snake s' g) p).
Proof.
  intros Hne Hlow.
  destruct (update_returns_or_waits env g Hne) as [[g' Hup] | Hwait];
    [left | right; exact Hwait].
  exists g'. split; [exact Hup|].
  destruct (update_accounts env g g' Hup) as (Hsc & _ & Hrec).
  assert (Hle : Game.score g' <= Game.high_score g)
    by (destruct Hsc as [-> | [-> _]]; lia).
  destruct Hrec as [(_ & Hh & Hf) | (_ & Hh & Hf)].
  - split; assumption.
  - rewrite Hh, Hf.
    destruct (Z.gtb_spec (Game.score g') (Game.high_score g)); [lia|].
    split; [reflexivity | lia].
Qed.

Lemma X16_update_never_raises_witness :
  exists g',
    Game.update sample_env maze_game = Ok g'
    /\ Game.highscore_file g' = Some 50.
Proof.
  destruct (X16_update_never_raises sample_env maze_game)
    as [(g' & Hup & Hf & _) | [Hloop _]].
  - discriminate.
  - vm_compute. discriminate.
  - exists g'. split; [exact Hup | exact Hf].
  - exfalso.
    assert (H : exists g', Game.update sample_env maze_game = Ok g')
      by (eexists; vm_compute; reflexivity).
    destruct H as [g' H]. rewrite H in Hloop. discriminate.
Defined.

(** ** Construction, the main loop and the game-over screen *)

(** X17: [__init__] draws the first food before the layout is chosen,
    against the empty wall list.  A game built and then configured with
    a layout therefore starts with its food on an obstacle whenever the
    first cell drawn, a cell of the grid, is an obstacle of that layout
    and not one of the two cells of the new snake. *)
Theorem X17_first_food_ignores_layout (file : option Z) (env : Env)
        (width height : Z) (d : Difficulty) (m : MapStyle) (spawn : bool)
        (count : Z) (p : Position.t) (rest : list Position.t) :
  draws env = p :: rest ->
  in_grid (width / 20) (height / 20) p ->
  p <> Position.mk (width / 20 / 2) (height / 20 / 2) ->
  p <> Position.mk (width / 20 / 2 - 1) (height / 20 / 2) ->
  In (cell p) (Game.MAP_LAYOUTS m) ->
  exists g0,
    Game.init file env width height = Ok g0
    /\ Food.position (Game.food (Game.configure d m spawn count g0)) = p
    /\ In (cell (Food.position (Game.food (Game.configure d m spawn count g0))))
          (Game.walls (Game.configure d m spawn count g0)).
Proof.
  intros Hdraws _ Hhead Htail Hwall.
  assert (Hloop : forall g,
             Game.snake g
             = Snake.init (Position.mk (width / 20 / 2) (height / 20 / 2)) ->
             Game.walls g = [] -> Game.enemies g = [] ->
             Game.generate_food_loop g (draws env) = Ok p).
  { intros g Hs Hw He. rewrite Hdraws. simpl.
    assert (Hok : Game.food_cell_ok g p = true).
    { apply food_cell_ok_spec. unfold free_cell. rewrite Hs, Hw, He. simpl.
      repeat split; try tauto.
      intros [H | [H | []]]; [apply Hhead | apply Htail]; now rewrite H. }
    now rewrite Hok. }
  unfold Game.init, Game.generate_food. cbv zeta.
  rewrite Hloop by reflexivity. simpl.
  destruct (Game.roll_lt_005 _); [|destruct (Game.roll_lt_020 _)];
    eexists; (split; [reflexivity|]); simpl; split; try reflexivity;
    exact Hwall.
Qed.

Lemma X17_first_food_ignores_layout_witness :
  exists g0,
    Game.init None (mkEnv [] [Position.mk 10 7] 4503599627370496 0 0) 800 600
    = Ok g0
    /\ Food.position (Game.food (Game.configure EASY MAZE false 0 g0))
       = Position.mk 10 7.
Proof.
  destruct (X17_first_food_ignores_layout None
              (mkEnv [] [Position.mk 10 7] 4503599627370496 0 0)
              800 600 EASY MAZE false 0 (Position.mk 10 7) [] eq_refl)
    as (g0 & Hinit & Hpos & _).
  - unfold in_grid. change (800 / 20) with 40. change (600 / 20) with 30.
    simpl. lia.
  - discriminate.
  - discriminate.
  - apply (any_wall_In (Position.mk 10 7)). vm_compute. reflexivity.
  - exists g0. split; assumption.
Defined.

(** X18: the main loop returns only a game that is over, and what it
    returns does not depend on input queued after the last tick it
    needed. *)
Theorem X18_loop_returns_finished_game (ticks : list Env) :
  forall g g',
    Game.run_loop ticks g = Ok g' ->
    Game.game_over g' = true
    /\ forall more, Game.run_loop (ticks ++ more) g = Ok g'.
Proof.
  induction ticks as [|env ticks IH]; intros g g'; simpl.
  - destruct (Game.game_over g) eqn:Hover; [|discriminate].
    intros H. injection H as <-. split; [exact Hover|].
    intros more. destruct more; simpl; rewrite Hover; reflexivity.
  - destruct (Game.game_over g) eqn:Hover.
    + intros H. injection H as <-. split; [exact Hover|]. reflexivity.
    + destruct (Game.handle_events (events env) g) as [g1| |];
        simpl; try discriminate.
      destruct (Game.update env g1) as [g2| |]; simpl; try discriminate.
      apply IH.
Qed.

Lemma X18_loop_returns_finished_game_witness :
  exists g',
    Game.run_loop ([sample_env] ++ [small_env; small_env]) maze_game = Ok g'
    /\ Game.game_over g' = true.
Proof.
  assert (Hrun : exists g', Game.run_loop [sample_env] maze_game = Ok g')
    by (eexists; vm_compute; reflexivity).
  destruct Hrun as [g' Hrun]. exists g'.
  destruct (X18_loop_returns_finished_game [sample_env] maze_game g' Hrun)
    as [Hover Hmore].
  split; [apply Hmore | exact Hover].
Defined.

Lemma show_game_over_batch_spec (evs : list OverEvent) :
  forall waiting w,
    Game.show_game_over_batch evs waiting = Ok w
    <-> Forall (fun ev => ev = O_OTHER \/ ev = O_SPACE) evs
        /\ ((In O_SPACE evs /\ w = false) \/ (~ In O_SPACE evs /\ w = waiting)).
Proof.
  induction evs as [|ev evs IH]; intros waiting w; simpl.
  - split.
    + intros H. injection H as <-. split; [constructor|]. right. tauto.
    + intros [_ [[[] _] | [_ ->]]]. reflexivity.
  - destruct ev.
    + split; [discriminate|]. intros [H _]. inversion H as [|? ? [Hq | Hq]]; discriminate.
    + rewrite IH. split.
      * intros [Hall [[Hin ->] | [Hnot ->]]];
          (split; [constructor; [now right | exact Hall]|]); left; tauto.
      * intros [Hall Hcase]. inversion Hall; subst. split; [assumption|].
        destruct Hcase as [[_ ->] | [Hnot _]]; [|exfalso; apply Hnot; now left].
        destruct (in_dec (fun a b : OverEvent =>
                            ltac:(decide equality) : {a = b} + {a <> b})
                         O_SPACE evs); [left | right]; tauto.
    + split; [discriminate|]. intros [H _]. inversion H as [|? ? [Hq | Hq]]; discriminate.
    + rewrite IH. split.
      * intros [Hall Hcase]. split; [constructor; [now left | exact Hall]|].
        destruct Hcase as [[Hin ->] | [Hnot ->]]; [left | right].
        -- split; [now right | reflexivity].
        -- split; [|reflexivity]. intros [H | H]; [discriminate | tauto].
      * intros [Hall Hcase]. inversion Hall; subst. split; [assumption|].
        destruct Hcase as [[[H | Hin] ->] | [Hnot ->]];
          [discriminate | left; tauto | right].
        split; [|reflexivity]. intros Hin. apply Hnot. now right.
Qed.

(** X19: the game-over screen returns exactly when some batch of events
    holds a SPACE and neither a QUIT nor an ESC, every batch before it
    holding nothing the screen reacts to; an ESC or QUIT that arrives in
    the same batch as the SPACE, even after it, still ends the process. *)
Theorem X19_game_over_screen (batches : list (list OverEvent)) :
  (Game.show_game_over batches = Ok tt
   <-> exists before evs after,
       batches = before ++ evs :: after
       /\ Forall (Forall (fun ev => ev = O_OTHER)) before
       /\ In O_SPACE evs
       /\ Forall (fun ev => ev = O_OTHER \/ ev = O_SPACE) evs)
  /\ (forall before evs1 evs2 after,
         Forall (Forall (fun ev => ev = O_OTHER)) before ->
         Forall (fun ev => ev = O_OTHER \/ ev = O_SPACE) evs1 ->
         Game.show_game_over
           (before ++ (evs1 ++ O_SPACE :: O_ESCAPE :: evs2) :: after)
         = Raise SystemExit).
Proof.
  assert (Hquiet : forall evs,
             Forall (fun ev => ev = O_OTHER) evs ->
             Game.show_game_over_batch evs true = Ok true).
  { intros evs Hall. apply show_game_over_batch_spec. split.
    - eapply Forall_impl; [|exact Hall]. intros ev ->. now left.
    - right. split; [|reflexivity]. intros Hin.
      rewrite Forall_forall in Hall. specialize (Hall _ Hin). discriminate. }
  split.
  - induction batches as [|evs batches IH]; simpl.
    + split; [discriminate|].
      intros (before & evs & after & Heq & _). destruct before; discriminate.
    + destruct (Game.show_game_over_batch evs true) as [w| |] eqn:Hbatch; simpl.
      * apply show_game_over_batch_spec in Hbatch as [Hall Hcase].
        destruct Hcase as [[Hin ->] | [Hnot ->]].
        -- split; [|reflexivity]. intros _. exists [], evs, batches.
           repeat split; try assumption. constructor.
        -- rewrite IH. split.
           ++ intros (before & evs' & after & Heq & Hb & Hin & Hall').
              exists (evs :: before), evs', after.
              split; [simpl; now rewrite Heq|]. split; [|split; assumption].
              constructor; [|exact Hb].
              rewrite Forall_forall in Hall |- *. intros ev Hev.
              destruct (Hall ev Hev) as [-> | ->]; [reflexivity|contradiction].
           ++ intros (before & evs' & after & Heq & Hb & Hin & Hall').
              destruct before as [|b0 before]; simpl in Heq;
                injection Heq as He Hbt; [subst evs'; contradiction|].
              exists before, evs', after. inversion Hb; subst.
              repeat split; assumption.
      * split; [discriminate|].
        intros (before & evs' & after & Heq & Hb & Hin & Hall').
        exfalso. destruct before as [|b0 before]; simpl in Heq;
          injection Heq as He Hbt; subst.
        -- assert (H : exists w, Game.show_game_over_batch evs' true = Ok w).
           { exists false. apply show_game_over_batch_spec.
             split; [assumption|]. left. tauto. }
           destruct H as [w H]. congruence.
        -- inversion Hb; subst. rewrite Hquiet in Hbatch by assumption.
           discriminate.
      * split; [discriminate|].
        intros (before & evs' & after & Heq & Hb & Hin & Hall').
        exfalso. destruct before as [|b0 before]; simpl in Heq;
          injection Heq as He Hbt; subst.
        -- assert (H : exists w, Game.show_game_over_batch evs' true = Ok w).
           { exists false. apply show_game_over_batch_spec.
             split; [assumption|]. left. tauto. }
           destruct H as [w H]. congruence.
        -- inversion Hb; subst. rewrite Hquiet in Hbatch by assumption.
           discriminate.
  - intros before evs1 evs2 after Hb Hall.
    induction Hb as [|b0 before Hb0 Hb IH]; simpl.
    + assert (Hexit : forall w,
                 Game.show_game_over_batch
                   (evs1 ++ O_SPACE :: O_ESCAPE :: evs2) w = Raise SystemExit).
      { induction Hall as [|ev evs1 [-> | ->] Hall IH1]; intros w; simpl;
          try reflexivity; apply IH1. }
      rewrite Hexit. reflexivity.
    + rewrite (Hquiet b0 Hb0). simpl. exact IH.
Qed.

Lemma X19_game_over_screen_witness :
  Game.show_game_over [[O_OTHER]; [O_SPACE; O_ESCAPE]] = Raise SystemExit.
Proof.
  apply (proj2 (X19_game_over_screen []) [[O_OTHER]] [] [] []).
  - repeat constructor.
  - constructor.
Defined.

(** ** The menu *)

Lemma show_eta (st : Menu.Show) :
  Menu.mkShow (Menu.menu st) (Menu.selected_option st) (Menu.running st)
              (Menu.posted st) (Menu.file st) = st.
Proof. destruct st; reflexivity. Qed.

Lemma menu_eta (m : Menu.t) :
  Menu.mk (Menu.width m) (Menu.height m) (Menu.difficulty m) (Menu.map_style m)
          (Menu.spawn_enemies m) (Menu.enemy_count m) = m.
Proof. destruct m; reflexivity. Qed.

(** X20: the arrow keys move the selection round the six options and
    change nothing else: after Up or Down the selection is one of 0..5
    whatever it was, Up from the first option lands on the last and Down
    from the last on the first, and on a selection in range Up and Down
    undo each other. *)
Theorem X20_menu_navigation (sess : Session) (st : Menu.Show) :
  let up := Menu.set_selected_option
              ((Menu.selected_option st - 1) mod 6) st in
  let down := Menu.set_selected_option
                ((Menu.selected_option st + 1) mod 6) st in
  Menu.on_event sess (M_KEYDOWN MK_UP) st = Ok up
  /\ Menu.on_event sess (M_KEYDOWN MK_DOWN) st = Ok down
  /\ 0 <= Menu.selected_option up < 6
  /\ 0 <= Menu.selected_option down < 6
  /\ (Menu.selected_option st = 0 -> Menu.selected_option up = 5)
  /\ (Menu.selected_option st = 5 -> Menu.selected_option down = 0)
  /\ (0 <= Menu.selected_option st < 6 ->
      Menu.on_event sess (M_KEYDOWN MK_DOWN) up = Ok st
      /\ Menu.on_event sess (M_KEYDOWN MK_UP) down = Ok st).
Proof.
  intros up down. subst up down. simpl. unfold Menu.options_len.
  split; [reflexivity|]. split; [reflexivity|].
  split; [apply Z.mod_pos_bound; lia|].
  split; [apply Z.mod_pos_bound; lia|].
  split; [intros ->; reflexivity|].
  split; [intros ->; reflexivity|].
  intros Hrange. unfold Menu.set_selected_option. simpl.
  assert (H1 : ((Menu.selected_option st - 1) mod 6 + 1) mod 6
               = Menu.selected_option st).
  { assert (Hc : Menu.selected_option st = 0 \/ Menu.selected_option st = 1
                 \/ Menu.selected_option st = 2 \/ Menu.selected_option st = 3
                 \/ Menu.selected_option st = 4 \/ Menu.selected_option st = 5)
      by lia.
    destruct Hc as [-> | [-> | [-> | [-> | [-> | ->]]]]]; reflexivity. }
  assert (H2 : ((Menu.selected_option st + 1) mod 6 - 1) mod 6
               = Menu.selected_option st).
  { assert (Hc : Menu.selected_option st = 0 \/ Menu.selected_option st = 1
                 \/ Menu.selected_option st = 2 \/ Menu.selected_option st = 3
                 \/ Menu.selected_option st = 4 \/ Menu.selected_option st = 5)
      by lia.
    destruct Hc as [-> | [-> | [-> | [-> | [-> | ->]]]]]; reflexivity. }
  rewrite H1, H2, show_eta. split; reflexivity.
Qed.

Lemma X20_menu_navigation_witness :
  Menu.on_event sample_session (M_KEYDOWN MK_UP) sample_show
  = Ok (Menu.set_selected_option 5 sample_show).
Proof.
  exact (proj1 (X20_menu_navigation sample_session sample_show)).
Defined.

(** X21: Return on the three setting rows changes only that setting.
    The difficulty goes Easy, Medium, Hard and back to Easy, so three
    presses restore the menu; the map goes Basic, Maze and back, and the
    enemy switch flips, so two presses restore it. *)
Theorem X21_menu_settings_cycle (sess : Session) (st : Menu.Show) :
  (Menu.selected_option st = 1 ->
   exists st1,
     Menu.on_return sess st = Ok st1
     /\ st1 = Menu.set_menu
                (Menu.set_difficulty
                   match Menu.difficulty (Menu.menu st) with
                   | EASY => MEDIUM
                   | MEDIUM => HARD
                   | HARD => EASY
                   end (Menu.menu st)) st
     /\ (st2 <- Menu.on_return sess st1 ;; Menu.on_return sess st2) = Ok st)
  /\ (Menu.selected_option st = 2 ->
      exists st1,
        Menu.on_return sess st = Ok st1
        /\ st1 = Menu.set_menu
                   (Menu.set_map_style
                      match Menu.map_style (Menu.menu st) with
                      | BASIC => MAZE
                      | MAZE => BASIC
                      end (Menu.menu st)) st
        /\ Menu.on_return sess st1 = Ok st)
  /\ (Menu.selected_option st = 3 ->
      exists st1,
        Menu.on_return sess st = Ok st1
        /\ st1 = Menu.set_menu
                   (Menu.set_spawn_enemies
                      (negb (Menu.spawn_enemies (Menu.menu st))) (Menu.menu st))
                   st
        /\ Menu.on_return sess st1 = Ok st).
Proof.
  destruct st as [[w h d m sp c] sel run posted file].
  unfold Menu.on_return. simpl.
  split; [|split]; intros ->; simpl; eexists; (split; [reflexivity|]).
  - split; [destruct d; reflexivity|]. destruct d; reflexivity.
  - split; [destruct m; reflexivity|]. destruct m; reflexivity.
  - split; [reflexivity|]. unfold Menu.set_menu, Menu.set_spawn_enemies. simpl.
    rewrite negb_involutive. reflexivity.
Qed.

Lemma X21_menu_settings_cycle_witness :
  exists st1,
    Menu.on_return sample_session (Menu.set_selected_option 1 sample_show)
    = Ok st1
    /\ Menu.difficulty (Menu.menu st1) = MEDIUM.
Proof.
  destruct (proj1 (X21_menu_settings_cycle sample_session
                     (Menu.set_selected_option 1 sample_show)) eq_refl)
    as (st1 & Hret & Heq & _).
  exists st1. split; [exact Hret|]. rewrite Heq. reflexivity.
Defined.

(** X22: Return on the enemy-count row does nothing while enemies are
    switched off; while they are on it sets the count to
    [count mod 5 + 1], a number from 1 to 5 whatever the count was, going
    1, 2, 3, 4, 5 and back to 1. *)
Theorem X22_menu_enemy_count (sess : Session) (st : Menu.Show) :
  Menu.selected_option st = 4 ->
  (Menu.spawn_enemies (Menu.menu st) = false -> Menu.on_return sess st = Ok st)
  /\ (Menu.spawn_enemies (Menu.menu st) = true ->
      exists st1,
        Menu.on_return sess st = Ok st1
        /\ st1 = Menu.set_menu
                   (Menu.set_enemy_count
                      (Menu.enemy_count (Menu.menu st) mod 5 + 1) (Menu.menu st))
                   st
        /\ 1 <= Menu.enemy_count (Menu.menu st1) <= 5
        /\ (1 <= Menu.enemy_count (Menu.menu st) < 5 ->
            Menu.enemy_count (Menu.menu st1)
            = Menu.enemy_count (Menu.menu st) + 1)
        /\ (Menu.enemy_count (Menu.menu st) = 5
            \/ Menu.enemy_count (Menu.menu st) = 0 ->
            Menu.enemy_count (Menu.menu st1) = 1)).
Proof.
  intros Hsel. unfold Menu.on_return. rewrite Hsel. simpl.
  split; intros Hsp; rewrite Hsp; [reflexivity|].
  eexists. split; [reflexivity|]. split; [reflexivity|]. simpl.
  pose proof (Z.mod_pos_bound (Menu.enemy_count (Menu.menu st)) 5 ltac:(lia)).
  split; [lia|]. split.
  - intros Hr. rewrite Z.mod_small by lia. reflexivity.
  - intros [-> | ->]; reflexivity.
Qed.

Lemma X22_menu_enemy_count_witness :
  Menu.on_return sample_session (Menu.set_selected_option 4 sample_show)
  = Ok (Menu.set_selected_option 4 sample_show).
Proof.
  exact (proj1 (X22_menu_enemy_count sample_session
                  (Menu.set_selected_option 4 sample_show) eq_refl) eq_refl).
Defined.

Lemma update_enemies_kept (env : Env) (g g' : Game.t) :
  Game.update env g = Ok g' ->
  length (Game.enemies g') = length (Game.enemies g).
Proof.
  intros Hup.
  destruct (update_cases env g g' Hup)
    as (s' & head & rest & _ & _ & [[_ ->] | (_ & g2 & Hphase & ->)]).
  - destruct (end_game_fields (Game.set_snake s' g)) as (_ & _ & _ & He & _).
    rewrite He. reflexivity.
  - destruct (food_phase_fields env head _ g2 Hphase) as (_ & Pe & _).
    destruct (flash_phase_fields env g2) as (_ & _ & Fe & _).
    destruct (enemy_phase_fields head (flash_phase env g2))
      as (_ & _ & _ & _ & Ee & _).
    rewrite Ee. unfold moved_enemies.
    destruct (Game.spawn_enemies _); [rewrite length_map|];
      rewrite Fe, Pe; reflexivity.
Qed.

Lemma run_loop_board (ticks : list Env) :
  forall g g',
    Game.run_loop ticks g = Ok g' ->
    length (Game.enemies g') = length (Game.enemies g)
    /\ Game.grid_width g' = Game.grid_width g
    /\ Game.grid_height g' = Game.grid_height g.
Proof.
  induction ticks as [|env ticks IH]; intros g g'; simpl.
  - destruct (Game.game_over g); [|discriminate].
    intros H. injection H as <-. repeat split.
  - destruct (Game.game_over g).
    + intros H. injection H as <-. repeat split.
    + destruct (Game.handle_events (events env) g) as [g1| |] eqn:Hev;
        simpl; try discriminate.
      destruct (Game.update env g1) as [g2| |] eqn:Hup; simpl; try discriminate.
      intros H. destruct (IH g2 g' H) as (He & Hw & Hh).
      apply handle_events_snake in Hev as [d ->].
      pose proof (update_enemies_kept env _ g2 Hup) as He2.
      destruct (update_board env _ g2 Hup) as (Hw2 & Hh2 & _).
      simpl in He2, Hw2, Hh2. repeat split; congruence.
Qed.

Lemma setup_enemies_result (setup : list Position.t) (g g1 : Game.t) :
  Game.setup_enemies setup g = Ok g1 ->
  Game.game_over g1 = Game.game_over g
  /\ Game.score g1 = Game.score g
  /\ Game.high_score g1 = Game.high_score g
  /\ Game.highscore_file g1 = Game.highscore_file g
  /\ Game.walls g1 = Game.walls g
  /\ Game.grid_width g1 = Game.grid_width g
  /\ Game.grid_height g1 = Game.grid_height g
  /\ length (Game.enemies g1)
     = (if Game.spawn_enemies g && (Game.enemy_count g >? 0)
        then Z.to_nat (Game.enemy_count g) else length (Game.enemies g)).
Proof.
  unfold Game.setup_enemies. destruct (_ && _).
  - intros H.
    destruct (place_enemies_result _ _ _ _ H) as (added & -> & Hlen & _).
    simpl. repeat split. exact Hlen.
  - intros H. injection H as <-. repeat split.
Qed.

Lemma start_game_result (sess : Session) (hs : option Z) (m : Menu.t)
      (g : Game.t) (sc : Z) :
  Menu.start_game sess hs m = Ok (g, sc) ->
  sc = Game.score g
  /\ Game.game_over g = true
  /\ Game.grid_width g = Menu.width m / 20
  /\ Game.grid_height g = Menu.height m / 20
  /\ Game.walls g = Game.MAP_LAYOUTS (Menu.map_style m)
  /\ length (Game.enemies g)
     = (if Menu.spawn_enemies m && (Menu.enemy_count m >? 0)
        then Z.to_nat (Menu.enemy_count m) else O)
  /\ Game.highscore_file g
     = (if sc >? Game.load_high_score hs then Some sc else hs)
  /\ Game.load_high_score (Game.highscore_file g)
     = Z.max sc (Game.load_high_score hs).
Proof.
  unfold Menu.start_game.
  destruct (Game.init hs (init_env sess) (Menu.width m) (Menu.height m))
    as [g0| |] eqn:Hinit; simpl; try discriminate.
  destruct (init_fields _ _ _ _ _ Hinit)
    as (Hover & _ & Hhigh & Hfile & _ & Hen & _).
  destruct (init_grid _ _ _ _ _ Hinit) as (Hgw & Hgh).
  set (gc := Game.configure (Menu.difficulty m) (Menu.map_style m)
                            (Menu.spawn_enemies m) (Menu.enemy_count m) g0).
  unfold Game.play.
  destruct (Game.setup_enemies (setup_draws sess) gc) as [g1| |] eqn:Hsetup;
    simpl; try discriminate.
  destruct (setup_enemies_result _ _ _ Hsetup)
    as (Ho1 & _ & Hh1 & Hf1 & Hw1 & Hgw1 & Hgh1 & Hl1).
  simpl in Ho1, Hh1, Hf1, Hw1, Hgw1, Hgh1, Hl1.
  rewrite Hen in Hl1. simpl length in Hl1.
  destruct (Game.run_loop (tick_envs sess) g1) as [g2| |] eqn:Hrun;
    simpl; try discriminate.
  destruct (Game.show_game_over (over_batches sess)) as [[]| |];
    simpl; try discriminate.
  intros H. injection H as <- <-.
  rewrite Hover in Ho1.
  destruct (run_loop_record _ _ _ Ho1 Hrun) as (Ho2 & Hh2 & Hf2).
  destruct (run_loop_board _ _ _ Hrun) as (Hl2 & Hgw2 & Hgh2).
  pose proof (run_loop_walls _ _ _ Hrun) as Hw2.
  rewrite Hh1, Hhigh in Hf2. rewrite Hf1, Hfile in Hf2.
  split; [reflexivity|]. split; [exact Ho2|].
  split; [congruence|]. split; [congruence|]. split; [congruence|].
  split; [congruence|]. split; [exact Hf2|].
  rewrite Hf2.
  destruct (Z.gtb_spec (Game.score g2) (Game.load_high_score hs)); simpl; lia.
Qed.

(** A draw that is free of the snake makes [__init__] return. *)
Lemma init_returns (file : option Z) (env : Env) (width height : Z)
      (p : Position.t) :
  In p (draws env) ->
  ~ In p (Snake.body (Snake.init (Position.mk (width / 20 / 2)
                                              (height / 20 / 2)))) ->
  exists g0, Game.init file env width height = Ok g0.
Proof.
  intros Hin Hfree. unfold Game.init. cbv zeta.
  match goal with
  | |- context [Game.generate_food env ?g] =>
      destruct (generate_food_returns env g p Hin) as [f Hf]
  end.
  - unfold free_cell. simpl Game.snake. simpl Game.walls. simpl Game.enemies.
    split; [exact Hfree|]. split; [intros []|]. intros e [].
  - rewrite Hf. simpl. eexists. reflexivity.
Qed.

(** X23: a game started from the menu.  When [start_game] returns, the
    game was built for the menu's window and layout, has as many enemies
    as the menu asks for when enemies are switched on and the count is
    positive and none otherwise, is over, and its final score is what is
    returned; the high-score file is rewritten with that score exactly
    when it is greater than the number the file held, and is otherwise
    left as it was.  And [start_game] does get as far as the main loop:
    the game is built once the random source draws a cell off the new
    snake, the enemies are placed once it draws as many distinct free
    cells as there are enemies to place, and the call then returns as
    soon as the main loop ends and the game-over screen is left. *)
Theorem X23_game_started_from_menu (sess : Session) (hs : option Z)
        (m : Menu.t) :
  (forall g sc,
      Menu.start_game sess hs m = Ok (g, sc) ->
      sc = Game.score g
      /\ Game.game_over g = true
      /\ Game.grid_width g = Menu.width m / 20
      /\ Game.grid_height g = Menu.height m / 20
      /\ Game.walls g = Game.MAP_LAYOUTS (Menu.map_style m)
      /\ length (Game.enemies g)
         = (if Menu.spawn_enemies m && (Menu.enemy_count m >? 0)
            then Z.to_nat (Menu.enemy_count m) else O)
      /\ Game.highscore_file g
         = (if sc >? Game.load_high_score hs then Some sc else hs))
  /\ ((exists p,
         In p (draws (init_env sess))
         /\ ~ In p (Snake.body
                      (Snake.init (Position.mk (Menu.width m / 20 / 2)
                                               (Menu.height m / 20 / 2))))) ->
      exists g0,
        Game.init hs (init_env sess) (Menu.width m) (Menu.height m) = Ok g0
        /\ let gc := Game.configure (Menu.difficulty m) (Menu.map_style m)
                                    (Menu.spawn_enemies m) (Menu.enemy_count m)
                                    g0 in
           ((exists cells,
                NoDup cells
                /\ length cells = Z.to_nat (Menu.enemy_count m)
                /\ forall q, In q cells ->
                             In q (setup_draws sess)
                             /\ ~ In q (Snake.body (Game.snake gc))
                             /\ ~ In (cell q) (Game.walls gc)
                             /\ q <> Food.position (Game.food gc)) ->
            exists g1,
              Game.setup_enemies (setup_draws sess) gc = Ok g1
              /\ forall g2,
                  Game.run_loop (tick_envs sess) g1 = Ok g2 ->
                  Game.show_game_over (over_batches sess) = Ok tt ->
                  Menu.start_game sess hs m = Ok (g2, Game.score g2))).
Proof.
  split.
  - intros g sc H.
    destruct (start_game_result sess hs m g sc H)
      as (H1 & H2 & H3 & H4 & H5 & H6 & H7 & _).
    repeat split; assumption.
  - intros (p & Hin & Hfree).
    destruct (init_returns hs (init_env sess) (Menu.width m) (Menu.height m)
                p Hin Hfree) as [g0 Hinit].
    exists g0. split; [exact Hinit|]. intros gc (cells & Hnd & Hlen & Hcells).
    assert (Hsetup : exists g1, Game.setup_enemies (setup_draws sess) gc = Ok g1).
    { unfold Game.setup_enemies. destruct (_ && _); [|eexists; reflexivity].
      apply (place_enemies_returns _ _ _ cells Hnd).
      - subst gc. simpl Game.enemy_count. lia.
      - intros q Hq. destruct (Hcells q Hq) as (Hd & Hb & Hw & Hf).
        split; [exact Hd|]. apply enemy_cell_ok_spec.
        split; [|exact Hf]. repeat split; try assumption. intros e []. }
    destruct Hsetup as [g1 Hsetup]. exists g1. split; [exact Hsetup|].
    intros g2 Hrun Hover.
    unfold Menu.start_game. rewrite Hinit. cbn [bind].
    unfold Game.play. fold gc. rewrite Hsetup. cbn [bind].
    rewrite Hrun. cbn [bind]. rewrite Hover. reflexivity.
Qed.

Lemma X23_game_started_from_menu_witness :
  exists g sc,
    Menu.start_game sample_session (Some 5) (Menu.init 800 600) = Ok (g, sc)
    /\ Game.highscore_file g = (if sc >? 5 then Some sc else Some 5).
Proof.
  assert (H : exists r, Menu.start_game sample_session (Some 5)
                                        (Menu.init 800 600) = Ok r)
    by (eexists; vm_compute; reflexivity).
  destruct H as [[g sc] H]. exists g, sc. split; [exact H|].
  apply (proj1 (X23_game_started_from_menu sample_session (Some 5)
                  (Menu.init 800 600)) g sc H).
Defined.

Lemma collide_iff (m : Menu.t) (i : Z) (pos : Z * Z) :
  Menu.collidepoint (Menu.button_rect m i) pos = true
  <-> (Menu.width m - 300) / 2 <= fst pos < (Menu.width m - 300) / 2 + 300
      /\ 150 + 80 * i <= snd pos < 150 + 80 * i + 60.
Proof.
  unfold Menu.collidepoint, Menu.button_rect. cbv zeta.
  rewrite !andb_true_iff, !Z.leb_le, !Z.ltb_lt. lia.
Qed.

(** X24: a mouse click on a button selects that row and posts exactly
    one Return key event; a click that hits no button changes nothing.
    Button [i] covers the 300 columns from [(width - 300) / 2] and the 60
    rows from [150 + 80 * i], its right and bottom edges excluded, so no
    point lies on two buttons. *)
Theorem X24_menu_click (sess : Session) (st : Menu.Show) (pos : Z * Z) :
  (forall i,
      0 <= i < 6 ->
      (Menu.width (Menu.menu st) - 300) / 2 <= fst pos
        < (Menu.width (Menu.menu st) - 300) / 2 + 300 ->
      150 + 80 * i <= snd pos < 150 + 80 * i + 60 ->
      Menu.on_event sess (M_MOUSEBUTTONDOWN pos) st
      = Ok (Menu.post (M_KEYDOWN MK_RETURN) (Menu.set_selected_option i st)))
  /\ ((forall i, 0 <= i < 6 ->
                 Menu.collidepoint (Menu.button_rect (Menu.menu st) i) pos
                 = false) ->
      Menu.on_event sess (M_MOUSEBUTTONDOWN pos) st = Ok st).
Proof.
  change (Menu.on_event sess (M_MOUSEBUTTONDOWN pos) st)
    with (Ok (Menu.on_click pos [0; 1; 2; 3; 4; 5] st)).
  split.
  - intros i Hi Hx Hy.
    assert (Hhit : Menu.collidepoint (Menu.button_rect (Menu.menu st) i) pos
                   = true) by (apply collide_iff; split; assumption).
    assert (Hmiss : forall j, j <> i ->
               Menu.collidepoint (Menu.button_rect (Menu.menu st) j) pos = false).
    { intros j Hne.
      destruct (Menu.collidepoint (Menu.button_rect (Menu.menu st) j) pos)
        eqn:E; [|reflexivity].
      apply collide_iff in E. lia. }
    assert (Hc : i = 0 \/ i = 1 \/ i = 2 \/ i = 3 \/ i = 4 \/ i = 5) by lia.
    destruct Hc as [-> | [-> | [-> | [-> | [-> | ->]]]]];
      cbn [Menu.on_click Menu.menu Menu.post Menu.set_selected_option];
      rewrite ?Hhit;
      repeat (rewrite Hmiss by discriminate);
      rewrite ?Hhit;
      repeat (rewrite Hmiss by discriminate);
      reflexivity.
  - intros Hnone.
    cbn [Menu.on_click].
    rewrite !Hnone by lia. reflexivity.
Qed.

Lemma X24_menu_click_witness :
  Menu.on_event sample_session (M_MOUSEBUTTONDOWN (300, 400)) sample_show
  = Ok (Menu.post (M_KEYDOWN MK_RETURN) (Menu.set_selected_option 3 sample_show)).
Proof.
  apply (proj1 (X24_menu_click sample_session sample_show (300, 400)) 3).
  - lia.
  - vm_compute. split; [discriminate | reflexivity].
  - simpl. lia.
Defined.

Lemma on_click_file (pos : Z * Z) (indices : list Z) :
  forall st, Menu.file (Menu.on_click pos indices st) = Menu.file st.
Proof.
  induction indices as [|i indices IH]; intros st; [reflexivity|].
  cbn [Menu.on_click].
  destruct (Menu.collidepoint (Menu.button_rect (Menu.menu st) i) pos);
    rewrite IH; reflexivity.
Qed.

Lemma on_event_file (sess : Session) (ev : MenuEvent) (st st' : Menu.Show) :
  Menu.on_event sess ev st = Ok st' ->
  Game.load_high_score (Menu.file st) <= Game.load_high_score (Menu.file st').
Proof.
  destruct ev as [|key|pos|].
  - discriminate.
  - destruct key; cbn [Menu.on_event];
      try (intros H; injection H as <-; simpl; lia).
    unfold Menu.on_return.
    destruct (Menu.selected_option st =? 0).
    + destruct (Menu.start_game sess (Menu.file st) (Menu.menu st))
        as [[g sc]| |] eqn:Hstart; simpl; try discriminate.
      intros H. injection H as <-. simpl.
      destruct (start_game_result _ _ _ _ _ Hstart)
        as (_ & _ & _ & _ & _ & _ & _ & Hf).
      rewrite Hf. lia.
    + case_ifs; intros H; injection H as <-; simpl; lia.
  - cbn [Menu.on_event]. intros H.
    assert (Hst : st' = Menu.on_click pos (range 0 Menu.options_len) st)
      by congruence.
    rewrite Hst, on_click_file. lia.
  - cbn [Menu.on_event]. intros H. injection H as <-. lia.
Qed.

(** X25: over a whole session of the menu, however many games are
    played and whatever else is clicked or pressed, the number held by
    the high-score file never goes down; and the menu loop returns only
    with its running flag cleared. *)
Theorem X25_menu_keeps_high_score
        (frames : list (list (MenuEvent * Session))) :
  forall st st',
    Menu.show_loop frames st = Ok st' ->
    Game.load_high_score (Menu.file st) <= Game.load_high_score (Menu.file st')
    /\ Menu.running st' = false.
Proof.
  assert (Hframe : forall evs st st',
             Menu.frame evs st = Ok st' ->
             Game.load_high_score (Menu.file st)
             <= Game.load_high_score (Menu.file st')).
  { induction evs as [|[ev sess] evs IH]; intros st st'; simpl.
    - intros H. injection H as <-. lia.
    - destruct (Menu.on_event sess ev st) as [st1| |] eqn:Hev;
        simpl; try discriminate.
      intros H. apply IH in H. apply on_event_file in Hev. lia. }
  induction frames as [|evs frames IH]; intros st st'; simpl.
  - destruct (Menu.running st) eqn:Hrun; [discriminate|].
    intros H. injection H as <-. split; [lia | exact Hrun].
  - destruct (Menu.running st) eqn:Hrun.
    + destruct (Menu.frame evs st) as [st1| |] eqn:Hf; simpl; try discriminate.
      intros H. destruct (IH st1 st' H) as [Hle Hstop].
      apply Hframe in Hf. split; [lia | exact Hstop].
    + intros H. injection H as <-. split; [lia | exact Hrun].
Qed.

Lemma X25_menu_keeps_high_score_witness :
  exists st',
    Menu.show_loop sample_frames (Menu.mkShow (Menu.init 800 600) 0 true [] (Some 5))
    = Ok st'
    /\ 5 <= Game.load_high_score (Menu.file st').
Proof.
  assert (H : exists st',
             Menu.show_loop sample_frames
               (Menu.mkShow (Menu.init 800 600) 0 true [] (Some 5)) = Ok st')
    by (eexists; vm_compute; reflexivity).
  destruct H as [st' H]. exists st'. split; [exact H|].
  exact (proj1 (X25_menu_keeps_high_score sample_frames
                  (Menu.mkShow (Menu.init 800 600) 0 true [] (Some 5)) st' H)).
Defined.

(** ** The terminal flag *)

Lemma generate_food_reads (env : Env) (g1 g2 : Game.t) :
  Game.snake g1 = Game.snake g2 ->
  Game.walls g1 = Game.walls g2 ->
  Game.enemies g1 = Game.enemies g2 ->
  Game.generate_food env g1 = Game.generate_food env g2.
Proof.
  intros Hs Hw He. unfold Game.generate_food.
  assert (Hloop : Game.generate_food_loop g1 (draws env)
                  = Game.generate_food_loop g2 (draws env)).
  { induction (draws env) as [|c cells IH]; simpl; [reflexivity|].
    unfold Game.food_cell_ok. rewrite Hs, Hw, He, IH. reflexivity. }
  rewrite Hloop. reflexivity.
Qed.

Lemma food_phase_flag (env : Env) (head : Position.t) (b : bool)
      (g g2 : Game.t) :
  food_phase env head g = Ok g2 ->
  food_phase env head (Game.set_game_over b g) = Ok (Game.set_game_over b g2).
Proof.
  unfold food_phase. simpl Game.food.
  destruct (_ && _); [|intros H; injection H as <-; reflexivity].
  cbv zeta.
  match goal with
  | |- bind (Game.generate_food env ?ga) _ = _ ->
       bind (Game.generate_food env ?gb) _ = _ =>
      rewrite (generate_food_reads env gb ga) by reflexivity
  end.
  destruct (Game.generate_food env _) as [f| |]; simpl; try discriminate.
  intros H. injection H as <-. reflexivity.
Qed.

Lemma flash_phase_flag (env : Env) (b : bool) (g : Game.t) :
  flash_phase env (Game.set_game_over b g)
  = Game.set_game_over b (flash_phase env g).
Proof.
  unfold flash_phase.
  change (Game.last_update_time (Game.set_game_over b g))
    with (Game.last_update_time g).
  change (Game.food_flash_interval (Game.set_game_over b g))
    with (Game.food_flash_interval g).
  change (Game.food (Game.set_game_over b g)) with (Game.food g).
  destruct (_ >? _); [|reflexivity].
  destruct (negb _); reflexivity.
Qed.

Lemma enemy_phase_flag (head : Position.t) (b : bool) (g : Game.t) :
  Game.set_game_over true (enemy_phase head (Game.set_game_over b g))
  = Game.set_game_over true (enemy_phase head g).
Proof.
  unfold enemy_phase.
  change (Game.spawn_enemies (Game.set_game_over b g))
    with (Game.spawn_enemies g).
  destruct (Game.spawn_enemies g); [|reflexivity].
  cbv zeta.
  change (moved_enemies head (Game.set_game_over b g))
    with (moved_enemies head g).
  change (Game.enemies (Game.set_enemies (moved_enemies head g)
                                         (Game.set_game_over b g)))
    with (moved_enemies head g).
  change (Game.enemies (Game.set_enemies (moved_enemies head g) g))
    with (moved_enemies head g).
  destruct (any (Game.enemy_on head) (moved_enemies head g)); [|reflexivity].
  unfold Game.end_game. cbv zeta.
  change (Game.score (Game.set_game_over true
                        (Game.set_enemies (moved_enemies head g)
                                          (Game.set_game_over b g))))
    with (Game.score g).
  change (Game.high_score (Game.set_game_over true
                             (Game.set_enemies (moved_enemies head g)
                                               (Game.set_game_over b g))))
    with (Game.high_score g).
  change (Game.score (Game.set_game_over true
                        (Game.set_enemies (moved_enemies head g) g)))
    with (Game.score g).
  change (Game.high_score (Game.set_game_over true
                             (Game.set_enemies (moved_enemies head g) g)))
    with (Game.high_score g).
  destruct (Game.score g >? Game.high_score g); reflexivity.
Qed.

(** [update] does not read the terminal flag: with the flag forced to
    either value it does what it does otherwise, up to the flag. *)
Lemma update_ignores_flag (env : Env) (b : bool) (g g' : Game.t) :
  Game.update env g = Ok g' ->
  exists g'',
    Game.update env (Game.set_game_over b g) = Ok g''
    /\ Game.set_game_over true g'' = Game.set_game_over true g'.
Proof.
  intros Hup.
  destruct (update_cases env g g' Hup)
    as (s' & head & rest & Hmove & Hbs & [[Hcheck ->] | (Hcheck & g2 & Hphase & ->)]).
  - exists (Game.end_game (Game.set_snake s' (Game.set_game_over b g))).
    split.
    + rewrite update_phases.
      change (Snake.move (Game.snake (Game.set_game_over b g)))
        with (Snake.move (Game.snake g)).
      rewrite Hmove. cbn [bind].
      change (Game.check_collision (Game.set_snake s' (Game.set_game_over b g)))
        with (Game.check_collision (Game.set_snake s' g)).
      rewrite Hcheck. reflexivity.
    + unfold Game.end_game. simpl.
      destruct (Game.score g >? Game.high_score g); reflexivity.
  - pose proof (food_phase_flag env head b _ g2 Hphase) as Hphase'.
    exists (enemy_phase head (flash_phase env (Game.set_game_over b g2))).
    split.
    + rewrite update_phases.
      change (Snake.move (Game.snake (Game.set_game_over b g)))
        with (Snake.move (Game.snake g)).
      rewrite Hmove. cbn [bind].
      change (Game.check_collision (Game.set_snake s' (Game.set_game_over b g)))
        with (Game.check_collision (Game.set_snake s' g)).
      rewrite Hcheck. cbn [bind]. rewrite Hbs.
      change (Game.set_snake s' (Game.set_game_over b g))
        with (Game.set_game_over b (Game.set_snake s' g)).
      rewrite Hphase'. reflexivity.
    + rewrite flash_phase_flag. apply enemy_phase_flag.
Qed.

(** A tick that returns has put a new head, one step from the old one,
    in front of the body. *)
Lemma update_moves (env : Env) (g g' : Game.t) :
  Game.update env g = Ok g' ->
  exists h0 r0 rest,
    Snake.body (Game.snake g) = h0 :: r0
    /\ Snake.body (Game.snake g')
       = Snake.offset (Snake.direction (Game.snake g)) h0 :: rest.
Proof.
  intros Hup.
  destruct (Snake.body (Game.snake g)) as [|h0 r0] eqn:Hb0.
  { rewrite update_phases in Hup. unfold Snake.move in Hup.
    rewrite Hb0 in Hup. discriminate. }
  destruct (update_cases env g g' Hup)
    as (s' & head & rest & Hmove & Hbs & Hcase).
  pose proof (move_body _ _ _ _ Hb0 Hmove) as Hbody.
  exists h0, r0.
  destruct Hcase as [[_ ->] | (_ & g2 & Hphase & ->)].
  - destruct (end_game_fields (Game.set_snake s' g)) as (_ & _ & _ & _ & Hs & _).
    rewrite Hs. simpl. rewrite Hbody. eexists. split; reflexivity.
  - destruct (food_phase_fields env head _ g2 Hphase) as (Pb & _).
    destruct (flash_phase_fields env g2) as (Fs & _).
    destruct (enemy_phase_fields head (flash_phase env g2)) as (Es & _).
    rewrite Es, Fs, Pb. simpl. rewrite Hbody. eexists. split; reflexivity.
Qed.

Lemma offset_moves (d : Direction) (head : Position.t) :
  Snake.offset d head <> head.
Proof.
  destruct head as [x y]. destruct d; simpl; intros H; injection H; lia.
Qed.

(** C2 as amended: the loop of [run] applies neither [handle_events]
    nor [update] to a game whose terminal flag is set, whatever input is
    still queued: it exits with the game as it is, [run] goes on to the
    game-over screen and, when that screen returns, returns the score of
    that game; the tick that sets the flag is the last one applied; and
    [update] never clears the flag.  [update] itself has no guard: on a
    game whose flag is set it does exactly what it does on the same game
    with the flag cleared, the flag apart, so the snake advances. *)
Theorem C2_loop_stops_when_terminated (ticks : list Env) (g : Game.t) :
  Game.game_over g = true ->
  Game.run_loop ticks g = Ok g
  /\ (forall setup over,
        Game.run setup ticks over g
        = (g1 <- Game.setup_enemies setup g ;;
           _ <- Game.show_game_over over ;;
           Ok (Game.score g)))
  /\ (forall env g0 g1,
        Game.game_over g0 = false ->
        Game.handle_events (events env) g0 = Ok g1 ->
        Game.update env g1 = Ok g ->
        Game.run_loop (env :: ticks) g0 = Ok g)
  /\ (forall env g',
        Game.update env g = Ok g' ->
        Game.game_over g' = true
        /\ Snake.body (Game.snake g') <> Snake.body (Game.snake g)
        /\ exists g'',
            Game.update env (Game.set_game_over false g) = Ok g''
            /\ Game.set_game_over true g'' = g').
Proof.
  intros Hover.
  assert (Hstop : forall g1, Game.game_over g1 = true ->
                             Game.run_loop ticks g1 = Ok g1).
  { intros g1 H1. destruct ticks; simpl; rewrite H1; reflexivity. }
  split; [exact (Hstop g Hover)|]. split; [|split].
  - intros setup over. unfold Game.run.
    destruct (Game.setup_enemies setup g) as [g1| |] eqn:Hsetup;
      cbn [bind]; try reflexivity.
    destruct (setup_enemies_result _ _ _ Hsetup) as (Ho1 & Hs1 & _).
    rewrite Hstop by congruence. cbn [bind]. rewrite Hs1. reflexivity.
  - intros env g0 g1 Hrun Hev Hup. simpl. rewrite Hrun, Hev. simpl.
    rewrite Hup. simpl. exact (Hstop g Hover).
  - intros env g' Hup.
    pose proof (update_keeps_terminal_flag env g g' Hover Hup) as Hover'.
    split; [exact Hover'|]. split.
    + destruct (update_moves env g g' Hup) as (h0 & r0 & rest & Hb & Hb').
      rewrite Hb, Hb'. intros H. injection H as H _.
      exact (offset_moves _ _ H).
    + destruct (update_ignores_flag env false g g' Hup) as (g'' & Hup'' & Heq).
      exists g''. split; [exact Hup''|]. rewrite Heq.
      destruct g'; simpl in Hover'; subst; reflexivity.
Qed.

Lemma C2_loop_stops_when_terminated_witness :
  Game.run_loop [sample_env; sample_env] terminated_game = Ok terminated_game.
Proof.
  exact (proj1 (C2_loop_stops_when_terminated [sample_env; sample_env]
                  terminated_game eq_refl)).
Defined.

(** C2 as stated fails on [update] itself, which has no guard: applied
    to a game whose terminal flag is set, it moves the snake and, the
    head landing on the food, raises the score from 0 to 10. *)
Lemma C2_counterexample :
  Game.game_over terminated_game = true
  /\ exists g',
      Game.update sample_env terminated_game = Ok g'
      /\ Snake.body (Game.snake terminated_game)
         = [Position.mk 20 15; Position.mk 19 15]
      /\ Snake.body (Game.snake g') = [Position.mk 21 15; Position.mk 20 15]
      /\ Game.score terminated_game = 0
      /\ Game.score g' = 10
      /\ g' <> terminated_game.
Proof.
  split; [reflexivity|].
  eexists. split; [vm_compute; reflexivity|].
  repeat split; try reflexivity. discriminate.
Qed.
